(** * lwext4 physical block allocator (ext4_balloc.c)

    A shallow embedding of the block allocator of lwext4 and the proofs of
    its specification.  Machine integers are [Z] with the wrap-around of
    their C type written out; the bitmap block is a byte array; the
    superblock, the descriptor table, the block cache and the inode are
    threaded explicitly through every operation. *)

From Stdlib Require Import ZArith Lia Bool.
From stdpp Require Import base list functions.

Local Open Scope Z_scope.

(** ** Machine integers *)

Definition wrap16 (x : Z) : Z := x mod 2 ^ 16.
Definition wrap32 (x : Z) : Z := x mod 2 ^ 32.
Definition wrap64 (x : Z) : Z := x mod 2 ^ 64.

(** ** Error codes

    Modelled from the spec: ext4_errno.h is not part of the sources; the
    allocator only compares against [EOK] and returns [ENOSPC] (the spec's
    no_space). *)

Definition EOK : Z := 0.
Definition ENOSPC : Z := 28.

(** ** Bitmap primitives (ext4_bitmap.h)

    Modelled from the spec: ext4_bitmap.h is not part of the sources.  The
    bitmap is a raw byte array in little-endian bit order: bit 0 of byte 0
    is in-group index 0.  An access past the end of the array is undefined
    in C; here a read past the end sees 0 and a write past the end does
    nothing, and every theorem that depends on it bounds the index. *)

(** Modelled from the spec: [bit_set(bm, i)]. *)
Definition ext4_bmap_bit_set (bmap : list Z) (bit : Z) : list Z :=
  alter (fun b => Z.lor b (Z.shiftl 1 (Z.land bit 7)))
        (Z.to_nat (Z.shiftr bit 3)) bmap.

(** Modelled from the spec: [bit_clr(bm, i)]. *)
Definition ext4_bmap_bit_clr (bmap : list Z) (bit : Z) : list Z :=
  alter (fun b => Z.land b (Z.lnot (Z.shiftl 1 (Z.land bit 7))))
        (Z.to_nat (Z.shiftr bit 3)) bmap.

(** Modelled from the spec: [is_set(bm, i)]. *)
Definition ext4_bmap_is_bit_set (bmap : list Z) (bit : Z) : bool :=
  negb (Z.land (default 0 (bmap !! Z.to_nat (Z.shiftr bit 3)))
               (Z.shiftl 1 (Z.land bit 7)) =? 0).

(** Modelled from the spec: [is_clr(bm, i)]. *)
Definition ext4_bmap_is_bit_clr (bmap : list Z) (bit : Z) : bool :=
  negb (ext4_bmap_is_bit_set bmap bit).

(** Modelled from the spec: clear [bcnt] consecutive bits beginning at
    [sbit], one bit at a time. *)
Fixpoint bits_free_from (bcnt : nat) (bmap : list Z) (sbit : Z) : list Z :=
  match bcnt with
  | O => bmap
  | S n => bits_free_from n (ext4_bmap_bit_clr bmap sbit) (sbit + 1)
  end.

(** Modelled from the spec: [bits_free(bm, start, count)]; bits already
    clear remain clear. *)
Definition ext4_bmap_bits_free (bmap : list Z) (sbit bcnt : Z) : list Z :=
  bits_free_from (Z.to_nat bcnt) bmap sbit.

(** Modelled from the spec: left-to-right linear scan for the first clear
    bit among [n] bits
    beginning at [sbit]. *)
Fixpoint find_clr_from (n : nat) (bmap : list Z) (sbit : Z) : option Z :=
  match n with
  | O => None
  | S n' =>
      if ext4_bmap_is_bit_clr bmap sbit then Some sbit
      else find_clr_from n' bmap (sbit + 1)
  end.

(** Modelled from the spec: [find_clr(bm, start, end)], the first clear
    bit in [[start, end)], or not found. *)
Definition ext4_bmap_bit_find_clr (bmap : list Z) (sbit ebit : Z) : option Z :=
  find_clr_from (Z.to_nat (ebit - sbit)) bmap sbit.

(** ** CRC32C (ext4_crc32c.h)

    Modelled from the spec: ext4_crc32c.h is not part of the sources; the
    spec's [crc32c(seed, bytes, len)] is the streaming CRC32C update
    (Castagnoli polynomial, reflected), one byte at a time. *)

(** Modelled from the spec: eight shift-and-reduce steps of the reflected
    polynomial. *)
Fixpoint crc32c_bits (n : nat) (c : Z) : Z :=
  match n with
  | O => c
  | S n' =>
      crc32c_bits n'
        (if Z.odd c then Z.lxor (Z.shiftr c 1) 0x82F63B78 else Z.shiftr c 1)
  end.

(** Modelled from the spec: the update of the checksum by one byte. *)
Definition crc32c_byte (crc : Z) (b : Z) : Z :=
  crc32c_bits 8 (Z.lxor crc (Z.land b 255)).

(** Modelled from the spec: [crc32c(seed, bytes, len)], [buf] being the
    first [len] bytes. *)
Definition ext4_crc32c (crc : Z) (buf : list Z) : Z :=
  fold_left crc32c_byte buf crc.

(** ** Data model *)

(** The superblock fields the allocator reads or writes.

    Modelled from the spec: ext4_super.h and ext4_types.h are not part of
    the sources.  Each field holds the value its accessor returns:
    [first_data_block] and [blocks_per_group] are the 32-bit fields read with
    [ext4_get32]; [blocks_count] and [free_blocks_count] are the 64-bit
    counts merged from their lo/hi halves; [block_size] is what
    [ext4_sb_get_block_size] returns; the two feature fields are the
    results of the bit-flag tests for [EXT4_FRO_COM_METADATA_CSUM] and
    [EXT4_FINCOM_FLEX_BG]; [desc_size] is what [ext4_sb_get_desc_size]
    returns. *)
Record ext4_sblock := mk_sblock {
  first_data_block : Z;
  blocks_per_group : Z;
  blocks_count : Z;
  block_size : Z;
  free_blocks_count : Z;
  feature_metadata_csum : bool;
  feature_flex_bg : bool;
  uuid : list Z;
  desc_size : Z
}.

(** The group descriptor fields the allocator touches.  The two checksum
    fields are the two bytes of the on-disk 16-bit field, in memory
    order. *)
Record ext4_bgroup := mk_bgroup {
  block_bitmap : Z;
  bg_free_blocks_count : Z;
  block_bitmap_csum_lo : list Z;
  block_bitmap_csum_hi : list Z
}.

(** What the allocator asks of its collaborators, in call order. *)
Inductive event :=
| EvGetRef (bgid : Z) (rc : Z)
| EvPutRef (bgid : Z) (dirty : bool) (rc : Z)
| EvBlockGet (lba : Z) (rc : Z)
| EvBlockSet (lba : Z) (dirty : bool) (rc : Z).

(** The mounted filesystem: superblock, descriptor table (by group id),
    block cache (by block address), the return codes the device will give
    to the next fallible calls (an exhausted script means success), and the
    log of calls made so far, newest first. *)
Record ext4_fs := mk_fs {
  sb : ext4_sblock;
  bgs : Z -> ext4_bgroup;
  bdev : Z -> list Z;
  io : list Z;
  trace : list event
}.

Record ext4_block_group_ref := mk_bg_ref {
  bg_index : Z;
  bg_dirty : bool
}.

Record ext4_block := mk_block {
  lb_id : Z;
  blk_dirty : bool
}.

Record ext4_inode_ref := mk_inode_ref {
  fs : ext4_fs;
  inode_blocks_count : Z;
  inode_dirty : bool
}.

Definition EXT4_INODE_BLOCK_SIZE : Z := 512.
Definition EXT4_MAX_BLOCK_GROUP_DESCRIPTOR_SIZE : Z := 64.

(** ** Collaborator interfaces

    Modelled from the spec: the superblock, descriptor, inode, block-group
    and block-device layers are not part of the sources; their interface is
    the table of external interfaces of the spec. *)

(** Modelled from the spec: the accessors of the superblock. *)
Definition ext4_sb_get_block_size (s : ext4_sblock) : Z := block_size s.
Definition ext4_sb_get_desc_size (s : ext4_sblock) : Z := desc_size s.
Definition ext4_sb_get_free_blocks_cnt (s : ext4_sblock) : Z :=
  free_blocks_count s.
Definition ext4_sb_set_free_blocks_cnt (s : ext4_sblock) (cnt : Z)
  : ext4_sblock :=
  mk_sblock (first_data_block s) (blocks_per_group s) (blocks_count s)
            (block_size s) (wrap64 cnt) (feature_metadata_csum s)
            (feature_flex_bg s) (uuid s) (desc_size s).

(** Modelled from the spec: the accessors of the group descriptor. *)
Definition ext4_bg_get_block_bitmap (bg : ext4_bgroup) (s : ext4_sblock) : Z :=
  block_bitmap bg.
Definition ext4_bg_get_free_blocks_count (bg : ext4_bgroup) (s : ext4_sblock)
  : Z := bg_free_blocks_count bg.
Definition ext4_bg_set_free_blocks_count (bg : ext4_bgroup) (s : ext4_sblock)
  (cnt : Z) : ext4_bgroup :=
  mk_bgroup (block_bitmap bg) (wrap32 cnt) (block_bitmap_csum_lo bg)
            (block_bitmap_csum_hi bg).

(** Modelled from the spec: on-disk fields are little-endian; the two
    bytes of a 16-bit value. *)
Definition to_le16 (v : Z) : list Z :=
  [Z.land v 255; Z.land (Z.shiftr v 8) 255].

(** Modelled from the spec: [block_group_count], derived from the total
    block count and [blocks_per_group]. *)
Definition ext4_block_group_cnt (s : ext4_sblock) : Z :=
  let n := blocks_count s / blocks_per_group s in
  if blocks_count s mod blocks_per_group s =? 0 then n else n + 1.

(** Modelled from the spec: [blocks_in_group_cnt], [blocks_per_group] for
    every group but the last, which receives the remainder. *)
Definition ext4_blocks_in_group_cnt (s : ext4_sblock) (bgid : Z) : Z :=
  let cnt := ext4_block_group_cnt s in
  if bgid <? cnt - 1 then blocks_per_group s
  else blocks_count s - (cnt - 1) * blocks_per_group s.

(** Modelled from the spec: [index_in_group(baddr)], with the address
    arithmetic shared by the group id and the in-group index: the
    decrement is applied only when [first_data_block] is nonzero and the
    address is nonzero. *)
Definition ext4_fs_baddr2_index_in_group (s : ext4_sblock) (baddr : Z) : Z :=
  let baddr :=
    if negb (first_data_block s =? 0) && negb (baddr =? 0)
    then baddr - 1 else baddr in
  baddr mod blocks_per_group s.

(** Modelled from the spec: the inverse helper,
    [first_block_of(bgid) + index], in exact arithmetic. *)
Definition ext4_fs_index_in_group2_baddr (s : ext4_sblock) (index bgid : Z)
  : Z :=
  (if first_data_block s =? 0 then 0 else 1)
  + bgid * blocks_per_group s + index.

(** Modelled from the spec: the next return code of the device; a device
    that is asked nothing more succeeds. *)
Definition io_pop (f : ext4_fs) : Z * ext4_fs :=
  (hd EOK (io f), mk_fs (sb f) (bgs f) (bdev f) (tl (io f)) (trace f)).

(** Record a call to a collaborator, newest first. *)
Definition log (f : ext4_fs) (e : event) : ext4_fs :=
  mk_fs (sb f) (bgs f) (bdev f) (io f) (e :: trace f).

(** Modelled from the spec: [get_block_group_ref(fs, bgid)] acquires the
    handle of group [bgid]; the handle starts clean. *)
Definition ext4_fs_get_block_group_ref (f : ext4_fs) (bgid : Z)
  : Z * ext4_block_group_ref * ext4_fs :=
  let '(rc, f) := io_pop f in
  (rc, mk_bg_ref bgid false, log f (EvGetRef bgid rc)).

(** Modelled from the spec: [put_block_group_ref(ref)] releases a group
    handle; the descriptor is flushed when dirty. *)
Definition ext4_fs_put_block_group_ref (f : ext4_fs)
  (ref : ext4_block_group_ref) : Z * ext4_fs :=
  let '(rc, f) := io_pop f in
  (rc, log f (EvPutRef (bg_index ref) (bg_dirty ref) rc)).

(** Modelled from the spec: [block_get(dev, lba)] pins the buffer of block
    [lba]; the buffer starts clean.  Its data is
    the cache entry itself, [bdev f lba]: the allocator mutates it in
    place. *)
Definition ext4_block_get (f : ext4_fs) (lba : Z)
  : Z * ext4_block * ext4_fs :=
  let '(rc, f) := io_pop f in
  (rc, mk_block lba false, log f (EvBlockGet lba rc)).

(** Modelled from the spec: [block_set(dev, buf)] unpins a buffer; its
    dirty flag asks for write-back. *)
Definition ext4_block_set (f : ext4_fs) (b : ext4_block) : Z * ext4_fs :=
  let '(rc, f) := io_pop f in
  (rc, log f (EvBlockSet (lb_id b) (blk_dirty b) rc)).

(** In-place updates through the pointers the C code holds. *)
Definition set_sb (f : ext4_fs) (s : ext4_sblock) : ext4_fs :=
  mk_fs s (bgs f) (bdev f) (io f) (trace f).

Definition alter_bg (f : ext4_fs) (bgid : Z) (g : ext4_bgroup -> ext4_bgroup)
  : ext4_fs :=
  mk_fs (sb f) (alter g bgid (bgs f)) (bdev f) (io f) (trace f).

Definition alter_data (f : ext4_fs) (lba : Z) (g : list Z -> list Z)
  : ext4_fs :=
  mk_fs (sb f) (bgs f) (alter g lba (bdev f)) (io f) (trace f).

Definition set_fs (r : ext4_inode_ref) (f : ext4_fs) : ext4_inode_ref :=
  mk_inode_ref f (inode_blocks_count r) (inode_dirty r).

Definition set_bg_dirty (ref : ext4_block_group_ref) : ext4_block_group_ref :=
  mk_bg_ref (bg_index ref) true.

Definition set_blk_dirty (b : ext4_block) : ext4_block :=
  mk_block (lb_id b) true.

(** Modelled from the spec: the inode's block count, in 512-byte units. *)
Definition ext4_inode_get_blocks_count (s : ext4_sblock)
  (r : ext4_inode_ref) : Z := inode_blocks_count r.
Definition ext4_inode_set_blocks_count (s : ext4_sblock)
  (r : ext4_inode_ref) (cnt : Z) : ext4_inode_ref :=
  mk_inode_ref (fs r) (wrap64 cnt) (inode_dirty r).
Definition set_inode_dirty (r : ext4_inode_ref) : ext4_inode_ref :=
  mk_inode_ref (fs r) (inode_blocks_count r) true.

(** ** Geometry (ext4_balloc.c) *)

Definition ext4_balloc_get_bgid_of_block (s : ext4_sblock) (baddr : Z) : Z :=
  let baddr :=
    if negb (first_data_block s =? 0) && negb (baddr =? 0)
    then baddr - 1 else baddr in
  wrap32 (baddr / blocks_per_group s).

Definition ext4_balloc_get_block_of_bgid (s : ext4_sblock) (bgid : Z) : Z :=
  let baddr := 0 in
  let baddr := if negb (first_data_block s =? 0) then baddr + 1 else baddr in
  wrap64 (baddr + wrap32 (bgid * blocks_per_group s)).

(** ** Bitmap checksum (ext4_balloc.c) *)

Definition ext4_balloc_bitmap_csum (s : ext4_sblock) (bmap : list Z) : Z :=
  let checksum := 0 in
  if feature_metadata_csum s then
    let blocks_per_group := blocks_per_group s in
    let checksum := ext4_crc32c (wrap32 (Z.lnot 0)) (uuid s) in
    ext4_crc32c checksum (take (Z.to_nat (blocks_per_group / 8)) bmap)
  else checksum.

Definition ext4_balloc_set_bitmap_csum (s : ext4_sblock) (bg : ext4_bgroup)
  (bmap : list Z) : ext4_bgroup :=
  let desc_size := ext4_sb_get_desc_size s in
  let checksum := ext4_balloc_bitmap_csum s bmap in
  let lo_checksum := to_le16 (Z.land checksum 0xFFFF) in
  let hi_checksum := to_le16 (Z.shiftr checksum 16) in
  let bg := mk_bgroup (block_bitmap bg) (bg_free_blocks_count bg)
                      lo_checksum (block_bitmap_csum_hi bg) in
  if desc_size =? EXT4_MAX_BLOCK_GROUP_DESCRIPTOR_SIZE then
    mk_bgroup (block_bitmap bg) (bg_free_blocks_count bg)
              (block_bitmap_csum_lo bg) hi_checksum
  else bg.

(** ** The allocator operations (ext4_balloc.c) *)

(** The three statements that follow every change of a bitmap: stamp the
    checksum of the changed bitmap into the descriptor behind the handle,
    mark the buffer dirty, and hand it back with [ext4_block_set]. *)
Definition stamp_and_store (f : ext4_fs) (bg_ref : ext4_block_group_ref)
  (bitmap_block : ext4_block) : Z * ext4_fs :=
  let f := alter_bg f (bg_index bg_ref)
             (fun bg => ext4_balloc_set_bitmap_csum (sb f) bg
                          (bdev f (lb_id bitmap_block))) in
  let bitmap_block := set_blk_dirty bitmap_block in
  ext4_block_set f bitmap_block.

Definition ext4_balloc_free_block (inode_ref : ext4_inode_ref) (baddr : Z)
  : Z * ext4_inode_ref :=
  let f := fs inode_ref in
  let block_group := ext4_balloc_get_bgid_of_block (sb f) baddr in
  let index_in_group := ext4_fs_baddr2_index_in_group (sb f) baddr in
  (* Load block group reference *)
  let '(rc, bg_ref, f) := ext4_fs_get_block_group_ref f block_group in
  if negb (rc =? EOK) then (rc, set_fs inode_ref f) else
  (* Load block with bitmap *)
  let bitmap_block_addr :=
    ext4_bg_get_block_bitmap (bgs f (bg_index bg_ref)) (sb f) in
  let '(rc, bitmap_block, f) := ext4_block_get f bitmap_block_addr in
  if negb (rc =? EOK) then
    let '(_, f) := ext4_fs_put_block_group_ref f bg_ref in
    (rc, set_fs inode_ref f)
  else
  (* Modify bitmap *)
  let f := alter_data f (lb_id bitmap_block)
             (fun d => ext4_bmap_bit_clr d index_in_group) in
  (* Release block with bitmap *)
  let '(rc, f) := stamp_and_store f bg_ref bitmap_block in
  if negb (rc =? EOK) then
    let '(_, f) := ext4_fs_put_block_group_ref f bg_ref in
    (rc, set_fs inode_ref f)
  else
  let block_size := ext4_sb_get_block_size (sb f) in
  (* Update superblock free blocks count *)
  let sb_free_blocks := ext4_sb_get_free_blocks_cnt (sb f) in
  let sb_free_blocks := wrap64 (sb_free_blocks + 1) in
  let f := set_sb f (ext4_sb_set_free_blocks_cnt (sb f) sb_free_blocks) in
  (* Update inode blocks count *)
  let ino_blocks := ext4_inode_get_blocks_count (sb f) inode_ref in
  let ino_blocks := wrap64 (ino_blocks - block_size / EXT4_INODE_BLOCK_SIZE) in
  let inode_ref := ext4_inode_set_blocks_count (sb f) inode_ref ino_blocks in
  let inode_ref := set_inode_dirty inode_ref in
  (* Update block group free blocks count *)
  let free_blocks :=
    ext4_bg_get_free_blocks_count (bgs f (bg_index bg_ref)) (sb f) in
  let free_blocks := wrap32 (free_blocks + 1) in
  let f := alter_bg f (bg_index bg_ref)
             (fun bg => ext4_bg_set_free_blocks_count bg (sb f) free_blocks) in
  let bg_ref := set_bg_dirty bg_ref in
  (* Release block group reference *)
  let '(rc, f) := ext4_fs_put_block_group_ref f bg_ref in
  (rc, set_fs inode_ref f).

(** How one turn of the loop of [ext4_balloc_free_blocks] ends: a [return]
    from inside the loop, the [break], or the end of the body with the
    updated [first] and [count]. *)
Inductive iter_result :=
| IterReturn (rc : Z) (r : ext4_inode_ref)
| IterBreak (rc : Z) (r : ext4_inode_ref) (first count : Z)
| IterNext (r : ext4_inode_ref) (first count : Z).

Definition free_blocks_iter (inode_ref : ext4_inode_ref)
  (block_group_first first count : Z) : iter_result :=
  let f := fs inode_ref in
  let '(rc, bg_ref, f) := ext4_fs_get_block_group_ref f block_group_first in
  if negb (rc =? EOK) then IterReturn rc (set_fs inode_ref f) else
  let index_in_group_first := ext4_fs_baddr2_index_in_group (sb f) first in
  (* Load block with bitmap *)
  let bitmap_block_addr :=
    ext4_bg_get_block_bitmap (bgs f (bg_index bg_ref)) (sb f) in
  let '(rc, bitmap_block, f) := ext4_block_get f bitmap_block_addr in
  if negb (rc =? EOK) then
    let '(_, f) := ext4_fs_put_block_group_ref f bg_ref in
    IterReturn rc (set_fs inode_ref f)
  else
  let free_cnt :=
    wrap32 (wrap32 (ext4_sb_get_block_size (sb f) * 8) - index_in_group_first) in
  (* If last block, free only count blocks *)
  let free_cnt := if count >? free_cnt then free_cnt else count in
  (* Modify bitmap *)
  let f := alter_data f (lb_id bitmap_block)
             (fun d => ext4_bmap_bits_free d index_in_group_first free_cnt) in
  let count := wrap32 (count - free_cnt) in
  let first := wrap64 (first + free_cnt) in
  (* Release block with bitmap *)
  let '(rc, f) := stamp_and_store f bg_ref bitmap_block in
  if negb (rc =? EOK) then
    let '(_, f) := ext4_fs_put_block_group_ref f bg_ref in
    IterReturn rc (set_fs inode_ref f)
  else
  let block_size := ext4_sb_get_block_size (sb f) in
  (* Update superblock free blocks count *)
  let sb_free_blocks := ext4_sb_get_free_blocks_cnt (sb f) in
  let sb_free_blocks := wrap64 (sb_free_blocks + free_cnt) in
  let f := set_sb f (ext4_sb_set_free_blocks_cnt (sb f) sb_free_blocks) in
  (* Update inode blocks count *)
  let ino_blocks := ext4_inode_get_blocks_count (sb f) inode_ref in
  let ino_blocks :=
    wrap64 (ino_blocks
            - wrap32 (free_cnt * (block_size / EXT4_INODE_BLOCK_SIZE))) in
  let inode_ref := ext4_inode_set_blocks_count (sb f) inode_ref ino_blocks in
  let inode_ref := set_inode_dirty inode_ref in
  (* Update block group free blocks count *)
  let free_blocks :=
    ext4_bg_get_free_blocks_count (bgs f (bg_index bg_ref)) (sb f) in
  let free_blocks := wrap32 (free_blocks + free_cnt) in
  let f := alter_bg f (bg_index bg_ref)
             (fun bg => ext4_bg_set_free_blocks_count bg (sb f) free_blocks) in
  let bg_ref := set_bg_dirty bg_ref in
  (* Release block group reference *)
  let '(rc, f) := ext4_fs_put_block_group_ref f bg_ref in
  if negb (rc =? EOK) then IterBreak rc (set_fs inode_ref f) first count
  else IterNext (set_fs inode_ref f) first count.

(** How a call of [ext4_balloc_free_blocks] ends.  [ext4_assert] stops the
    program when its condition is false (the fail-fast of a debug build);
    the loop over the groups is run with fuel. *)
Inductive outcome :=
| Returned (rc : Z) (r : ext4_inode_ref)
| AssertFailed (r : ext4_inode_ref)
| OutOfFuel.

(** The statements after the loop: all blocks should be released. *)
Definition free_blocks_exit (rc : Z) (inode_ref : ext4_inode_ref) (count : Z)
  : outcome :=
  if count =? 0 then Returned rc inode_ref else AssertFailed inode_ref.

Fixpoint free_blocks_loop (fuel : nat) (rc : Z) (inode_ref : ext4_inode_ref)
  (block_group_first block_group_last first count : Z) : outcome :=
  if block_group_first <=? block_group_last then
    match fuel with
    | O => OutOfFuel
    | S fuel' =>
        match free_blocks_iter inode_ref block_group_first first count with
        | IterReturn rc r => Returned rc r
        | IterBreak rc r first count => free_blocks_exit rc r count
        | IterNext r first count =>
            free_blocks_loop fuel' EOK r (wrap32 (block_group_first + 1))
                             block_group_last first count
        end
    end
  else free_blocks_exit rc inode_ref count.

Definition ext4_balloc_free_blocks (fuel : nat) (inode_ref : ext4_inode_ref)
  (first count : Z) : outcome :=
  let rc := EOK in
  let s := sb (fs inode_ref) in
  (* Compute indexes *)
  let block_group_first := ext4_balloc_get_bgid_of_block s first in
  let block_group_last :=
    ext4_balloc_get_bgid_of_block s (wrap64 (first + count - 1)) in
  if negb (feature_flex_bg s)
     && negb (block_group_first
              =? ext4_balloc_get_bgid_of_block s (wrap64 (first + count - 1)))
  then AssertFailed inode_ref
  else free_blocks_loop fuel rc inode_ref block_group_first block_group_last
                        first count.

(** The statements under the label [success] of
    [ext4_balloc_alloc_block]. *)
Definition alloc_success (inode_ref : ext4_inode_ref) (f : ext4_fs)
  (bg_ref : ext4_block_group_ref) (allocated_block : Z)
  : Z * option Z * ext4_inode_ref :=
  let block_size := ext4_sb_get_block_size (sb f) in
  (* Update superblock free blocks count *)
  let sb_free_blocks := ext4_sb_get_free_blocks_cnt (sb f) in
  let sb_free_blocks := wrap64 (sb_free_blocks - 1) in
  let f := set_sb f (ext4_sb_set_free_blocks_cnt (sb f) sb_free_blocks) in
  (* Update inode blocks (different block size!) count *)
  let ino_blocks := ext4_inode_get_blocks_count (sb f) inode_ref in
  let ino_blocks := wrap64 (ino_blocks + block_size / EXT4_INODE_BLOCK_SIZE) in
  let inode_ref := ext4_inode_set_blocks_count (sb f) inode_ref ino_blocks in
  let inode_ref := set_inode_dirty inode_ref in
  (* Update block group free blocks count *)
  let bg_free_blocks :=
    ext4_bg_get_free_blocks_count (bgs f (bg_index bg_ref)) (sb f) in
  let bg_free_blocks := wrap64 (bg_free_blocks - 1) in
  let f := alter_bg f (bg_index bg_ref)
             (fun bg => ext4_bg_set_free_blocks_count bg (sb f) bg_free_blocks) in
  let bg_ref := set_bg_dirty bg_ref in
  let '(rc, f) := ext4_fs_put_block_group_ref f bg_ref in
  (rc, Some allocated_block, set_fs inode_ref f).

(** Set bit [idx] of the pinned bitmap, then stamp and store it. *)
Definition claim_bit (f : ext4_fs) (bg_ref : ext4_block_group_ref)
  (bitmap_block : ext4_block) (idx : Z) : Z * ext4_fs :=
  let f := alter_data f (lb_id bitmap_block)
             (fun d => ext4_bmap_bit_set d idx) in
  stamp_and_store f bg_ref bitmap_block.

(** One turn of the loop "try other block groups" of
    [ext4_balloc_alloc_block]; [continue] is the rest of the loop, entered
    after the statements under the label [next_group]. *)
Definition alloc_try_group
  (continue : ext4_fs -> Z * option Z * ext4_inode_ref)
  (inode_ref : ext4_inode_ref) (f : ext4_fs) (bgid : Z)
  : Z * option Z * ext4_inode_ref :=
  let next_group (f : ext4_fs) (bg_ref : ext4_block_group_ref) :=
    let '(rc, f) := ext4_fs_put_block_group_ref f bg_ref in
    if negb (rc =? EOK) then (rc, None, set_fs inode_ref f)
    else continue f in
  let '(rc, bg_ref, f) := ext4_fs_get_block_group_ref f bgid in
  if negb (rc =? EOK) then (rc, None, set_fs inode_ref f) else
  let free_blocks :=
    ext4_bg_get_free_blocks_count (bgs f (bg_index bg_ref)) (sb f) in
  if free_blocks =? 0 then
    (* This group has no free blocks *)
    next_group f bg_ref
  else
  (* Load block with bitmap *)
  let bitmap_block_addr :=
    ext4_bg_get_block_bitmap (bgs f (bg_index bg_ref)) (sb f) in
  let '(rc, bitmap_block, f) := ext4_block_get f bitmap_block_addr in
  if negb (rc =? EOK) then
    let '(_, f) := ext4_fs_put_block_group_ref f bg_ref in
    (rc, None, set_fs inode_ref f)
  else
  (* Compute indexes *)
  let first_in_group := ext4_balloc_get_block_of_bgid (sb f) bgid in
  let index_in_group :=
    ext4_fs_baddr2_index_in_group (sb f) first_in_group in
  let blocks_in_group := ext4_blocks_in_group_cnt (sb f) bgid in
  let first_in_group_index :=
    ext4_fs_baddr2_index_in_group (sb f) first_in_group in
  let index_in_group :=
    if index_in_group <? first_in_group_index then first_in_group_index
    else index_in_group in
  match ext4_bmap_bit_find_clr (bdev f (lb_id bitmap_block))
          index_in_group blocks_in_group with
  | Some rel_block_idx =>
      let '(rc, f) := claim_bit f bg_ref bitmap_block rel_block_idx in
      if negb (rc =? EOK) then
        let '(_, f) := ext4_fs_put_block_group_ref f bg_ref in
        (rc, None, set_fs inode_ref f)
      else
        alloc_success inode_ref f bg_ref
          (ext4_fs_index_in_group2_baddr (sb f) rel_block_idx bgid)
  | None =>
      let '(rc, f) := ext4_block_set f bitmap_block in
      if negb (rc =? EOK) then
        let '(_, f) := ext4_fs_put_block_group_ref f bg_ref in
        (rc, None, set_fs inode_ref f)
      else next_group f bg_ref
  end.

(** The loop "try other block groups"; its counter [count] only counts
    down, and the next group is [(bgid + 1) % block_group_count]. *)
Fixpoint alloc_other_groups (count : nat) (inode_ref : ext4_inode_ref)
  (f : ext4_fs) (block_group_count bgid : Z)
  : Z * option Z * ext4_inode_ref :=
  match count with
  | O => (ENOSPC, None, set_fs inode_ref f)
  | S count' =>
      alloc_try_group
        (fun f =>
           (* Goto next group *)
           alloc_other_groups count' inode_ref f block_group_count
             (wrap32 (bgid + 1) mod block_group_count))
        inode_ref f bgid
  end.

(** The statements from the label [goal_failed] to the loop. *)
Definition alloc_goal_failed (inode_ref : ext4_inode_ref) (f : ext4_fs)
  (bg_ref : ext4_block_group_ref) (block_group : Z)
  : Z * option Z * ext4_inode_ref :=
  let '(rc, f) := ext4_fs_put_block_group_ref f bg_ref in
  if negb (rc =? EOK) then (rc, None, set_fs inode_ref f) else
  (* Try other block groups *)
  let block_group_count := ext4_block_group_cnt (sb f) in
  let bgid := wrap32 (block_group + 1) mod block_group_count in
  let count := block_group_count in
  alloc_other_groups (Z.to_nat count) inode_ref f block_group_count bgid.

(** The loop "try to find free block near to goal": the first clear bit
    among [tmp_idx = index_in_group + 1 .. end_idx - 1]. *)
Definition near_goal_scan (bmap : list Z) (index_in_group end_idx : Z)
  : option Z :=
  let tmp_idx := wrap32 (index_in_group + 1) in
  find_clr_from (Z.to_nat (end_idx - tmp_idx)) bmap tmp_idx.

(** [ext4_balloc_alloc_block]: the result code, the block written to
    [*fblock] (if it is written), and the state. *)
Definition ext4_balloc_alloc_block (inode_ref : ext4_inode_ref) (goal : Z)
  : Z * option Z * ext4_inode_ref :=
  let f := fs inode_ref in
  (* Load block group number for goal and relative index *)
  let block_group := ext4_balloc_get_bgid_of_block (sb f) goal in
  let index_in_group := ext4_fs_baddr2_index_in_group (sb f) goal in
  (* Load block group reference *)
  let '(rc, bg_ref, f) := ext4_fs_get_block_group_ref f block_group in
  if negb (rc =? EOK) then (rc, None, set_fs inode_ref f) else
  let free_blocks :=
    ext4_bg_get_free_blocks_count (bgs f (bg_index bg_ref)) (sb f) in
  if free_blocks =? 0 then
    (* This group has no free blocks *)
    alloc_goal_failed inode_ref f bg_ref block_group
  else
  (* Compute indexes *)
  let first_in_group :=
    ext4_balloc_get_block_of_bgid (sb f) (bg_index bg_ref) in
  let first_in_group_index :=
    ext4_fs_baddr2_index_in_group (sb f) first_in_group in
  let index_in_group :=
    if index_in_group <? first_in_group_index then first_in_group_index
    else index_in_group in
  (* Load block with bitmap *)
  let bitmap_block_addr :=
    ext4_bg_get_block_bitmap (bgs f (bg_index bg_ref)) (sb f) in
  let '(rc, bitmap_block, f) := ext4_block_get f bitmap_block_addr in
  if negb (rc =? EOK) then
    let '(_, f) := ext4_fs_put_block_group_ref f bg_ref in
    (rc, None, set_fs inode_ref f)
  else
  (* Check if goal is free *)
  if ext4_bmap_is_bit_clr (bdev f (lb_id bitmap_block)) index_in_group then
    let '(rc, f) := claim_bit f bg_ref bitmap_block index_in_group in
    if negb (rc =? EOK) then
      let '(_, f) := ext4_fs_put_block_group_ref f bg_ref in
      (rc, None, set_fs inode_ref f)
    else
      alloc_success inode_ref f bg_ref
        (ext4_fs_index_in_group2_baddr (sb f) index_in_group block_group)
  else
  let blocks_in_group := ext4_blocks_in_group_cnt (sb f) block_group in
  let end_idx := Z.land (wrap32 (index_in_group + 63)) (wrap32 (Z.lnot 63)) in
  let end_idx :=
    if end_idx >? blocks_in_group then blocks_in_group else end_idx in
  (* Try to find free block near to goal *)
  match near_goal_scan (bdev f (lb_id bitmap_block)) index_in_group end_idx with
  | Some tmp_idx =>
      let '(rc, f) := claim_bit f bg_ref bitmap_block tmp_idx in
      if negb (rc =? EOK) then (rc, None, set_fs inode_ref f)
      else
        alloc_success inode_ref f bg_ref
          (ext4_fs_index_in_group2_baddr (sb f) tmp_idx block_group)
  | None =>
      (* Find free bit in bitmap *)
      match ext4_bmap_bit_find_clr (bdev f (lb_id bitmap_block))
              index_in_group blocks_in_group with
      | Some rel_block_idx =>
          let '(rc, f) := claim_bit f bg_ref bitmap_block rel_block_idx in
          if negb (rc =? EOK) then (rc, None, set_fs inode_ref f)
          else
            alloc_success inode_ref f bg_ref
              (ext4_fs_index_in_group2_baddr (sb f) rel_block_idx block_group)
      | None =>
          (* No free block found yet *)
          let '(rc, f) := ext4_block_set f bitmap_block in
          if negb (rc =? EOK) then
            let '(_, f) := ext4_fs_put_block_group_ref f bg_ref in
            (rc, None, set_fs inode_ref f)
          else alloc_goal_failed inode_ref f bg_ref block_group
      end
  end.

(** [ext4_balloc_try_alloc_block]: the result code, the value written to
    [*free] (if it is written), and the state. *)
Definition ext4_balloc_try_alloc_block (inode_ref : ext4_inode_ref)
  (baddr : Z) : Z * option bool * ext4_inode_ref :=
  let f := fs inode_ref in
  (* Compute indexes *)
  let block_group := ext4_balloc_get_bgid_of_block (sb f) baddr in
  let index_in_group := ext4_fs_baddr2_index_in_group (sb f) baddr in
  (* Load block group reference *)
  let '(rc, bg_ref, f) := ext4_fs_get_block_group_ref f block_group in
  if negb (rc =? EOK) then (rc, None, set_fs inode_ref f) else
  (* Load block with bitmap *)
  let bitmap_block_addr :=
    ext4_bg_get_block_bitmap (bgs f (bg_index bg_ref)) (sb f) in
  let '(rc, bitmap_block, f) := ext4_block_get f bitmap_block_addr in
  if negb (rc =? EOK) then
    let '(_, f) := ext4_fs_put_block_group_ref f bg_ref in
    (rc, None, set_fs inode_ref f)
  else
  (* Check if block is free *)
  let free := ext4_bmap_is_bit_clr (bdev f (lb_id bitmap_block)) index_in_group in
  (* Allocate block if possible; release block with bitmap *)
  let '(rc, f) :=
    if free then claim_bit f bg_ref bitmap_block index_in_group
    else ext4_block_set f bitmap_block in
  if negb (rc =? EOK) then
    (* Error in saving bitmap *)
    let '(_, f) := ext4_fs_put_block_group_ref f bg_ref in
    (rc, Some free, set_fs inode_ref f)
  else
  (* If block is not free, return *)
  if negb free then
    let '(rc, f) := ext4_fs_put_block_group_ref f bg_ref in
    (rc, Some free, set_fs inode_ref f)
  else
  let block_size := ext4_sb_get_block_size (sb f) in
  (* Update superblock free blocks count *)
  let sb_free_blocks := ext4_sb_get_free_blocks_cnt (sb f) in
  let sb_free_blocks := wrap64 (sb_free_blocks - 1) in
  let f := set_sb f (ext4_sb_set_free_blocks_cnt (sb f) sb_free_blocks) in
  (* Update inode blocks count *)
  let ino_blocks := ext4_inode_get_blocks_count (sb f) inode_ref in
  let ino_blocks := wrap64 (ino_blocks + block_size / EXT4_INODE_BLOCK_SIZE) in
  let inode_ref := ext4_inode_set_blocks_count (sb f) inode_ref ino_blocks in
  let inode_ref := set_inode_dirty inode_ref in
  (* Update block group free blocks count *)
  let free_blocks :=
    ext4_bg_get_free_blocks_count (bgs f (bg_index bg_ref)) (sb f) in
  let free_blocks := wrap32 (free_blocks - 1) in
  let f := alter_bg f (bg_index bg_ref)
             (fun bg => ext4_bg_set_free_blocks_count bg (sb f) free_blocks) in
  let bg_ref := set_bg_dirty bg_ref in
  let '(rc, f) := ext4_fs_put_block_group_ref f bg_ref in
  (rc, Some free, set_fs inode_ref f).


(** * Specification vocabulary *)

(** Bit [i] of the array, read as byte [i / 8], bit [i mod 8]. *)
Definition bit_at (bmap : list Z) (i : Z) : bool :=
  Z.testbit (default 0 (bmap !! Z.to_nat (i / 8))) (i mod 8).

(** [j] is the first clear bit of [[lo, hi)]. *)
Definition first_clr (bmap : list Z) (lo hi j : Z) : Prop :=
  lo <= j < hi /\ ext4_bmap_is_bit_clr bmap j = true /\
  forall k, lo <= k < j -> ext4_bmap_is_bit_clr bmap k = false.

(** No bit of [[lo, hi)] is clear. *)
Definition none_clr (bmap : list Z) (lo hi : Z) : Prop :=
  forall k, lo <= k < hi -> ext4_bmap_is_bit_clr bmap k = false.

(** Every upcoming call to a collaborator succeeds. *)
Definition io_ok (f : ext4_fs) : Prop := Forall (fun rc => rc = EOK) (io f).

(** Group handles held according to a log: successful acquisitions not
    yet followed by their release. *)
Fixpoint refs_held (tr : list event) : Z :=
  match tr with
  | [] => 0
  | EvGetRef _ rc :: rest => refs_held rest + (if rc =? EOK then 1 else 0)
  | EvPutRef _ _ _ :: rest => refs_held rest - 1
  | _ :: rest => refs_held rest
  end.

(** The checksum fields of group [g] are those of its bitmap as it is in
    the cache. *)
Definition csum_of (s : ext4_sblock) (bmap : list Z) : Z :=
  if feature_metadata_csum s
  then ext4_crc32c (ext4_crc32c 0xFFFFFFFF (uuid s))
                   (take (Z.to_nat (blocks_per_group s / 8)) bmap)
  else 0.

(** ** Example filesystems *)

(** Four groups of 64 blocks, 8-byte bitmap blocks at addresses 100..103;
    in group 0 blocks 0..8 are in use, the other groups are full. *)
Definition sb_small : ext4_sblock :=
  mk_sblock 0 64 256 8 55 false true [] 32.
Definition bgs_small (g : Z) : ext4_bgroup :=
  mk_bgroup (100 + g) (if g =? 0 then 55 else 0) [0; 0] [0; 0].
Definition bdev_small (a : Z) : list Z :=
  if a =? 100 then [255; 1; 0; 0; 0; 0; 0; 0] else replicate 8 255.
Definition fs_small (script : list Z) : ext4_fs :=
  mk_fs sb_small bgs_small bdev_small script [].
Definition inode_small (script : list Z) : ext4_inode_ref :=
  mk_inode_ref (fs_small script) 16 false.

(** Four groups of 32 blocks, with 8-byte bitmap blocks that have room
    for 64 bits; every block is in use and the 32 padding bits of every
    bitmap are set. *)
Definition sb_narrow : ext4_sblock :=
  mk_sblock 0 32 128 8 0 false true [] 32.
Definition bgs_narrow (g : Z) : ext4_bgroup :=
  mk_bgroup (100 + g) 0 [0; 0] [0; 0].
Definition bdev_narrow (a : Z) : list Z := replicate 8 255.
Definition inode_narrow (script : list Z) : ext4_inode_ref :=
  mk_inode_ref (mk_fs sb_narrow bgs_narrow bdev_narrow script []) 128 false.

(** Two groups of 8192 blocks of 1 KiB, every block free. *)
Definition sb_1k : ext4_sblock :=
  mk_sblock 0 8192 16384 1024 16384 false false [] 32.
Definition bgs_1k (g : Z) : ext4_bgroup :=
  mk_bgroup (200 + g) 8192 [0; 0] [0; 0].
Definition bdev_1k (a : Z) : list Z := replicate 1024 0.
Definition inode_1k : ext4_inode_ref :=
  mk_inode_ref (mk_fs sb_1k bgs_1k bdev_1k [] []) 0 false.

(** A filesystem of more than 16 TiB: 4 KiB blocks, 32768 blocks per
    group, 131073 groups. *)
Definition sb_16T : ext4_sblock :=
  mk_sblock 0 32768 (2 ^ 32 + 32768) 4096 0 false true [] 64.

(** The three counters of the allocator are the same in two states. *)
Definition counters_unchanged (st st' : ext4_inode_ref) : Prop :=
  free_blocks_count (sb (fs st')) = free_blocks_count (sb (fs st)) /\
  (forall g, bg_free_blocks_count (bgs (fs st') g) =
             bg_free_blocks_count (bgs (fs st) g)) /\
  inode_blocks_count st' = inode_blocks_count st.

(** Among the calls [evs], a bitmap store failed with code [e]. *)
Definition store_failed (evs : list event) (e : Z) : Prop :=
  e <> EOK /\ exists lba d, In (EvBlockSet lba d e) evs.

(** Among the calls [evs], a modified bitmap was stored successfully. *)
Definition store_done (evs : list event) : Prop :=
  exists lba, In (EvBlockSet lba true EOK) evs.

(** The three counters change only after a successful bitmap store, and
    a failed bitmap store ends the call [evs] with its error code and the
    counters as they were. *)
Definition store_atomic (st : ext4_inode_ref) (rc : Z) (st' : ext4_inode_ref)
  : Prop :=
  exists evs,
    trace (fs st') = evs ++ trace (fs st) /\
    (forall e, store_failed evs e -> rc = e /\ counters_unchanged st st') /\
    (~ store_done evs -> counters_unchanged st st').

(** The return code and the state at the end of a turn of the loop of
    [ext4_balloc_free_blocks]. *)
Definition iter_rc (r : iter_result) : Z :=
  match r with
  | IterReturn rc _ | IterBreak rc _ _ _ => rc
  | IterNext _ _ _ => EOK
  end.

Definition iter_state (r : iter_result) : ext4_inode_ref :=
  match r with
  | IterReturn _ st | IterBreak _ st _ _ | IterNext st _ _ => st
  end.

(** The turn left the loop through a [return]. *)
Definition iter_returned (r : iter_result) : Prop :=
  match r with IterReturn _ _ => True | _ => False end.

(** The groups whose handle was acquired during the calls of a log, in
    the order of the calls. *)
Fixpoint acquired (evs : list event) : list Z :=
  match evs with
  | [] => []
  | EvGetRef g _ :: rest => acquired rest ++ [g]
  | _ :: rest => acquired rest
  end.

(** No buffer was handed back dirty during the calls of a log. *)
Definition no_dirty_store (evs : list event) : Prop :=
  forall lba rc, ~ In (EvBlockSet lba true rc) evs.

(** Group [bg] has nothing to give to a search that starts at bit [lo]:
    its free count is zero or no bit of [[lo, blocks_in_group)] is clear. *)
Definition group_exhausted (f : ext4_fs) (bg lo : Z) : Prop :=
  bg_free_blocks_count (bgs f bg) = 0 \/
  none_clr (bdev f (block_bitmap (bgs f bg))) lo
           (ext4_blocks_in_group_cnt (sb f) bg).

(** The index of the first block of group [bg], where the search of a
    group other than the goal group starts. *)
Definition first_index (s : ext4_sblock) (bg : Z) : Z :=
  ext4_fs_baddr2_index_in_group s (ext4_balloc_get_block_of_bgid s bg).

(** ** What a successful operation does to the state *)

(** Two superblocks differ at most in the free block count. *)
Definition same_geometry (s s' : ext4_sblock) : Prop :=
  first_data_block s' = first_data_block s /\
  blocks_per_group s' = blocks_per_group s /\
  blocks_count s' = blocks_count s /\
  block_size s' = block_size s /\
  feature_metadata_csum s' = feature_metadata_csum s /\
  feature_flex_bg s' = feature_flex_bg s /\
  uuid s' = uuid s /\
  desc_size s' = desc_size s.

(** The descriptor table [b'] is [b] but for group [g], whose free count
    is [free'] and whose checksum fields are those of the bitmap [bmap']. *)
Definition bg_updated (b b' : Z -> ext4_bgroup) (g : Z) (s : ext4_sblock)
  (bmap' : list Z) (free' : Z) : Prop :=
  (forall g', g' <> g -> b' g' = b g') /\
  block_bitmap (b' g) = block_bitmap (b g) /\
  bg_free_blocks_count (b' g) = free' /\
  block_bitmap_csum_lo (b' g) = to_le16 (Z.land (csum_of s bmap') 0xFFFF) /\
  block_bitmap_csum_hi (b' g) =
    (if desc_size s =? 64 then to_le16 (Z.shiftr (csum_of s bmap') 16)
     else block_bitmap_csum_hi (b g)).

(** The state [st'] is the filesystem [f] and an inode of [ino] sectors
    after the bitmap of group [g] went through [upd], the superblock and
    the group free counts moved by [dfree] and the inode block count by
    [dino]. *)
Definition op_effect (f : ext4_fs) (ino : Z) (st' : ext4_inode_ref) (g : Z)
  (upd : list Z -> list Z) (dfree dino : Z) : Prop :=
  let s := sb f in
  let a := block_bitmap (bgs f g) in
  same_geometry s (sb (fs st')) /\
  free_blocks_count (sb (fs st')) = wrap64 (free_blocks_count s + dfree) /\
  bdev (fs st') = alter upd a (bdev f) /\
  bg_updated (bgs f) (bgs (fs st')) g s (upd (bdev f a))
             (wrap32 (bg_free_blocks_count (bgs f g) + dfree)) /\
  inode_blocks_count st' = wrap64 (ino + dino).

(** The state [st'] is [f] and [ino] but for the script and the log. *)
Definition op_no_effect (f : ext4_fs) (ino : Z) (st' : ext4_inode_ref)
  : Prop :=
  sb (fs st') = sb f /\ bgs (fs st') = bgs f /\ bdev (fs st') = bdev f /\
  inode_blocks_count st' = ino.

(** The number of bits one turn of the loop of [ext4_balloc_free_blocks]
    clears: the smaller of the remaining count and the bits from the index
    of [first] to the end of the bitmap block. *)
Definition iter_free_cnt (s : ext4_sblock) (first count : Z) : Z :=
  let free_cnt :=
    wrap32 (wrap32 (block_size s * 8) - ext4_fs_baddr2_index_in_group s first) in
  if count >? free_cnt then free_cnt else count.

(** Where a successful [ext4_balloc_alloc_block] with goal [goal] may have
    found the bit [j] of group [g] that it claimed: the clamped goal bit
    itself, a bit of the goal group below its block count, or a bit of a
    group of the wrap below that group's block count. *)
Definition alloc_claimed (f : ext4_fs) (goal g j : Z) : Prop :=
  let s := sb f in
  let gg := ext4_balloc_get_bgid_of_block s goal in
  let i := Z.max (ext4_fs_baddr2_index_in_group s goal) (first_index s gg) in
  bg_free_blocks_count (bgs f g) <> 0 /\
  ext4_bmap_is_bit_clr (bdev f (block_bitmap (bgs f g))) j = true /\
  0 <= j /\
  ((g = gg /\ j = i) \/
   (g = gg /\ j < ext4_blocks_in_group_cnt s gg) \/
   (0 <= g < ext4_block_group_cnt s /\ j < ext4_blocks_in_group_cnt s g)).

(** The result [res] of an allocation on [f] with goal [goal], if it is a
    success, claimed some bit as [alloc_claimed] says and has the effect of
    setting it. *)
Definition alloc_post (f : ext4_fs) (ino goal : Z)
  (res : Z * option Z * ext4_inode_ref) : Prop :=
  let '(rc, fblock, st') := res in
  rc = EOK ->
  exists g j,
    alloc_claimed f goal g j /\
    fblock = Some (ext4_fs_index_in_group2_baddr (sb f) j g) /\
    op_effect f ino st' g (fun d => ext4_bmap_bit_set d j) (-1)
              (block_size (sb f) / 512).

(** ** Geometry vocabulary *)

(** The number of blocks that precede the first data block: 0 or 1. *)
Definition reserved (s : ext4_sblock) : Z :=
  if first_data_block s =? 0 then 0 else 1.

(** The state [st'] is [st] after the [count] blocks that start at [first]
    were freed: the superblock free count is up by [count], the inode block
    count down by [count] blocks of sectors, no bit that was clear is set,
    and the bit of every block of the range is clear. *)
Definition range_freed (st st' : ext4_inode_ref) (first count : Z) : Prop :=
  let f := fs st in
  let s := sb f in
  same_geometry s (sb (fs st')) /\
  (forall h, block_bitmap (bgs (fs st') h) = block_bitmap (bgs f h)) /\
  free_blocks_count (sb (fs st')) = wrap64 (free_blocks_count s + count) /\
  inode_blocks_count st' =
    wrap64 (inode_blocks_count st - count * (block_size s / 512)) /\
  (forall a j, 0 <= j -> ext4_bmap_is_bit_clr (bdev f a) j = true ->
               ext4_bmap_is_bit_clr (bdev (fs st') a) j = true) /\
  (forall t, 0 <= t < count ->
     ext4_bmap_is_bit_clr
       (bdev (fs st')
          (block_bitmap (bgs f (ext4_balloc_get_bgid_of_block s (first + t)))))
       (ext4_fs_baddr2_index_in_group s (first + t)) = true).

(** The geometry the allocator relies on: a group is not larger than its
    bitmap block has bits, a block is at most 64 KiB, and there is at least
    one group. *)
Definition geometry_ok (s : ext4_sblock) : Prop :=
  0 < blocks_per_group s <= 8 * block_size s /\
  0 < block_size s <= 65536 /\
  0 < ext4_block_group_cnt s.

(** ** Sequences of calls *)

Inductive call :=
| CallAlloc (goal : Z)
| CallFreeOne (baddr : Z)
| CallFreeRange (first count : Z)
| CallTryOne (baddr : Z).

(** The arguments of a call fit their C types. *)
Definition call_typed (c : call) : Prop :=
  match c with
  | CallAlloc a | CallFreeOne a | CallTryOne a => 0 <= a < 2 ^ 64
  | CallFreeRange first count => 0 <= first < 2 ^ 64 /\ 0 <= count < 2 ^ 32
  end.

Definition set_script (st : ext4_inode_ref) (script : list Z)
  : ext4_inode_ref :=
  mk_inode_ref
    (mk_fs (sb (fs st)) (bgs (fs st)) (bdev (fs st)) script (trace (fs st)))
    (inode_blocks_count st) (inode_dirty st).

(** Run one call; on success, the number of blocks the inode gained (lost,
    if negative) and the new state. *)
Definition run_call (c : call) (fuel : nat) (st : ext4_inode_ref)
  : option (Z * ext4_inode_ref) :=
  match c with
  | CallAlloc goal =>
      let '(rc, _, st') := ext4_balloc_alloc_block st goal in
      if rc =? EOK then Some (1, st') else None
  | CallFreeOne baddr =>
      let '(rc, st') := ext4_balloc_free_block st baddr in
      if rc =? EOK then Some (-1, st') else None
  | CallFreeRange first count =>
      match ext4_balloc_free_blocks fuel st first count with
      | Returned rc st' => if rc =? EOK then Some (- count, st') else None
      | _ => None
      end
  | CallTryOne baddr =>
      let '(rc, was_free, st') := ext4_balloc_try_alloc_block st baddr in
      if rc =? EOK
      then Some (match was_free with Some true => 1 | _ => 0 end, st')
      else None
  end.

(** Run a sequence of calls on one inode, each against its own device
    script and with its own fuel; the result is defined when every call
    succeeds, and then holds the net number of blocks the inode gained. *)
Fixpoint run_calls (cs : list (call * list Z * nat)) (st : ext4_inode_ref)
  : option (Z * ext4_inode_ref) :=
  match cs with
  | [] => Some (0, st)
  | (c, script, fuel) :: rest =>
      match run_call c fuel (set_script st script) with
      | Some (n, st') =>
          match run_calls rest st' with
          | Some (m, st'') => Some (n + m, st'')
          | None => None
          end
      | None => None
      end
  end.

(** ** Counter coherence *)

(** The number of clear bits among the first [n] bits of a bitmap. *)
Fixpoint count_clr_nat (bmap : list Z) (n : nat) : Z :=
  match n with
  | O => 0
  | S n' =>
      count_clr_nat bmap n'
      + (if ext4_bmap_is_bit_clr bmap (Z.of_nat n') then 1 else 0)
  end.

Definition count_clr (bmap : list Z) (n : Z) : Z :=
  count_clr_nat bmap (Z.to_nat n).

(** The sum of the free counts of the first [n] group descriptors. *)
Fixpoint sum_free (b : Z -> ext4_bgroup) (n : nat) : Z :=
  match n with
  | O => 0
  | S n' => sum_free b n' + bg_free_blocks_count (b (Z.of_nat n'))
  end.

(** The bitmap of group [g] as it is in the cache. *)
Definition bitmap_of (f : ext4_fs) (g : Z) : list Z :=
  bdev f (block_bitmap (bgs f g)).

(** Counter coherence: the superblock free count is the sum of the group
    free counts, and each group free count is the number of clear bits in
    the valid prefix of the group's bitmap. *)
Definition coherent (f : ext4_fs) : Prop :=
  let s := sb f in
  free_blocks_count s =
    sum_free (bgs f) (Z.to_nat (ext4_block_group_cnt s)) /\
  forall g, 0 <= g < ext4_block_group_cnt s ->
    bg_free_blocks_count (bgs f g) =
    count_clr (bitmap_of f g) (ext4_blocks_in_group_cnt s g).

(** A consistent filesystem: coherent counters, a geometry the allocator
    can address, bitmap blocks of the block size, one bitmap block per
    group, and the bits past the valid prefix of every bitmap set. *)
Definition consistent (f : ext4_fs) : Prop :=
  let s := sb f in
  let G := ext4_block_group_cnt s in
  coherent f /\
  geometry_ok s /\ 0 < blocks_count s /\ G < 2 ^ 32 - 1 /\
  (forall g, 0 <= g < G ->
     Z.of_nat (length (bitmap_of f g)) = block_size s) /\
  (forall g g', 0 <= g < G -> 0 <= g' < G ->
     block_bitmap (bgs f g) = block_bitmap (bgs f g') -> g = g') /\
  (forall g j, 0 <= g < G ->
     ext4_blocks_in_group_cnt s g <= j < 8 * block_size s ->
     ext4_bmap_is_bit_clr (bitmap_of f g) j = false).

(** Block [a] lies in the valid prefix of a group of the filesystem and
    its bit is set. *)
Definition block_in_use (f : ext4_fs) (a : Z) : Prop :=
  let s := sb f in
  let g := ext4_balloc_get_bgid_of_block s a in
  let i := ext4_fs_baddr2_index_in_group s a in
  g < ext4_block_group_cnt s /\
  i < ext4_blocks_in_group_cnt s g /\
  ext4_bmap_is_bit_clr (bitmap_of f g) i = false.

(** What the caller owes the allocator: an address within the filesystem
    for [alloc] and [try_one]; for the two free operations, blocks that are
    in use, and a range that lies in one group unless a group has as many
    blocks as its bitmap block has bits. *)
Definition call_ok (f : ext4_fs) (c : call) : Prop :=
  let s := sb f in
  let G := ext4_block_group_cnt s in
  match c with
  | CallAlloc a | CallTryOne a => ext4_balloc_get_bgid_of_block s a < G
  | CallFreeOne a => block_in_use f a
  | CallFreeRange first count =>
      reserved s <= first /\ 1 <= count /\ first + count <= 2 ^ 64 /\
      (first - reserved s + count - 1) / blocks_per_group s < G /\
      (forall t, 0 <= t < count -> block_in_use f (first + t)) /\
      (ext4_balloc_get_bgid_of_block s first =
       ext4_balloc_get_bgid_of_block s (first + count - 1) \/
       blocks_per_group s = 8 * block_size s)
  end.

(** The filesystems reached from [f0] by successful calls, each on some
    inode and against some device script, that keep to [call_ok]. *)
Inductive reachable (f0 : ext4_fs) : ext4_fs -> Prop :=
| reach_init : reachable f0 f0
| reach_call f c script fuel ino dirty n st' :
    reachable f0 f -> call_typed c -> call_ok f c ->
    run_call c fuel
      (mk_inode_ref (mk_fs (sb f) (bgs f) (bdev f) script (trace f)) ino dirty)
      = Some (n, st') ->
    reachable f0 (fs st').

(** ** Checksum vocabulary *)

(** The checksum fields of the descriptor of group [g] are those of the
    group's bitmap as it is in the cache. *)
Definition csum_stamped (f : ext4_fs) (g : Z) : Prop :=
  let c := csum_of (sb f) (bdev f (block_bitmap (bgs f g))) in
  block_bitmap_csum_lo (bgs f g) = to_le16 (Z.land c 0xFFFF) /\
  (desc_size (sb f) = 64 ->
   block_bitmap_csum_hi (bgs f g) = to_le16 (Z.shiftr c 16)).

(** From [f] to [f'] either no bitmap changed, or the bitmap of one group
    went through an update and the checksum of the result was stamped into
    the descriptor of that group. *)
Definition mutation_stamped (f f' : ext4_fs) : Prop :=
  bdev f' = bdev f \/
  exists g upd,
    bdev f' = alter upd (block_bitmap (bgs f g)) (bdev f) /\
    csum_stamped f' g.

(** [mutation_stamped] for the state in the result of an allocation. *)
Definition alloc_stamped (f : ext4_fs) (res : Z * option Z * ext4_inode_ref)
  : Prop :=
  mutation_stamped f (fs (snd res)).

(** ** Return codes in a log *)

(** The code a collaborator call returned. *)
Definition ev_rc (e : event) : Z :=
  match e with
  | EvGetRef _ rc | EvPutRef _ _ rc | EvBlockGet _ rc | EvBlockSet _ _ rc => rc
  end.

(** The code of the earliest call of a log (newest first) that did not
    return [EOK]. *)
Fixpoint first_failure (evs : list event) : option Z :=
  match evs with
  | [] => None
  | e :: rest =>
      match first_failure rest with
      | Some c => Some c
      | None => if ev_rc e =? EOK then None else Some (ev_rc e)
      end
  end.

(** [rc] is the code of the first call of [evs] that failed, or [EOK] if
    none did. *)
Definition propagated (evs : list event) (rc : Z) : Prop :=
  match first_failure evs with
  | Some e => rc = e
  | None => rc = EOK
  end.

(** The same for an allocation, which may also find no space. *)
Definition alloc_propagated (evs : list event) (rc : Z) : Prop :=
  match first_failure evs with
  | Some e => rc = e
  | None => rc = EOK \/ rc = ENOSPC
  end.

(** The calls [evs] of an operation that returned [rc]: the code is
    propagated and every handle acquired was released. *)
Definition log_ok (evs : list event) (rc : Z) : Prop :=
  propagated evs rc /\ refs_held evs = 0.

(** The calls [evs] of an allocation that returned [rc]: the code is
    propagated, and every handle acquired was released unless a bitmap store
    failed, in which case one handle is still held. *)
Definition alloc_log_ok (evs : list event) (rc : Z) : Prop :=
  alloc_propagated evs rc /\
  (refs_held evs = 0 \/ (refs_held evs = 1 /\ store_failed evs rc)).

(** The calls that the result of an allocation added to the log [tr0]
    satisfy [alloc_log_ok]. *)
Definition alloc_logged (tr0 : list event)
  (res : Z * option Z * ext4_inode_ref) : Prop :=
  let '(rc, _, st') := res in
  exists evs, trace (fs st') = evs ++ tr0 /\ alloc_log_ok evs rc.

(** What a turn of the loop of [ext4_balloc_free_blocks] added to the log:
    no call failed if the loop goes on, the turn ends with the code of the
    call that failed otherwise, and no handle is held. *)
Definition iter_logged (tr0 : list event) (r : iter_result) : Prop :=
  exists evs,
    trace (fs (iter_state r)) = evs ++ tr0 /\
    refs_held evs = 0 /\
    first_failure evs =
      match r with
      | IterReturn rc _ | IterBreak rc _ _ _ => Some rc
      | IterNext _ _ _ => None
      end.

(** What a call of [ext4_balloc_free_blocks] added to the log [tr0]. *)
Definition free_blocks_logged (tr0 : list event) (o : outcome) : Prop :=
  match o with
  | Returned rc st' =>
      exists evs, trace (fs st') = evs ++ tr0 /\ log_ok evs rc
  | AssertFailed st' =>
      exists evs, trace (fs st') = evs ++ tr0 /\ refs_held evs = 0
  | OutOfFuel => True
  end.

(** ** Releasing a run of blocks one by one *)

(** What a caller does who releases the [n] blocks from [first] with one
    call of [ext4_balloc_free_block] each, stopping at the first error. *)
Fixpoint free_each (n : nat) (st : ext4_inode_ref) (first : Z)
  : Z * ext4_inode_ref :=
  match n with
  | O => (EOK, st)
  | S n' =>
      let '(rc, st') := ext4_balloc_free_block st first in
      if negb (rc =? EOK) then (rc, st') else free_each n' st' (first + 1)
  end.

(** [op_effect] with the cache compared block by block. *)
Definition op_effect_pw (f : ext4_fs) (ino : Z) (st' : ext4_inode_ref)
  (g : Z) (upd : list Z -> list Z) (dfree dino : Z) : Prop :=
  let s := sb f in
  let a := block_bitmap (bgs f g) in
  same_geometry s (sb (fs st')) /\
  free_blocks_count (sb (fs st')) = wrap64 (free_blocks_count s + dfree) /\
  (forall x, bdev (fs st') x = alter upd a (bdev f) x) /\
  bg_updated (bgs f) (bgs (fs st')) g s (upd (bdev f a))
             (wrap32 (bg_free_blocks_count (bgs f g) + dfree)) /\
  inode_blocks_count st' = wrap64 (ino + dino).

(** ** The outcome of an allocation, whatever its return code *)

(** Either [*fblock] was written: then a clear bit was claimed as
    [alloc_claimed] says, [*fblock] is its address and the effect of setting
    it is in place; or [*fblock] was not written: then the call returned an
    error and the superblock, the group free counts and the inode block
    count are as they were. *)
Definition alloc_outcome (f : ext4_fs) (ino goal : Z)
  (res : Z * option Z * ext4_inode_ref) : Prop :=
  let '(rc, fblock, st') := res in
  match fblock with
  | Some a =>
      exists g j,
        alloc_claimed f goal g j /\
        a = ext4_fs_index_in_group2_baddr (sb f) j g /\
        op_effect f ino st' g (fun d => ext4_bmap_bit_set d j) (-1)
                  (block_size (sb f) / 512)
  | None =>
      rc <> EOK /\ sb (fs st') = sb f /\
      (forall g, bg_free_blocks_count (bgs (fs st') g) =
                 bg_free_blocks_count (bgs f g)) /\
      inode_blocks_count st' = ino
  end.

(** ** The handle an allocation may keep *)

(** The newest call of a log is not a bitmap store. *)
Definition not_store_last (evs : list event) : Prop :=
  match evs with
  | EvBlockSet _ _ _ :: _ => False
  | _ => True
  end.

(** The calls [evs] of an allocation that returned [rc]: if the newest
    call is a bitmap store, that store was dirty and failed with [rc] and
    one handle is held; otherwise no handle is held. *)
Definition leak_exact (evs : list event) (rc : Z) : Prop :=
  match evs with
  | EvBlockSet _ dirty c :: _ =>
      refs_held evs = 1 /\ dirty = true /\ c = rc /\ rc <> EOK
  | _ => refs_held evs = 0
  end.

(** The calls that the result of an allocation added to the log [tr0]
    satisfy [leak_exact]. *)
Definition alloc_balanced (tr0 : list event)
  (res : Z * option Z * ext4_inode_ref) : Prop :=
  let '(rc, _, st') := res in
  exists evs, trace (fs st') = evs ++ tr0 /\ leak_exact evs rc.

(** * Proofs *)

(** ** Machine integers *)

Lemma wrap32_small x : 0 <= x < 2 ^ 32 -> wrap32 x = x.
Proof. intros H. unfold wrap32. apply Z.mod_small. exact H. Qed.

Lemma wrap64_small x : 0 <= x < 2 ^ 64 -> wrap64 x = x.
Proof. intros H. unfold wrap64. apply Z.mod_small. exact H. Qed.

Lemma wrap32_range x : 0 <= wrap32 x < 2 ^ 32.
Proof. unfold wrap32. apply Z.mod_pos_bound. lia. Qed.

Lemma wrap64_range x : 0 <= wrap64 x < 2 ^ 64.
Proof. unfold wrap64. apply Z.mod_pos_bound. lia. Qed.

Lemma wrap32_wrap64 x : wrap32 (wrap64 x) = wrap32 x.
Proof.
  unfold wrap32, wrap64. apply Z.mod_mod_divide.
  exists (2 ^ 32). reflexivity.
Qed.

(** ** Bits of the byte array *)


Lemma shiftr3_div bit : Z.shiftr bit 3 = bit / 8.
Proof. rewrite Z.shiftr_div_pow2 by lia. reflexivity. Qed.

Lemma land7_mod bit : Z.land bit 7 = bit mod 8.
Proof. change 7 with (Z.ones 3). rewrite Z.land_ones by lia. reflexivity. Qed.

Lemma land_mask_eq0 b k :
  0 <= k -> (Z.land b (Z.shiftl 1 k) =? 0) = negb (Z.testbit b k).
Proof.
  intros Hk. rewrite Z.shiftl_1_l.
  destruct (Z.testbit b k) eqn:Hb; simpl.
  - apply Z.eqb_neq. intros H0.
    assert (Ht : Z.testbit (Z.land b (2 ^ k)) k = true).
    { rewrite Z.land_spec, Hb, Z.pow2_bits_true by lia. reflexivity. }
    rewrite H0, Z.bits_0 in Ht. discriminate.
  - apply Z.eqb_eq. apply Z.bits_inj'. intros n Hn.
    rewrite Z.land_spec, Z.bits_0, Z.pow2_bits_eqb by lia.
    destruct (Z.eqb_spec k n) as [->|]; [rewrite Hb; reflexivity|].
    apply andb_false_r.
Qed.

Lemma is_bit_set_spec bmap i :
  0 <= i -> ext4_bmap_is_bit_set bmap i = bit_at bmap i.
Proof.
  intros Hi. unfold ext4_bmap_is_bit_set, bit_at.
  rewrite shiftr3_div, land7_mod, land_mask_eq0, negb_involutive.
  - reflexivity.
  - apply Z.mod_pos_bound. lia.
Qed.

Lemma is_bit_clr_spec bmap i :
  0 <= i -> ext4_bmap_is_bit_clr bmap i = negb (bit_at bmap i).
Proof.
  intros Hi. unfold ext4_bmap_is_bit_clr. rewrite is_bit_set_spec by lia.
  reflexivity.
Qed.

Lemma same_bit i j :
  0 <= i -> 0 <= j ->
  Z.to_nat (i / 8) = Z.to_nat (j / 8) -> (i mod 8 =? j mod 8) = (j =? i).
Proof.
  intros Hi Hj Hd.
  assert (i / 8 = j / 8).
  { apply Z2Nat.inj; [apply Z.div_pos; lia | apply Z.div_pos; lia | exact Hd]. }
  pose proof (Z.div_mod i 8). pose proof (Z.div_mod j 8).
  destruct (Z.eqb_spec (i mod 8) (j mod 8)), (Z.eqb_spec j i); lia.
Qed.

Lemma bit_at_set bmap i j :
  0 <= i -> 0 <= j -> i < 8 * Z.of_nat (length bmap) ->
  bit_at (ext4_bmap_bit_set bmap i) j = (j =? i) || bit_at bmap j.
Proof.
  intros Hi Hj Hlen. unfold bit_at, ext4_bmap_bit_set.
  rewrite shiftr3_div, land7_mod.
  assert (Hm : 0 <= i mod 8 < 8) by (apply Z.mod_pos_bound; lia).
  assert (Hm' : 0 <= j mod 8 < 8) by (apply Z.mod_pos_bound; lia).
  destruct (decide (Z.to_nat (i / 8) = Z.to_nat (j / 8))) as [Heq|Hne].
  - rewrite <- Heq, list_lookup_alter_eq.
    assert (Hlt : (Z.to_nat (i / 8) < length bmap)%nat).
    { apply Nat2Z.inj_lt. rewrite Z2Nat.id by (apply Z.div_pos; lia).
      apply Z.div_lt_upper_bound; lia. }
    destruct (lookup_lt_is_Some_2 bmap _ Hlt) as [b Hb]. rewrite Hb. simpl.
    rewrite Z.lor_spec, Z.shiftl_1_l, Z.pow2_bits_eqb by lia.
    rewrite same_bit by assumption. apply orb_comm.
  - rewrite list_lookup_alter_ne by assumption.
    destruct (Z.eqb_spec j i) as [->|]; [congruence | reflexivity].
Qed.

Lemma bit_at_clr bmap i j :
  0 <= i -> 0 <= j ->
  bit_at (ext4_bmap_bit_clr bmap i) j = negb (j =? i) && bit_at bmap j.
Proof.
  intros Hi Hj. unfold bit_at, ext4_bmap_bit_clr.
  rewrite shiftr3_div, land7_mod.
  assert (Hm : 0 <= i mod 8 < 8) by (apply Z.mod_pos_bound; lia).
  assert (Hm' : 0 <= j mod 8 < 8) by (apply Z.mod_pos_bound; lia).
  destruct (decide (Z.to_nat (i / 8) = Z.to_nat (j / 8))) as [Heq|Hne].
  - rewrite <- Heq, list_lookup_alter_eq.
    destruct (bmap !! Z.to_nat (i / 8)) as [b|] eqn:Hb; simpl.
    + rewrite Z.land_spec, Z.lnot_spec, Z.shiftl_1_l, Z.pow2_bits_eqb by lia.
      rewrite same_bit by assumption. apply andb_comm.
    + rewrite Z.bits_0. symmetry. apply andb_false_r.
  - rewrite list_lookup_alter_ne by assumption.
    destruct (Z.eqb_spec j i) as [->|]; [congruence | reflexivity].
Qed.

Lemma length_bit_set bmap i : length (ext4_bmap_bit_set bmap i) = length bmap.
Proof. apply length_alter. Qed.

Lemma length_bit_clr bmap i : length (ext4_bmap_bit_clr bmap i) = length bmap.
Proof. apply length_alter. Qed.

Lemma length_bits_free_from n : forall bmap s,
  length (bits_free_from n bmap s) = length bmap.
Proof.
  induction n as [|n IH]; intros bmap s; simpl; [reflexivity|].
  rewrite IH. apply length_bit_clr.
Qed.

(** [bits_free] clears exactly the bits [sbit .. sbit + bcnt - 1]. *)
Lemma bit_at_bits_free_from n : forall bmap s j,
  0 <= s -> 0 <= j ->
  bit_at (bits_free_from n bmap s) j =
  negb ((s <=? j) && (j <? s + Z.of_nat n)) && bit_at bmap j.
Proof.
  induction n as [|n IH]; intros bmap s j Hs Hj.
  - simpl. replace (s + Z.of_nat 0) with s by lia.
    destruct (Z.leb_spec s j), (Z.ltb_spec j s); try lia; reflexivity.
  - cbn [bits_free_from]. rewrite IH by lia. rewrite bit_at_clr by lia.
    destruct (Z.leb_spec (s + 1) j), (Z.ltb_spec j (s + 1 + Z.of_nat n)),
      (Z.leb_spec s j), (Z.ltb_spec j (s + Z.of_nat (S n))),
      (Z.eqb_spec j s); try lia; reflexivity.
Qed.

Lemma bit_at_bits_free bmap s k j :
  0 <= s -> 0 <= k -> 0 <= j ->
  bit_at (ext4_bmap_bits_free bmap s k) j =
  negb ((s <=? j) && (j <? s + k)) && bit_at bmap j.
Proof.
  intros Hs Hk Hj. unfold ext4_bmap_bits_free.
  rewrite bit_at_bits_free_from by lia. rewrite Z2Nat.id by lia. reflexivity.
Qed.



Lemma is_clr_after_set bmap i j :
  0 <= i -> 0 <= j -> i < 8 * Z.of_nat (length bmap) ->
  ext4_bmap_is_bit_clr (ext4_bmap_bit_set bmap i) j =
  negb (j =? i) && ext4_bmap_is_bit_clr bmap j.
Proof.
  intros Hi Hj Hlen. rewrite !is_bit_clr_spec, bit_at_set by lia.
  apply negb_orb.
Qed.

Lemma is_clr_after_clr bmap i j :
  0 <= i -> 0 <= j ->
  ext4_bmap_is_bit_clr (ext4_bmap_bit_clr bmap i) j =
  (j =? i) || ext4_bmap_is_bit_clr bmap j.
Proof.
  intros Hi Hj. rewrite !is_bit_clr_spec, bit_at_clr by lia.
  rewrite negb_andb, negb_involutive. reflexivity.
Qed.

Lemma is_clr_after_bits_free bmap s k j :
  0 <= s -> 0 <= k -> 0 <= j ->
  ext4_bmap_is_bit_clr (ext4_bmap_bits_free bmap s k) j =
  ((s <=? j) && (j <? s + k)) || ext4_bmap_is_bit_clr bmap j.
Proof.
  intros Hs Hk Hj. rewrite !is_bit_clr_spec, bit_at_bits_free by lia.
  rewrite negb_andb, negb_involutive. reflexivity.
Qed.

(** The linear scan returns the first clear bit of its range. *)
Lemma find_clr_from_spec n : forall bmap s,
  match find_clr_from n bmap s with
  | Some j => first_clr bmap s (s + Z.of_nat n) j
  | None => none_clr bmap s (s + Z.of_nat n)
  end.
Proof.
  induction n as [|n IH]; intros bmap s.
  - simpl. intros k Hk. lia.
  - cbn [find_clr_from].
    destruct (ext4_bmap_is_bit_clr bmap s) eqn:Hb.
    + split; [lia | split; [exact Hb|]]. intros k Hk. lia.
    + specialize (IH bmap (s + 1)).
      destruct (find_clr_from n bmap (s + 1)) as [j|].
      * destruct IH as (Hr & Hc & Hlow).
        split; [lia | split; [exact Hc|]].
        intros k Hk. destruct (Z.eq_dec k s) as [->|]; [exact Hb|].
        apply Hlow. lia.
      * intros k Hk. destruct (Z.eq_dec k s) as [->|]; [exact Hb|].
        apply IH. lia.
Qed.

Lemma bit_find_clr_spec bmap lo hi :
  match ext4_bmap_bit_find_clr bmap lo hi with
  | Some j => first_clr bmap lo hi j
  | None => none_clr bmap lo hi
  end.
Proof.
  unfold ext4_bmap_bit_find_clr.
  pose proof (find_clr_from_spec (Z.to_nat (hi - lo)) bmap lo) as H.
  destruct (Z.le_gt_cases lo hi).
  - replace (lo + Z.of_nat (Z.to_nat (hi - lo))) with hi in H by lia. exact H.
  - replace (Z.to_nat (hi - lo)) with O in * by lia. simpl in *.
    intros k Hk. lia.
Qed.



Lemma find_clr_none bmap lo hi :
  none_clr bmap lo hi -> ext4_bmap_bit_find_clr bmap lo hi = None.
Proof.
  intros H. pose proof (bit_find_clr_spec bmap lo hi) as S.
  destruct (ext4_bmap_bit_find_clr bmap lo hi) as [j|]; [|reflexivity].
  destruct S as (Hr & Hc & _). rewrite (H j Hr) in Hc. discriminate.
Qed.

(** ** Geometry *)

(** Where the 32-bit product does not overflow, the group start is the
    formula of the geometry map. *)
Lemma block_of_bgid_exact s bgid :
  0 <= bgid * blocks_per_group s < 2 ^ 32 - 1 ->
  ext4_balloc_get_block_of_bgid s bgid =
  (if first_data_block s =? 0 then 0 else 1) + bgid * blocks_per_group s.
Proof.
  intros H. unfold ext4_balloc_get_block_of_bgid.
  rewrite (wrap32_small (bgid * blocks_per_group s)) by lia.
  destruct (first_data_block s =? 0); simpl; apply wrap64_small; lia.
Qed.

(** C10 (code defect).  The group start is computed with a 32-bit product:
    on a filesystem of 131073 groups of 32768 blocks, group 131072 is a
    valid group whose first block is block 2^32, and the function returns
    block 0. *)
Theorem block_of_bgid_truncates :
  0 <= 131072 < ext4_block_group_cnt sb_16T /\
  (if first_data_block sb_16T =? 0 then 0 else 1)
  + 131072 * blocks_per_group sb_16T = 2 ^ 32 /\
  ext4_balloc_get_block_of_bgid sb_16T 131072 = 0.
Proof. vm_compute. intuition congruence. Qed.

(** ** The device script *)

Lemma io_ok_hd f : io_ok f -> hd EOK (io f) = EOK.
Proof.
  unfold io_ok. destruct (io f) as [|rc rest]; simpl; [reflexivity|].
  intros H. inversion H; subst. reflexivity.
Qed.

Lemma io_ok_tl f s b d t :
  io_ok f -> io_ok (mk_fs s b d (tl (io f)) t).
Proof.
  unfold io_ok. simpl. destruct (io f) as [|rc rest]; simpl; [auto|].
  intros H. inversion H; subst. assumption.
Qed.

(** C3 (code defect).  On [fs_small] bit 3 of group 0 is set and bit 9 is
    the first clear bit after it.  With goal 3 the near-goal scan claims bit
    9; with goal 0 the near-goal range is empty and the group-wide search
    claims bit 9.  When the store of the bitmap then fails with code 5, the
    call returns 5 and the log holds the acquisition of the handle of group
    0 and no release. *)
Theorem alloc_store_failure_keeps_handle :
  (let '(rc, fblock, st) := ext4_balloc_alloc_block (inode_small [0; 0; 5]) 3 in
   rc = 5 /\ fblock = None /\
   trace (fs st) = [EvBlockSet 100 true 5; EvBlockGet 100 0; EvGetRef 0 0] /\
   refs_held (trace (fs st)) = 1) /\
  (let '(rc, fblock, st) := ext4_balloc_alloc_block (inode_small [0; 0; 5]) 0 in
   rc = 5 /\ fblock = None /\
   trace (fs st) = [EvBlockSet 100 true 5; EvBlockGet 100 0; EvGetRef 0 0] /\
   refs_held (trace (fs st)) = 1).
Proof. vm_compute. intuition congruence. Qed.

Lemma ok_hd (l : list Z) : Forall (fun rc => rc = EOK) l -> hd EOK l = EOK.
Proof. destruct 1; simpl; auto. Qed.

Lemma ok_tail (l : list Z) :
  Forall (fun rc => rc = EOK) l -> Forall (fun rc => rc = EOK) (tail l).
Proof. destruct 1; simpl; auto. Qed.

(** Run the collaborator calls down to record expressions, values
    first.  The state must be given by its components. *)
Ltac unfold_calls :=
  cbv beta iota zeta delta
    [ext4_fs_get_block_group_ref ext4_block_get claim_bit
     stamp_and_store ext4_block_set ext4_fs_put_block_group_ref io_pop log
     alter_data alter_bg set_fs set_sb set_bg_dirty set_blk_dirty
     ext4_inode_set_blocks_count set_inode_dirty ext4_inode_get_blocks_count
     ext4_sb_set_free_blocks_cnt ext4_sb_get_free_blocks_cnt
     ext4_bg_set_free_blocks_count ext4_bg_get_free_blocks_count
     ext4_bg_get_block_bitmap ext4_sb_get_block_size
     fst snd sb bgs bdev io trace bg_index bg_dirty lb_id blk_dirty fs
     inode_blocks_count inode_dirty];
  cbn [free_blocks_count first_data_block blocks_per_group blocks_count
       block_size feature_metadata_csum feature_flex_bg uuid desc_size
       block_bitmap bg_free_blocks_count block_bitmap_csum_lo
       block_bitmap_csum_hi].

(** Every return code read from a script that only holds [EOK] is [EOK]. *)
Ltac script_ok H :=
  repeat match goal with
  | |- context [hd EOK ?l] =>
      rewrite (ok_hd l) by (repeat apply ok_tail; exact H)
  end;
  change (negb (EOK =? EOK)) with false; cbv iota.

(** ** Bitmap checksum *)

Lemma bitmap_csum_eq s bmap : ext4_balloc_bitmap_csum s bmap = csum_of s bmap.
Proof. reflexivity. Qed.

Lemma set_csum_lo s bg bmap :
  block_bitmap_csum_lo (ext4_balloc_set_bitmap_csum s bg bmap) =
  to_le16 (Z.land (csum_of s bmap) 0xFFFF).
Proof.
  unfold ext4_balloc_set_bitmap_csum. rewrite bitmap_csum_eq.
  destruct (_ =? _); reflexivity.
Qed.

Lemma set_csum_hi s bg bmap :
  block_bitmap_csum_hi (ext4_balloc_set_bitmap_csum s bg bmap) =
  if desc_size s =? 64 then to_le16 (Z.shiftr (csum_of s bmap) 16)
  else block_bitmap_csum_hi bg.
Proof.
  unfold ext4_balloc_set_bitmap_csum. rewrite bitmap_csum_eq.
  unfold ext4_sb_get_desc_size, EXT4_MAX_BLOCK_GROUP_DESCRIPTOR_SIZE.
  destruct (_ =? _); reflexivity.
Qed.

Lemma set_csum_free s bg bmap :
  bg_free_blocks_count (ext4_balloc_set_bitmap_csum s bg bmap) =
  bg_free_blocks_count bg.
Proof. unfold ext4_balloc_set_bitmap_csum. destruct (_ =? _); reflexivity. Qed.

Lemma set_csum_bitmap s bg bmap :
  block_bitmap (ext4_balloc_set_bitmap_csum s bg bmap) = block_bitmap bg.
Proof. unfold ext4_balloc_set_bitmap_csum. destruct (_ =? _); reflexivity. Qed.

(** The two bytes of the low half are bytes 0 and 1 of the checksum, the
    two bytes of the high half are bytes 2 and 3. *)
Lemma to_le16_low c :
  to_le16 (Z.land c 0xFFFF) = [Z.land c 0xFF; Z.land (Z.shiftr c 8) 0xFF].
Proof.
  unfold to_le16. f_equal; [|f_equal].
  - apply Z.bits_inj'. intros n Hn.
    change 65535 with (Z.ones 16). change 255 with (Z.ones 8).
    rewrite !Z.land_spec. destruct (Z.ltb_spec n 8).
    + rewrite !Z.ones_spec_low by lia. rewrite !andb_true_r. reflexivity.
    + rewrite (Z.ones_spec_high 8) by lia. rewrite !andb_false_r. reflexivity.
  - apply Z.bits_inj'. intros n Hn.
    change 65535 with (Z.ones 16). change 255 with (Z.ones 8).
    rewrite !Z.land_spec, !Z.shiftr_spec, Z.land_spec by lia.
    destruct (Z.ltb_spec n 8).
    + rewrite !Z.ones_spec_low by lia. rewrite !andb_true_r. reflexivity.
    + rewrite (Z.ones_spec_high 8) by lia. rewrite !andb_false_r. reflexivity.
Qed.

Lemma to_le16_high c :
  to_le16 (Z.shiftr c 16) =
  [Z.land (Z.shiftr c 16) 0xFF; Z.land (Z.shiftr c 24) 0xFF].
Proof.
  unfold to_le16. rewrite Z.shiftr_shiftr by lia. reflexivity.
Qed.

(** What [ext4_balloc_set_bitmap_csum] writes, byte by byte. *)
Lemma set_bitmap_csum_fields s bg bmap :
  let c :=
    if feature_metadata_csum s
    then ext4_crc32c (ext4_crc32c 0xFFFFFFFF (uuid s))
                     (take (Z.to_nat (blocks_per_group s / 8)) bmap)
    else 0 in
  let bg' := ext4_balloc_set_bitmap_csum s bg bmap in
  block_bitmap_csum_lo bg' = [Z.land c 0xFF; Z.land (Z.shiftr c 8) 0xFF] /\
  block_bitmap_csum_hi bg' =
    (if desc_size s =? 64
     then [Z.land (Z.shiftr c 16) 0xFF; Z.land (Z.shiftr c 24) 0xFF]
     else block_bitmap_csum_hi bg) /\
  block_bitmap bg' = block_bitmap bg /\
  bg_free_blocks_count bg' = bg_free_blocks_count bg.
Proof.
  intros c bg'. subst bg'. fold (csum_of s bmap) in c. subst c.
  rewrite set_csum_lo, set_csum_hi, set_csum_bitmap, set_csum_free.
  rewrite to_le16_low, to_le16_high. auto.
Qed.


(** ** [ext4_balloc_try_alloc_block] *)

(** C7.  With a device that does not fail, [try_one] succeeds and reports
    whether the bit of [baddr] was clear.  If it was, the bit is set in
    place, the checksum of the new bitmap is stamped into the descriptor,
    the buffer is handed back dirty, and the three counters move as for a
    successful allocation; otherwise the cache and the three counters are
    unchanged. *)
Theorem try_alloc_block_spec st baddr :
  io_ok (fs st) ->
  let f := fs st in
  let s := sb f in
  let g := ext4_balloc_get_bgid_of_block s baddr in
  let i := ext4_fs_baddr2_index_in_group s baddr in
  let a := block_bitmap (bgs f g) in
  let was_free := ext4_bmap_is_bit_clr (bdev f a) i in
  exists st',
    ext4_balloc_try_alloc_block st baddr = (EOK, Some was_free, st') /\
    if was_free then
      bdev (fs st') = alter (fun d => ext4_bmap_bit_set d i) a (bdev f) /\
      (0 <= i < 8 * Z.of_nat (length (bdev f a)) ->
       ext4_bmap_is_bit_set (bdev (fs st') a) i = true) /\
      block_bitmap_csum_lo (bgs (fs st') g) =
        to_le16 (Z.land (csum_of s (bdev (fs st') a)) 0xFFFF) /\
      (desc_size s = 64 ->
       block_bitmap_csum_hi (bgs (fs st') g) =
         to_le16 (Z.shiftr (csum_of s (bdev (fs st') a)) 16)) /\
      trace (fs st') =
        [EvPutRef g true EOK; EvBlockSet a true EOK; EvBlockGet a EOK;
         EvGetRef g EOK] ++ trace f /\
      free_blocks_count (sb (fs st')) = wrap64 (free_blocks_count s - 1) /\
      bg_free_blocks_count (bgs (fs st') g) =
        wrap32 (bg_free_blocks_count (bgs f g) - 1) /\
      inode_blocks_count st' =
        wrap64 (inode_blocks_count st + block_size s / 512) /\
      inode_dirty st' = true
    else
      bdev (fs st') = bdev f /\
      trace (fs st') =
        [EvPutRef g false EOK; EvBlockSet a false EOK; EvBlockGet a EOK;
         EvGetRef g EOK] ++ trace f /\
      free_blocks_count (sb (fs st')) = free_blocks_count s /\
      bgs (fs st') = bgs f /\
      inode_blocks_count st' = inode_blocks_count st.
Proof.
  destruct st as [[s b d l tr] ino dty]. unfold io_ok.
  cbn [fs io sb bgs bdev trace inode_blocks_count inode_dirty]. intros Hio.
  unfold ext4_balloc_try_alloc_block.
  destruct (ext4_bmap_is_bit_clr _ _) eqn:Hfree.
  - unfold_calls. rewrite Hfree. script_ok Hio. simpl negb. cbv iota.
    eexists. split; [reflexivity|]. cbn [fs bdev bgs sb trace
      inode_blocks_count inode_dirty free_blocks_count].
    rewrite !fn_lookup_alter. cbn [bg_free_blocks_count].
    rewrite set_csum_lo, set_csum_hi, set_csum_free.
    repeat split.
    + intros [Hi Hlen]. rewrite is_bit_set_spec, bit_at_set by lia.
      rewrite Z.eqb_refl. reflexivity.
    + intros ->. reflexivity.
    + unfold wrap64. rewrite Z.mod_mod by lia. reflexivity.
    + rewrite wrap32_small by apply wrap32_range. reflexivity.
    + unfold wrap64, EXT4_INODE_BLOCK_SIZE. rewrite Z.mod_mod by lia.
      reflexivity.
  - unfold_calls. rewrite Hfree. script_ok Hio. simpl negb. cbv iota.
    eexists. split; [reflexivity|]. cbn [fs bdev bgs sb trace
      inode_blocks_count inode_dirty free_blocks_count].
    repeat split.
Qed.

Lemma try_alloc_block_spec_witness :
  io_ok (fs (inode_small [])) /\
  exists st',
    ext4_balloc_try_alloc_block (inode_small []) 9 = (EOK, Some true, st') /\
    free_blocks_count (sb (fs st')) = 54.
Proof.
  assert (Hio : io_ok (fs (inode_small []))) by constructor.
  split; [exact Hio|].
  destruct (try_alloc_block_spec (inode_small []) 9 Hio)
    as (st' & Hrun & Hpost).
  exists st'. split; [exact Hrun|].
  cbv zeta in Hpost.
  change (ext4_bmap_is_bit_clr _ _) with true in Hpost. cbv iota in Hpost.
  destruct Hpost as (_ & _ & _ & _ & _ & Hsb & _). rewrite Hsb. reflexivity.
Defined.


(** ** Counters move only after the bitmap store *)

Ltac prefix_of l tr :=
  lazymatch l with
  | tr => constr:(@nil event)
  | ?e :: ?l' => let p := prefix_of l' tr in constr:(e :: p)
  end.

(** Split on the next test of a return code. *)
Ltac branch :=
  match goal with
  | |- context [if negb (?x =? EOK) then _ else _] =>
      let E := fresh "E" in
      destruct (Z.eqb_spec x EOK) as [E|E]; cbn [negb]; cbv iota;
      [rewrite ?E|]
  end.

(** Stamping a checksum leaves the free count of every group alone. *)
Lemma free_after_stamp (b : Z -> ext4_bgroup) g0 s data g :
  bg_free_blocks_count
    (alter (fun bg => ext4_balloc_set_bitmap_csum s bg data) g0 b g) =
  bg_free_blocks_count (b g).
Proof.
  destruct (decide (g0 = g)) as [<-|Hne].
  - rewrite fn_lookup_alter. apply set_csum_free.
  - rewrite fn_lookup_alter_ne by assumption. reflexivity.
Qed.

Ltac solve_counters :=
  unfold counters_unchanged; cbn [fs sb bgs inode_blocks_count free_blocks_count];
  repeat split; intros; rewrite ?free_after_stamp; reflexivity.

Lemma counters_unchanged_refl st : counters_unchanged st st.
Proof. repeat split. Qed.

(** Name the calls of a straight-line path. *)
Ltac name_events :=
  match goal with
  | |- exists evs, ?l = evs ++ ?tr /\ _ =>
      let p := prefix_of l tr in exists p; split; [reflexivity|]
  end.

(** Decide [store_atomic] on a straight-line path from its log. *)
Ltac solve_atomic :=
  unfold store_atomic; cbn [fs trace]; name_events;
  split;
  [ intros e [Hne (? & ? & Hin)]; simpl in Hin;
    repeat (destruct Hin as [Hin|Hin];
            [try discriminate Hin; injection Hin as <- <- <-|]);
    try contradiction; try congruence;
    try (split; [congruence | solve_counters])
  | intros Hnone; try (solve_counters; fail);
    exfalso; apply Hnone; eexists; simpl; eauto 10 ].

Lemma free_block_atomic st baddr :
  let '(rc, st') := ext4_balloc_free_block st baddr in
  store_atomic st rc st'.
Proof.
  destruct st as [[s b d l tr] ino dty].
  unfold ext4_balloc_free_block. unfold_calls.
  repeat branch; solve_atomic.
Qed.

Lemma free_blocks_iter_atomic st g first count :
  let r := free_blocks_iter st g first count in
  store_atomic st (iter_rc r) (iter_state r) /\
  (forall evs e, trace (fs (iter_state r)) = evs ++ trace (fs st) ->
                 store_failed evs e -> iter_returned r).
Proof.
  destruct st as [[s b d l tr] ino dty].
  unfold free_blocks_iter. unfold_calls.
  repeat branch; cbn [iter_rc iter_state iter_returned];
    (split; [solve_atomic | try (intros; exact I)]).
  - intros evs e Htr [Hne (lba & dty' & Hin)]. cbn [fs trace] in Htr.
    match type of Htr with
    | ?l = _ ++ ?t => let p := prefix_of l t in
        change l with (p ++ t) in Htr
    end.
    apply app_inv_tail in Htr. subst evs. simpl in Hin.
    repeat (destruct Hin as [Hin|Hin];
            [try discriminate Hin; injection Hin as <- <- <-|]);
      congruence || contradiction.
  - intros evs e Htr [Hne (lba & dty' & Hin)]. cbn [fs trace] in Htr.
    match type of Htr with
    | ?l = _ ++ ?t => let p := prefix_of l t in
        change l with (p ++ t) in Htr
    end.
    apply app_inv_tail in Htr. subst evs. simpl in Hin.
    repeat (destruct Hin as [Hin|Hin];
            [try discriminate Hin; injection Hin as <- <- <-|]);
      congruence || contradiction.
Qed.

Lemma try_alloc_block_atomic st baddr :
  let '(rc, _, st') := ext4_balloc_try_alloc_block st baddr in
  store_atomic st rc st'.
Proof.
  destruct st as [[s b d l tr] ino dty].
  unfold ext4_balloc_try_alloc_block. unfold_calls.
  destruct (ext4_bmap_is_bit_clr _ _); cbn [negb]; cbv iota;
    repeat branch; solve_atomic.
Qed.

(** *** The allocation paths *)

Lemma store_failed_cons ev evs e :
  store_failed (ev :: evs) e ->
  (exists lba d, ev = EvBlockSet lba d e /\ e <> EOK) \/ store_failed evs e.
Proof.
  intros [Hne (lba & d & [Hin|Hin])]; [left|right]; unfold store_failed; eauto.
Qed.

Lemma store_failed_app evs2 evs1 e :
  store_failed (evs2 ++ evs1) e -> store_failed evs2 e \/ store_failed evs1 e.
Proof.
  intros [Hne (lba & d & Hin)]. apply in_app_or in Hin.
  destruct Hin; [left|right]; unfold store_failed; eauto.
Qed.

Lemma store_done_app_r evs2 evs1 : store_done evs1 -> store_done (evs2 ++ evs1).
Proof. intros [lba Hin]. exists lba. apply in_or_app. auto. Qed.

Lemma store_done_app_l evs2 evs1 : store_done evs2 -> store_done (evs2 ++ evs1).
Proof. intros [lba Hin]. exists lba. apply in_or_app. auto. Qed.

Lemma counters_unchanged_trans st mid st' :
  counters_unchanged st mid -> counters_unchanged mid st' ->
  counters_unchanged st st'.
Proof.
  intros (H1 & H2 & H3) (H1' & H2' & H3'). repeat split; congruence.
Qed.

(** Calls that neither fail a store nor change a counter may precede an
    atomic run. *)
Lemma atomic_after st mid rc st' evs1 :
  trace (fs mid) = evs1 ++ trace (fs st) ->
  counters_unchanged st mid ->
  (forall e, ~ store_failed evs1 e) ->
  store_atomic mid rc st' -> store_atomic st rc st'.
Proof.
  intros Htr Hc Hnf (evs2 & Htr2 & Hfail & Hdone).
  exists (evs2 ++ evs1). split; [rewrite Htr2, Htr; apply app_assoc|]. split.
  - intros e He. apply store_failed_app in He. destruct He as [He|He].
    + destruct (Hfail e He) as [-> Hc']. split; [reflexivity|].
      eapply counters_unchanged_trans; eassumption.
    + destruct (Hnf e He).
  - intros Hnd. eapply counters_unchanged_trans; [eassumption|].
    apply Hdone. intros Hd. apply Hnd. apply store_done_app_l. exact Hd.
Qed.

Lemma alloc_success_atomic st inode_ref f bg_ref blk evs1 :
  trace f = evs1 ++ trace (fs st) ->
  store_done evs1 -> (forall e, ~ store_failed evs1 e) ->
  let '(rc, _, st') := alloc_success inode_ref f bg_ref blk in
  store_atomic st rc st'.
Proof.
  destruct f as [s b d l tr]. cbn [trace]. intros -> Hd Hnf.
  unfold alloc_success. unfold_calls.
  exists (EvPutRef (bg_index bg_ref) true (hd EOK l) :: evs1).
  split; [reflexivity|]. split.
  - intros e He. apply store_failed_cons in He.
    destruct He as [(lba & dd & Heq & _)|He]; [discriminate|].
    destruct (Hnf e He).
  - intros Hnd. exfalso. apply Hnd.
    apply (store_done_app_r [_]). exact Hd.
Qed.

Ltac no_failed :=
  let e := fresh "e" in
  let Hne := fresh "Hne" in
  let Hin := fresh "Hin" in
  intros e [Hne (? & ? & Hin)]; simpl in Hin;
  repeat (destruct Hin as [Hin|Hin];
          [try discriminate Hin; injection Hin as <- <- <-|]);
  congruence || contradiction.

Ltac split_log :=
  cbn [fs trace set_fs];
  match goal with
  | |- ?l = ?e ++ ?tr => let p := prefix_of l tr in unify e p; reflexivity
  end.

(** Close a leaf of an allocation path: a plain return, the rest of the
    loop, or the statements under [success]. *)
Ltac atomic_leaf Hk k :=
  cbv beta iota;
  match goal with
  | |- context [alloc_success ?ino ?f ?r ?blk] =>
      eapply alloc_success_atomic;
      [ split_log | eexists; simpl; eauto 10 | no_failed ]
  | |- context [k ?x] =>
      let H := fresh "H" in
      pose proof (Hk x) as H;
      destruct (k x) as [[? ?] ?];
      eapply atomic_after; [ | | | exact H];
      [split_log | solve_counters | no_failed]
  | |- _ => solve_atomic
  end.

Lemma alloc_try_group_atomic continue inode_ref f bgid :
  (forall f', let '(rc, _, st') := continue f' in
              store_atomic (set_fs inode_ref f') rc st') ->
  let '(rc, _, st') := alloc_try_group continue inode_ref f bgid in
  store_atomic (set_fs inode_ref f) rc st'.
Proof.
  intros Hk. destruct f as [s b d l tr], inode_ref as [f0 ino dty].
  unfold alloc_try_group. unfold_calls.
  branch; [|atomic_leaf Hk continue].
  destruct (_ =? 0).
  - branch; atomic_leaf Hk continue.
  - branch; [|atomic_leaf Hk continue].
    destruct (ext4_bmap_bit_find_clr _ _ _); repeat branch;
      atomic_leaf Hk continue.
Qed.

Lemma alloc_other_groups_atomic count : forall inode_ref f G bgid,
  let '(rc, _, st') := alloc_other_groups count inode_ref f G bgid in
  store_atomic (set_fs inode_ref f) rc st'.
Proof.
  induction count as [|count IH]; intros inode_ref f G bgid.
  - cbn [alloc_other_groups]. exists []. split; [reflexivity|].
    split; [|intros _; apply counters_unchanged_refl].
    intros e [_ (? & ? & [])].
  - cbn [alloc_other_groups]. apply alloc_try_group_atomic.
    intros f'. apply IH.
Qed.

Lemma alloc_goal_failed_atomic inode_ref f bg_ref block_group :
  let '(rc, _, st') := alloc_goal_failed inode_ref f bg_ref block_group in
  store_atomic (set_fs inode_ref f) rc st'.
Proof.
  destruct f as [s b d l tr], inode_ref as [f0 ino dty].
  unfold alloc_goal_failed. unfold_calls.
  branch; [|solve_atomic].
  match goal with
  | |- context [alloc_other_groups ?n ?r ?x ?G ?g] =>
      pose proof (alloc_other_groups_atomic n r x G g) as H;
      destruct (alloc_other_groups n r x G g) as [[? ?] ?]
  end.
  eapply atomic_after; [ | | | exact H];
    [split_log | solve_counters | no_failed].
Qed.

Ltac goal_failed_leaf :=
  match goal with
  | |- context [alloc_goal_failed ?r ?x ?bg ?g] =>
      let H := fresh "H" in
      pose proof (alloc_goal_failed_atomic r x bg g) as H;
      destruct (alloc_goal_failed r x bg g) as [[? ?] ?];
      eapply atomic_after; [ | | | exact H];
      [split_log | solve_counters | no_failed]
  end.

Lemma alloc_block_atomic st goal :
  let '(rc, _, st') := ext4_balloc_alloc_block st goal in
  store_atomic st rc st'.
Proof.
  destruct st as [[s b d l tr] ino dty].
  unfold ext4_balloc_alloc_block. unfold_calls.
  branch; [|solve_atomic].
  destruct (_ =? 0); [goal_failed_leaf|].
  branch; [|solve_atomic].
  destruct (ext4_bmap_is_bit_clr _ _).
  { branch; atomic_leaf I I. }
  destruct (near_goal_scan _ _ _).
  { branch; atomic_leaf I I. }
  destruct (ext4_bmap_bit_find_clr _ _ _).
  { branch; atomic_leaf I I. }
  branch; [goal_failed_leaf | solve_atomic].
Qed.

(** C2.  In [free_one], in each turn of the loop of [free_range], in
    [alloc] and in [try_one], the superblock free count, the group free
    counts and the inode block count are as they were unless a modified
    bitmap has been stored successfully; and a bitmap store that fails ends
    the operation (the turn of [free_range] with a [return]) with the
    store's error code and the three counters unchanged. *)
Theorem counters_after_bitmap_store :
  (forall st baddr,
     let '(rc, st') := ext4_balloc_free_block st baddr in
     store_atomic st rc st') /\
  (forall st g first count,
     let r := free_blocks_iter st g first count in
     store_atomic st (iter_rc r) (iter_state r) /\
     (forall evs e, trace (fs (iter_state r)) = evs ++ trace (fs st) ->
                    store_failed evs e -> iter_returned r)) /\
  (forall st goal,
     let '(rc, _, st') := ext4_balloc_alloc_block st goal in
     store_atomic st rc st') /\
  (forall st baddr,
     let '(rc, _, st') := ext4_balloc_try_alloc_block st baddr in
     store_atomic st rc st').
Proof.
  split; [exact free_block_atomic|].
  split; [exact free_blocks_iter_atomic|].
  split; [exact alloc_block_atomic | exact try_alloc_block_atomic].
Qed.


(** ** [ext4_balloc_alloc_block]: the goal group *)

Lemma near_goal_scan_eq bmap i e :
  0 <= i -> i + 1 < 2 ^ 32 ->
  near_goal_scan bmap i e = ext4_bmap_bit_find_clr bmap (i + 1) e.
Proof.
  intros Hi Hlt. unfold near_goal_scan, ext4_bmap_bit_find_clr.
  rewrite wrap32_small by lia. reflexivity.
Qed.

(** The mask [~63] of a 32-bit operand. *)
Lemma land_mask63 x :
  0 <= x < 2 ^ 32 -> Z.land x (wrap32 (Z.lnot 63)) = Z.land x (Z.lnot 63).
Proof.
  intros Hx. change (wrap32 (Z.lnot 63)) with (Z.land (Z.lnot 63) (Z.ones 32)).
  rewrite (Z.land_comm (Z.lnot 63)), Z.land_assoc, Z.land_ones by lia.
  rewrite Z.mod_small by lia. reflexivity.
Qed.

Lemma index_in_group_range s baddr :
  0 < blocks_per_group s ->
  0 <= ext4_fs_baddr2_index_in_group s baddr < blocks_per_group s.
Proof. intros H. unfold ext4_fs_baddr2_index_in_group. apply Z.mod_pos_bound. lia. Qed.


(** ** [ext4_balloc_alloc_block]: no space *)

Lemma acquired_app evs2 evs1 :
  acquired (evs2 ++ evs1) = acquired evs1 ++ acquired evs2.
Proof.
  induction evs2 as [|ev evs2 IH]; simpl.
  - symmetry. apply app_nil_r.
  - destruct ev; rewrite ?IH, ?app_assoc; reflexivity.
Qed.

Lemma no_dirty_store_app evs2 evs1 :
  no_dirty_store evs2 -> no_dirty_store evs1 -> no_dirty_store (evs2 ++ evs1).
Proof.
  intros H2 H1 lba rc Hin. apply in_app_or in Hin.
  destruct Hin; [eapply H2 | eapply H1]; eassumption.
Qed.

Ltac no_dirty :=
  let Hin := fresh "Hin" in
  intros ? ? Hin; simpl in Hin;
  repeat (destruct Hin as [Hin|Hin]; [discriminate Hin|]); exact Hin.

(** Enter the rest of the loop with the induction hypothesis and join the
    logs of the turn and of the rest. *)
Ltac rest_of_loop IH Hio Hnext Hseq :=
  match goal with
  | |- context [alloc_other_groups ?n ?r ?x ?G ?g] =>
      match x with
      | mk_fs _ _ _ ?l1 (?e :: ?tr1) =>
          let l' := fresh "l'" in
          let evs := fresh "evs" in
          let Heq := fresh "Heq" in
          let Hnd := fresh "Hnd" in
          let Hacq := fresh "Hacq" in
          destruct (IH l1 (e :: tr1) g (fs r))
            as (l' & evs & Heq & Hnd & Hacq);
          [repeat apply ok_tail; exact Hio | exact Hnext |];
          cbn [fs] in Heq; rewrite Heq;
          match goal with
          | |- context [evs ++ ?t] =>
              match goal with
              | |- context [mk_inode_ref (mk_fs _ _ _ _ (_ ++ ?tr0))] =>
                  let p := prefix_of t tr0 in
                  exists l', (evs ++ p);
                  split; [rewrite <- app_assoc; reflexivity|]
              end
          end;
          split; [apply no_dirty_store_app; [exact Hnd | no_dirty]|];
          rewrite acquired_app, Hacq, Hseq; reflexivity
      end
  end.

(** The wrap over the remaining groups when every group is exhausted. *)
Lemma other_groups_no_space s b d ino dty G :
  G = ext4_block_group_cnt s -> 0 < G < 2 ^ 32 ->
  (forall bg, 0 <= bg < G ->
     group_exhausted (mk_fs s b d [] []) bg (first_index s bg)) ->
  forall count l tr bgid r0,
  Forall (fun rc => rc = EOK) l -> 0 <= bgid < G ->
  exists l' evs,
    alloc_other_groups count (mk_inode_ref r0 ino dty) (mk_fs s b d l tr)
                       G bgid =
      (ENOSPC, None, mk_inode_ref (mk_fs s b d l' (evs ++ tr)) ino dty) /\
    no_dirty_store evs /\
    acquired evs =
      map (fun k => (bgid + Z.of_nat k) mod G) (seq 0 count).
Proof.
  intros HG HGr Hex count.
  induction count as [|count IH]; intros l tr bgid r0 Hio Hb.
  - exists l, []. split; [reflexivity|]. split; [intros ? ? []|reflexivity].
  - cbn [alloc_other_groups]. unfold alloc_try_group. unfold_calls.
    script_ok Hio.
    assert (Hnext : 0 <= wrap32 (bgid + 1) mod G < G)
      by (apply Z.mod_pos_bound; lia).
    assert (Hseq :
      map (fun k => (bgid + Z.of_nat k) mod G) (seq 0 (S count)) =
      [bgid] ++ map (fun k => (wrap32 (bgid + 1) mod G + Z.of_nat k) mod G)
                    (seq 0 count)).
    { cbn [seq map app]. rewrite Z.add_0_r, Z.mod_small by lia. f_equal.
      rewrite <- seq_shift, map_map. apply map_ext. intros k.
      rewrite wrap32_small by lia. rewrite Zplus_mod_idemp_l.
      f_equal. lia. }
    unfold first_index in Hex.
    destruct (Hex bgid Hb) as [H0|Hnone]; cbn [bgs bdev sb] in *.
    + rewrite H0. cbn [Z.eqb]. script_ok Hio.
      rest_of_loop IH Hio Hnext Hseq.
    + destruct (_ =? 0).
      * script_ok Hio.
        rest_of_loop IH Hio Hnext Hseq.
      * match goal with
        | |- context [if ?x <? ?x then ?x else ?x] =>
            replace (if x <? x then x else x) with x by (destruct (x <? x); reflexivity)
        end.
        rewrite (find_clr_none _ _ _ Hnone). script_ok Hio.
        rest_of_loop IH Hio Hnext Hseq.
Qed.

Lemma none_clr_sub bmap lo hi lo' hi' :
  lo <= lo' -> hi' <= hi -> none_clr bmap lo hi -> none_clr bmap lo' hi'.
Proof. intros H1 H2 H k Hk. apply H. lia. Qed.

(** C5.  With a device that does not fail: if the goal group has free
    count zero or has its goal bit set and no clear bit from the goal index
    to the end of the group, and every group has free count zero or no
    clear bit from the index of its first block to its end, then [alloc]
    returns [ENOSPC]; the three counters and the cache are unchanged; no
    buffer is handed back dirty; and the handles acquired are that of the
    goal group followed by those of [(goal_group + 1 + k) mod G] for
    [k = 0 .. G - 1]. *)
Theorem alloc_no_space st goal :
  io_ok (fs st) ->
  let f := fs st in
  let s := sb f in
  let G := ext4_block_group_cnt s in
  let g := ext4_balloc_get_bgid_of_block s goal in
  let i := Z.max (ext4_fs_baddr2_index_in_group s goal) (first_index s g) in
  let bm := bdev f (block_bitmap (bgs f g)) in
  0 < G < 2 ^ 32 ->
  0 < blocks_per_group s <= 2 ^ 32 - 64 ->
  g + 1 < 2 ^ 32 ->
  bg_free_blocks_count (bgs f g) = 0 \/
  (ext4_bmap_is_bit_clr bm i = false /\
   none_clr bm i (ext4_blocks_in_group_cnt s g)) ->
  (forall bg, 0 <= bg < G -> group_exhausted f bg (first_index s bg)) ->
  exists st' evs,
    ext4_balloc_alloc_block st goal = (ENOSPC, None, st') /\
    trace (fs st') = evs ++ trace f /\
    counters_unchanged st st' /\
    bdev (fs st') = bdev f /\
    no_dirty_store evs /\
    acquired evs =
      g :: map (fun k => (g + 1 + Z.of_nat k) mod G) (seq 0 (Z.to_nat G)).
Proof.
  destruct st as [[s b d l tr] ino dty]. unfold io_ok.
  cbn [fs io sb bgs bdev trace]. intros Hio HG Hbpg Hg Hgoal Hex.
  pose proof (index_in_group_range s goal ltac:(lia)) as Hi0.
  pose proof (index_in_group_range s
    (ext4_balloc_get_block_of_bgid s (ext4_balloc_get_bgid_of_block s goal))
    ltac:(lia)) as Hfi.
  set (g := ext4_balloc_get_bgid_of_block s goal) in *.
  assert (Hg0 : 0 <= g) by (apply wrap32_range).
  assert (Hb0 : 0 <= wrap32 (g + 1) mod ext4_block_group_cnt s
                < ext4_block_group_cnt s) by (apply Z.mod_pos_bound; lia).
  assert (Hseq :
    map (fun k => (wrap32 (g + 1) mod ext4_block_group_cnt s + Z.of_nat k)
                  mod ext4_block_group_cnt s)
        (seq 0 (Z.to_nat (ext4_block_group_cnt s))) =
    map (fun k => (g + 1 + Z.of_nat k) mod ext4_block_group_cnt s)
        (seq 0 (Z.to_nat (ext4_block_group_cnt s)))).
  { apply map_ext. intros k. rewrite wrap32_small by lia.
    apply Zplus_mod_idemp_l. }
  pose proof (other_groups_no_space s b d ino dty (ext4_block_group_cnt s)
                eq_refl HG Hex (Z.to_nat (ext4_block_group_cnt s))) as Hloop.
  unfold ext4_balloc_alloc_block, alloc_goal_failed. unfold_calls.
  fold g. script_ok Hio.
  assert (Hfin : forall l1 tr1 evs1,
    Forall (fun rc => rc = EOK) l1 ->
    tr1 = evs1 ++ tr -> no_dirty_store evs1 -> acquired evs1 = [g] ->
    exists st' evs,
      alloc_other_groups (Z.to_nat (ext4_block_group_cnt s))
        (mk_inode_ref (mk_fs s b d l tr) ino dty) (mk_fs s b d l1 tr1)
        (ext4_block_group_cnt s)
        (wrap32 (g + 1) mod ext4_block_group_cnt s)
      = (ENOSPC, None, st') /\
      trace (fs st') = evs ++ tr /\
      counters_unchanged (mk_inode_ref (mk_fs s b d l tr) ino dty) st' /\
      bdev (fs st') = d /\ no_dirty_store evs /\
      acquired evs =
        g :: map (fun k => (g + 1 + Z.of_nat k) mod ext4_block_group_cnt s)
                 (seq 0 (Z.to_nat (ext4_block_group_cnt s)))).
  { intros l1 tr1 evs1 Hl1 -> Hnd1 Hacq1.
    destruct (Hloop l1 (evs1 ++ tr) _ (mk_fs s b d l tr) Hl1 Hb0)
      as (l' & evs & Heq & Hnd & Hacq).
    rewrite Heq. eexists. exists (evs ++ evs1).
    split; [reflexivity|]. cbn [fs trace bdev].
    split; [apply app_assoc|]. split; [repeat split|]. split; [reflexivity|].
    split; [apply no_dirty_store_app; assumption|].
    rewrite acquired_app, Hacq1, Hacq, Hseq. reflexivity. }
  destruct Hgoal as [H0|[Hc Hnone]].
  - rewrite H0. cbn [Z.eqb]. script_ok Hio.
    eapply Hfin; [repeat apply ok_tail; exact Hio | split_log | no_dirty
                 | reflexivity].
  - destruct (_ =? 0).
    + script_ok Hio.
      eapply Hfin; [repeat apply ok_tail; exact Hio | split_log | no_dirty
                   | reflexivity].
    + unfold first_index in Hc, Hnone. fold g in Hc, Hnone.
      match goal with
      | |- context [if ?x <? ?y then ?y else ?x] =>
          replace (if x <? y then y else x) with (Z.max x y)
            by (destruct (Z.ltb_spec x y); lia)
      end.
      set (i := Z.max _ _) in *.
      assert (Hi : 0 <= i /\ i + 63 < 2 ^ 32) by (unfold i; lia).
      clearbody i.
      rewrite Hc.
      rewrite (wrap32_small (i + 63)), (land_mask63 (i + 63)) by lia.
      rewrite near_goal_scan_eq by lia.
      rewrite find_clr_none.
      2:{ eapply none_clr_sub; [| |exact Hnone]; [lia|].
          destruct (_ >? _) eqn:Hgt; lia. }
      rewrite (find_clr_none _ _ _ Hnone). script_ok Hio.
      eapply Hfin; [repeat apply ok_tail; exact Hio | split_log | no_dirty
                   | reflexivity].
Qed.


(** ** The effect of a successful operation *)

Lemma wrap64_idem x : wrap64 (wrap64 x) = wrap64 x.
Proof. unfold wrap64. apply Z.mod_mod. lia. Qed.

Lemma wrap32_idem x : wrap32 (wrap32 x) = wrap32 x.
Proof. unfold wrap32. apply Z.mod_mod. lia. Qed.

Lemma same_geometry_set_free s cnt :
  same_geometry s (ext4_sb_set_free_blocks_cnt s cnt).
Proof. repeat split. Qed.

(** The descriptor table after the stamp and the new free count. *)
Lemma bg_updated_intro (b : Z -> ext4_bgroup) g s bmap' free' :
  bg_updated b
    (alter (fun bg => mk_bgroup (block_bitmap bg) free'
                        (block_bitmap_csum_lo bg) (block_bitmap_csum_hi bg))
       g (alter (fun bg => ext4_balloc_set_bitmap_csum s bg bmap') g b))
    g s bmap' free'.
Proof.
  unfold bg_updated. rewrite !fn_lookup_alter. cbn.
  rewrite set_csum_bitmap, set_csum_lo, set_csum_hi.
  repeat split. intros g' Hne.
  rewrite !fn_lookup_alter_ne by congruence. reflexivity.
Qed.

(** Prove [op_effect] of an explicit final state. *)
Ltac solve_effect :=
  unfold op_effect;
  cbn [fs sb bgs bdev inode_blocks_count free_blocks_count];
  split; [repeat split|];
  split; [rewrite ?wrap64_idem; reflexivity|];
  split; [reflexivity|];
  split;
  [ rewrite ?fn_lookup_alter, ?set_csum_free, ?wrap32_idem, ?wrap32_wrap64;
    apply bg_updated_intro
  | rewrite ?wrap64_idem; reflexivity ].

(** Leave an error branch: the call returned [EOK]. *)
Ltac not_ok H :=
  injection H as H; intros; congruence.

Lemma free_block_effect st baddr st' :
  ext4_balloc_free_block st baddr = (EOK, st') ->
  let s := sb (fs st) in
  op_effect (fs st) (inode_blocks_count st) st'
    (ext4_balloc_get_bgid_of_block s baddr)
    (fun d => ext4_bmap_bit_clr d (ext4_fs_baddr2_index_in_group s baddr))
    1 (- (block_size s / 512)).
Proof.
  destruct st as [[s b d l tr] ino dty].
  unfold ext4_balloc_free_block. unfold_calls.
  repeat branch; intros H; try (not_ok H).
  injection H as _ <-. solve_effect.
Qed.

Lemma free_blocks_iter_effect st g first count :
  let s := sb (fs st) in
  let k := iter_free_cnt s first count in
  match free_blocks_iter st g first count with
  | IterReturn rc _ | IterBreak rc _ _ _ => rc <> EOK
  | IterNext st' first' count' =>
      first' = wrap64 (first + k) /\ count' = wrap32 (count - k) /\
      op_effect (fs st) (inode_blocks_count st) st' g
        (fun d => ext4_bmap_bits_free d
                    (ext4_fs_baddr2_index_in_group s first) k)
        k (- wrap32 (k * (block_size s / 512)))
  end.
Proof.
  destruct st as [[s b d l tr] ino dty].
  unfold free_blocks_iter, iter_free_cnt. unfold_calls.
  repeat branch; try assumption.
  split; [reflexivity|]. split; [reflexivity|]. solve_effect.
Qed.

Lemma try_alloc_block_effect st baddr was_free st' :
  ext4_balloc_try_alloc_block st baddr = (EOK, was_free, st') ->
  let s := sb (fs st) in
  let g := ext4_balloc_get_bgid_of_block s baddr in
  let i := ext4_fs_baddr2_index_in_group s baddr in
  let clr :=
    ext4_bmap_is_bit_clr (bdev (fs st) (block_bitmap (bgs (fs st) g))) i in
  was_free = Some clr /\
  if clr then
    op_effect (fs st) (inode_blocks_count st) st' g
      (fun d => ext4_bmap_bit_set d i) (-1) (block_size s / 512)
  else op_no_effect (fs st) (inode_blocks_count st) st'.
Proof.
  destruct st as [[s b d l tr] ino dty].
  unfold ext4_balloc_try_alloc_block. unfold_calls.
  destruct (ext4_bmap_is_bit_clr _ _); cbn [negb]; cbv iota;
    repeat branch; intros H; try (not_ok H); injection H as _ <- <-.
  - split; [reflexivity|]. solve_effect.
  - split; [reflexivity|]. repeat split.
Qed.

(** *** Allocation *)

Lemma alloc_success_effect f f0 ino0 goal l tr dty g j :
  alloc_claimed f goal g j ->
  alloc_post f ino0 goal
    (alloc_success (mk_inode_ref f0 ino0 dty)
       (mk_fs (sb f)
          (alter (fun bg => ext4_balloc_set_bitmap_csum (sb f) bg
                    (alter (fun d0 => ext4_bmap_bit_set d0 j)
                           (block_bitmap (bgs f g)) (bdev f)
                           (block_bitmap (bgs f g))))
                 g (bgs f))
          (alter (fun d0 => ext4_bmap_bit_set d0 j)
                 (block_bitmap (bgs f g)) (bdev f))
          l tr)
       (mk_bg_ref g false)
       (ext4_fs_index_in_group2_baddr (sb f) j g)).
Proof.
  intros Hc. destruct f as [s b d l1 tr1].
  unfold alloc_success, alloc_post. unfold_calls.
  intros _. exists g, j. split; [exact Hc|]. split; [reflexivity|].
  solve_effect.
Qed.

Lemma find_clr_range bmap lo hi j :
  ext4_bmap_bit_find_clr bmap lo hi = Some j ->
  lo <= j < hi /\ ext4_bmap_is_bit_clr bmap j = true.
Proof.
  intros H. pose proof (bit_find_clr_spec bmap lo hi) as S.
  rewrite H in S. destruct S as (Hr & Hc & _). auto.
Qed.

(** One turn of the wrap establishes [alloc_post] if the rest of the loop
    does. *)
Lemma alloc_try_group_post continue f0 ino goal dty s b d l tr bgid :
  0 < blocks_per_group s ->
  0 <= bgid < ext4_block_group_cnt s ->
  (forall l' tr', alloc_post (mk_fs s b d [] []) ino goal
                    (continue (mk_fs s b d l' tr'))) ->
  alloc_post (mk_fs s b d [] []) ino goal
    (alloc_try_group continue (mk_inode_ref f0 ino dty) (mk_fs s b d l tr)
                     bgid).
Proof.
  intros Hbpg Hb Hk.
  unfold alloc_try_group. unfold_calls.
  branch; [|intros H; congruence].
  destruct (_ =? 0) eqn:Hfree.
  { branch; [apply Hk | intros H; congruence]. }
  branch; [|intros H; congruence].
  match goal with
  | |- context [if ?x <? ?x then ?x else ?x] =>
      replace (if x <? x then x else x) with x
        by (destruct (x <? x); reflexivity)
  end.
  destruct (ext4_bmap_bit_find_clr _ _ _) as [j|] eqn:Hfind.
  - branch; [|intros H; congruence].
    apply find_clr_range in Hfind. destruct Hfind as [Hr Hc].
    pose proof (index_in_group_range s
      (ext4_balloc_get_block_of_bgid s bgid) Hbpg).
    apply (alloc_success_effect (mk_fs s b d [] [])).
    unfold alloc_claimed. cbn [sb bgs bdev].
    apply Z.eqb_neq in Hfree.
    split; [exact Hfree|]. split; [exact Hc|]. split; [lia|].
    right. right. split; [exact Hb | lia].
  - branch; [|intros H; congruence].
    branch; [apply Hk | intros H; congruence].
Qed.

Lemma alloc_other_groups_post f0 ino goal dty s b d G :
  0 < blocks_per_group s -> G = ext4_block_group_cnt s -> 0 < G ->
  forall count l tr bgid,
  0 <= bgid < G ->
  alloc_post (mk_fs s b d [] []) ino goal
    (alloc_other_groups count (mk_inode_ref f0 ino dty) (mk_fs s b d l tr)
                        G bgid).
Proof.
  intros Hbpg -> HG count.
  induction count as [|count IH]; intros l tr bgid Hb.
  - cbn [alloc_other_groups]. intros H. discriminate H.
  - cbn [alloc_other_groups]. apply alloc_try_group_post; [assumption..|].
    intros l' tr'. apply IH. apply Z.mod_pos_bound. lia.
Qed.

Lemma alloc_goal_failed_post f0 ino goal dty s b d l tr bg_ref block_group :
  0 < blocks_per_group s -> 0 < ext4_block_group_cnt s ->
  alloc_post (mk_fs s b d [] []) ino goal
    (alloc_goal_failed (mk_inode_ref f0 ino dty) (mk_fs s b d l tr)
                       bg_ref block_group).
Proof.
  intros Hbpg HG. unfold alloc_goal_failed. unfold_calls.
  branch; [|intros H; congruence].
  apply alloc_other_groups_post; try assumption; try reflexivity.
  apply Z.mod_pos_bound. lia.
Qed.

(** A successful allocation claimed one clear bit and has the effect of
    setting it. *)
Lemma alloc_block_effect st goal :
  0 < blocks_per_group (sb (fs st)) ->
  0 < ext4_block_group_cnt (sb (fs st)) ->
  alloc_post (fs st) (inode_blocks_count st) goal
             (ext4_balloc_alloc_block st goal).
Proof.
  destruct st as [[s b d l tr] ino dty]. cbn [fs sb inode_blocks_count].
  intros Hbpg HG.
  change (alloc_post (mk_fs s b d l tr)) with (alloc_post (mk_fs s b d [] [])).
  pose proof (index_in_group_range s goal Hbpg) as Hi0.
  pose proof (index_in_group_range s
    (ext4_balloc_get_block_of_bgid s (ext4_balloc_get_bgid_of_block s goal))
    Hbpg) as Hfi.
  unfold ext4_balloc_alloc_block. unfold_calls.
  branch; [|intros H; congruence].
  destruct (_ =? 0) eqn:Hfree; [apply alloc_goal_failed_post; assumption|].
  apply Z.eqb_neq in Hfree.
  branch; [|intros H; congruence].
  match goal with
  | |- context [if ?x <? ?y then ?y else ?x] =>
      replace (if x <? y then y else x) with (Z.max x y)
        by (destruct (Z.ltb_spec x y); lia)
  end.
  set (i := Z.max _ _) in *.
  assert (Hi : 0 <= i) by (unfold i; lia).
  destruct (ext4_bmap_is_bit_clr _ i) eqn:Hclr.
  { branch; [|intros H; congruence].
    apply (alloc_success_effect (mk_fs s b d [] [])).
    unfold alloc_claimed, first_index. cbn [sb bgs bdev]. fold i.
    split; [exact Hfree|]. split; [exact Hclr|]. split; [lia|]. left. auto. }
  destruct (near_goal_scan _ _ _) as [j|] eqn:Hnear.
  { branch; [|intros H; congruence].
    unfold near_goal_scan in Hnear.
    pose proof (find_clr_from_spec
      (Z.to_nat ((if Z.land (wrap32 (i + 63)) (wrap32 (Z.lnot 63))
                     >? ext4_blocks_in_group_cnt s
                          (ext4_balloc_get_bgid_of_block s goal)
                  then ext4_blocks_in_group_cnt s
                         (ext4_balloc_get_bgid_of_block s goal)
                  else Z.land (wrap32 (i + 63)) (wrap32 (Z.lnot 63)))
                 - wrap32 (i + 1)))
      (d (block_bitmap (b (ext4_balloc_get_bgid_of_block s goal))))
      (wrap32 (i + 1))) as Hspec.
    rewrite Hnear in Hspec. destruct Hspec as (Hr & Hc & _).
    pose proof (wrap32_range (i + 1)) as Hw.
    apply (alloc_success_effect (mk_fs s b d [] [])).
    unfold alloc_claimed, first_index. cbn [sb bgs bdev]. fold i.
    split; [exact Hfree|]. split; [exact Hc|]. split; [lia|].
    right. left. split; [reflexivity|].
    destruct (_ >? _) eqn:Hgt in Hr; lia. }
  destruct (ext4_bmap_bit_find_clr _ _ _) as [j|] eqn:Hfind.
  { branch; [|intros H; congruence].
    apply find_clr_range in Hfind. destruct Hfind as [Hr Hc].
    apply (alloc_success_effect (mk_fs s b d [] [])).
    unfold alloc_claimed, first_index. cbn [sb bgs bdev]. fold i.
    split; [exact Hfree|]. split; [exact Hc|]. split; [lia|].
    right. left. split; [reflexivity | lia]. }
  branch; [|intros H; congruence].
  apply alloc_goal_failed_post; assumption.
Qed.


(** ** Geometry of a range of blocks *)

Lemma reserved_range s : 0 <= reserved s <= 1.
Proof. unfold reserved. destruct (_ =? _); lia. Qed.

Lemma bgid_index_of s a :
  0 < blocks_per_group s -> reserved s <= a ->
  (a - reserved s) / blocks_per_group s < 2 ^ 32 ->
  ext4_balloc_get_bgid_of_block s a = (a - reserved s) / blocks_per_group s /\
  ext4_fs_baddr2_index_in_group s a = (a - reserved s) mod blocks_per_group s.
Proof.
  unfold reserved, ext4_balloc_get_bgid_of_block, ext4_fs_baddr2_index_in_group.
  intros Hbpg Ha Hlt.
  destruct (Z.eqb_spec (first_data_block s) 0); cbn [negb andb].
  - rewrite Z.sub_0_r in *. split; [|reflexivity].
    apply wrap32_small. split; [apply Z.div_pos; lia | exact Hlt].
  - destruct (Z.eqb_spec a 0); [lia|]. cbn [negb]. split; [|reflexivity].
    apply wrap32_small. split; [apply Z.div_pos; lia | exact Hlt].
Qed.

(** Quotient and remainder of an offset inside a group. *)
Lemma div_mod_in_group bpg q r t :
  0 < bpg -> 0 <= r -> 0 <= t -> r + t < bpg ->
  (bpg * q + r + t) / bpg = q /\ (bpg * q + r + t) mod bpg = r + t.
Proof.
  intros Hbpg Hr Ht Hlt.
  assert (Hq : (bpg * q + r + t) / bpg = q).
  { symmetry. apply (Z.div_unique _ _ q (r + t)); lia. }
  split; [exact Hq|].
  pose proof (Z.div_mod (bpg * q + r + t) bpg ltac:(lia)) as Hdm.
  rewrite Hq in Hdm. lia.
Qed.

(** The number of bits of one turn, where the bitmap is not wider than
    the 32-bit index arithmetic. *)
Lemma iter_free_cnt_min s first count :
  0 < blocks_per_group s <= 8 * block_size s -> 8 * block_size s < 2 ^ 32 ->
  iter_free_cnt s first count =
  Z.min count (8 * block_size s - ext4_fs_baddr2_index_in_group s first).
Proof.
  intros Hbpg HB. unfold iter_free_cnt.
  pose proof (index_in_group_range s first ltac:(lia)) as Hi.
  rewrite (wrap32_small (block_size s * 8)) by lia.
  rewrite wrap32_small by lia.
  replace (block_size s * 8) with (8 * block_size s) by lia.
  destruct (Z.gtb_spec count
              (8 * block_size s - ext4_fs_baddr2_index_in_group s first)); lia.
Qed.

(** One turn of the loop on a range that starts in group [g]: it takes
    the blocks of the range that lie in [g], and what remains, if anything,
    starts at the first block of group [g + 1]. *)
Lemma range_step s first count :
  let bpg := blocks_per_group s in
  let o := first - reserved s in
  let g := o / bpg in
  let gl := (o + count - 1) / bpg in
  let i := o mod bpg in
  let k := Z.min count (8 * block_size s - i) in
  0 < bpg <= 8 * block_size s ->
  0 <= o -> 1 <= count ->
  bpg = 8 * block_size s \/ g = gl ->
  k = Z.min count (bpg - i) /\ 1 <= k /\ i + k <= bpg /\ g <= gl /\
  ((count - k = 0 /\ gl = g) \/
   (1 <= count - k /\ (o + k) / bpg = g + 1 /\ (o + k) mod bpg = 0 /\
    g + 1 <= gl /\ bpg = 8 * block_size s)).
Proof.
  intros bpg o g gl i k Hbpg Ho Hc Hcase.
  pose proof (Z.div_mod o bpg ltac:(lia)) as Hdm.
  pose proof (Z.mod_pos_bound o bpg ltac:(lia)) as Hr.
  fold g in Hdm. fold i in Hdm, Hr.
  pose proof (Z.div_mod (o + count - 1) bpg ltac:(lia)) as Hdl.
  pose proof (Z.mod_pos_bound (o + count - 1) bpg ltac:(lia)) as Hrl.
  fold gl in Hdl.
  assert (Hgl : g <= gl).
  { apply Z.div_le_mono; lia. }
  assert (Hk : k = Z.min count (bpg - i)).
  { unfold k. destruct Hcase as [->|Heq]; [reflexivity|].
    assert (count <= bpg - i) by nia. lia. }
  split; [exact Hk|]. split; [lia|]. split; [lia|]. split; [exact Hgl|].
  destruct (Z.le_gt_cases count (bpg - i)) as [Hle|Hgt].
  - left. split; [lia|].
    assert (Hin : o + count - 1 = bpg * g + i + (count - 1)) by lia.
    unfold gl. rewrite Hin.
    apply (div_mod_in_group bpg g i (count - 1)); lia.
  - right. assert (Hk' : k = bpg - i) by lia.
    assert (Hstart : o + k = bpg * (g + 1) + 0 + 0) by lia.
    split; [lia|]. rewrite Hstart.
    destruct (div_mod_in_group bpg (g + 1) 0 0) as [Hq Hm]; try lia.
    rewrite Hq, Hm. split; [reflexivity|]. split; [reflexivity|].
    split.
    + assert (bpg * (g + 1) <= o + count - 1) by lia.
      assert (g + 1 <= (o + count - 1) / bpg).
      { apply Z.div_le_lower_bound; lia. }
      exact H0.
    + destruct Hcase as [H|H]; [exact H|].
      exfalso. assert (count <= bpg - i) by nia. lia.
Qed.

(** The blocks of the range that lie in the group of its first block. *)
Lemma range_in_first_group s first t :
  let bpg := blocks_per_group s in
  let o := first - reserved s in
  0 < bpg -> 0 <= o -> 0 <= t -> o mod bpg + t < bpg ->
  o / bpg < 2 ^ 32 ->
  ext4_balloc_get_bgid_of_block s (first + t) = o / bpg /\
  ext4_fs_baddr2_index_in_group s (first + t) = o mod bpg + t.
Proof.
  intros bpg o Hbpg Ho Ht Hlt Hg.
  pose proof (Z.div_mod o bpg ltac:(lia)) as Hdm.
  pose proof (Z.mod_pos_bound o bpg ltac:(lia)) as Hr.
  destruct (div_mod_in_group bpg (o / bpg) (o mod bpg) t) as [Hq Hm]; try lia.
  assert (Heq : first + t - reserved s = bpg * (o / bpg) + o mod bpg + t)
    by (unfold o in *; lia).
  destruct (bgid_index_of s (first + t)) as [Hb Hi]; try assumption.
  - unfold o in Ho. lia.
  - rewrite Heq. fold bpg. rewrite Hq. exact Hg.
  - rewrite Hb, Hi, Heq. fold bpg. rewrite Hq, Hm. auto.
Qed.


(** ** [ext4_balloc_free_blocks] *)

Lemma same_geometry_refl s : same_geometry s s.
Proof. repeat split. Qed.

Lemma same_geometry_trans s1 s2 s3 :
  same_geometry s1 s2 -> same_geometry s2 s3 -> same_geometry s1 s3.
Proof. unfold same_geometry. intuition congruence. Qed.

Lemma bgid_same_geometry s s' a :
  same_geometry s s' ->
  ext4_balloc_get_bgid_of_block s' a = ext4_balloc_get_bgid_of_block s a.
Proof.
  intros (H1 & H2 & _). unfold ext4_balloc_get_bgid_of_block.
  rewrite H1, H2. reflexivity.
Qed.

Lemma index_same_geometry s s' a :
  same_geometry s s' ->
  ext4_fs_baddr2_index_in_group s' a = ext4_fs_baddr2_index_in_group s a.
Proof.
  intros (H1 & H2 & _). unfold ext4_fs_baddr2_index_in_group.
  rewrite H1, H2. reflexivity.
Qed.

Lemma reserved_same_geometry s s' :
  same_geometry s s' -> reserved s' = reserved s.
Proof. intros (H1 & _). unfold reserved. rewrite H1. reflexivity. Qed.

Lemma sectors_bound B k :
  0 < B <= 65536 -> 0 <= k <= 8 * B -> 0 <= k * (B / 512) < 2 ^ 32.
Proof.
  intros HB Hk.
  assert (0 <= B / 512) by (apply Z.div_pos; lia).
  assert (B / 512 <= 128) by (apply Z.div_le_upper_bound; lia).
  nia.
Qed.

(** One turn of the loop with a device that does not fail. *)
Lemma free_blocks_iter_ok st g first count :
  io_ok (fs st) ->
  let f := fs st in
  let s := sb f in
  let a := block_bitmap (bgs f g) in
  let k := iter_free_cnt s first count in
  exists st',
    free_blocks_iter st g first count =
      IterNext st' (wrap64 (first + k)) (wrap32 (count - k)) /\
    io_ok (fs st') /\
    trace (fs st') =
      [EvPutRef g true EOK; EvBlockSet a true EOK; EvBlockGet a EOK;
       EvGetRef g EOK] ++ trace f /\
    op_effect f (inode_blocks_count st) st' g
      (fun d => ext4_bmap_bits_free d (ext4_fs_baddr2_index_in_group s first) k)
      k (- wrap32 (k * (block_size s / 512))).
Proof.
  destruct st as [[s b d l tr] ino dty]. unfold io_ok.
  cbn [fs io sb bgs bdev trace inode_blocks_count]. intros Hio.
  unfold free_blocks_iter, iter_free_cnt. unfold_calls. script_ok Hio.
  eexists. split; [reflexivity|]. split.
  { unfold io_ok. cbn [fs io]. repeat apply ok_tail. exact Hio. }
  split; [reflexivity|]. solve_effect.
Qed.

Lemma wrap64_add_l a b : wrap64 (wrap64 a + b) = wrap64 (a + b).
Proof. unfold wrap64. apply Zplus_mod_idemp_l. Qed.

Lemma wrap64_sub_l a b : wrap64 (wrap64 a - b) = wrap64 (a - b).
Proof. unfold wrap64. apply Zminus_mod_idemp_l. Qed.

Lemma seq_from g n :
  g :: map (fun k => g + 1 + Z.of_nat k) (seq 0 n) =
  map (fun k => g + Z.of_nat k) (seq 0 (S n)).
Proof.
  cbn [seq map]. rewrite Z.add_0_r. f_equal.
  rewrite <- seq_shift, map_map. apply map_ext. intros k. lia.
Qed.

(** [lia] after the local definitions are unfolded. *)
Ltac zlia := repeat match goal with x := _ |- _ => subst x end; lia.

Lemma free_blocks_loop_done fuel rc st bgf bgl first count :
  (bgf <=? bgl) = false ->
  free_blocks_loop fuel rc st bgf bgl first count =
  free_blocks_exit rc st count.
Proof.
  intros H. destruct fuel; cbn [free_blocks_loop]; rewrite H; reflexivity.
Qed.

(** The loop over the groups of a range, with a device that does not
    fail: [n] groups follow the group [g] of the current [first]. *)
Lemma free_blocks_loop_ok n : forall st g first count rc0 fuel,
  let s := sb (fs st) in
  let bpg := blocks_per_group s in
  let o := first - reserved s in
  let gl := (o + count - 1) / bpg in
  io_ok (fs st) ->
  0 < bpg <= 8 * block_size s -> 0 < block_size s <= 65536 ->
  0 <= o -> 1 <= count < 2 ^ 32 -> first + count <= 2 ^ 64 ->
  o / bpg = g -> gl < 2 ^ 32 - 1 -> Z.of_nat n = gl - g ->
  bpg = 8 * block_size s \/ n = O ->
  (n < fuel)%nat ->
  exists st' evs,
    free_blocks_loop fuel rc0 st g gl first count = Returned EOK st' /\
    trace (fs st') = evs ++ trace (fs st) /\
    acquired evs = map (fun k => g + Z.of_nat k) (seq 0 (S n)) /\
    range_freed st st' first count.
Proof.
  induction n as [|n IH];
    intros st g first count rc0 fuel s bpg o gl Hio Hbpg HB Ho Hc Hend Hg Hgl
           Hn Hcase Hfuel.
  all: destruct fuel as [|fuel]; [zlia|].
  all: assert (Hcase' : bpg = 8 * block_size s \/ o / bpg = gl)
         by (destruct Hcase; [left; assumption | right; zlia]).
  all: pose proof (range_step s first count Hbpg Ho ltac:(zlia) Hcase')
         as (Hk & Hk1 & Hik & Hggl & Hstep).
  all: fold bpg o gl in Hk, Hk1, Hik, Hggl, Hstep.
  all: rewrite Hg in Hstep, Hggl.
  all: assert (Hg0 : 0 <= g) by (rewrite <- Hg; apply Z.div_pos; zlia).
  all: pose proof (reserved_range s) as Hres01.
  all: pose proof (index_in_group_range s first ltac:(zlia)) as Hi.
  all: destruct (bgid_index_of s first ltac:(zlia) ltac:(unfold o in Ho; zlia))
         as [Hbg Hidx]; [fold o bpg; zlia|].
  all: fold o bpg in Hbg, Hidx.
  all: destruct (free_blocks_iter_ok st g first count Hio)
         as (st1 & Hiter & Hio1 & Htr1 & Heff).
  all: fold s in Hiter, Heff.
  all: rewrite iter_free_cnt_min in Hiter, Heff by (fold bpg; zlia).
  all: rewrite Hidx in Hiter, Heff.
  all: set (i := o mod bpg) in *.
  all: set (k := Z.min count (8 * block_size s - i)) in *.
  all: assert (Hgle : (g <=? gl) = true) by (apply Z.leb_le; zlia).
  all: cbn [free_blocks_loop]; rewrite Hgle, Hiter.
  all: destruct Heff as (Hgeo & Hfree & Hdev & Hbg' & Hino).
  all: destruct Hbg' as (Hother & Hbm & _).
  all: assert (Hsec : wrap32 (k * (block_size s / 512)) = k * (block_size s / 512))
         by (apply wrap32_small, sectors_bound; zlia).
  all: assert (Hclr1 : forall t, 0 <= t < k ->
         ext4_bmap_is_bit_clr
           (bdev (fs st1)
              (block_bitmap (bgs (fs st) (ext4_balloc_get_bgid_of_block s (first + t)))))
           (ext4_fs_baddr2_index_in_group s (first + t)) = true).
  1,3: intros t Ht;
       destruct (range_in_first_group s first t) as [Hb Hi'];
         try (fold bpg o; fold i; zlia);
       fold bpg o in Hb, Hi'; fold i in Hi'; rewrite Hb, Hi', Hg, Hdev;
       rewrite fn_lookup_alter, is_clr_after_bits_free by zlia;
       apply orb_true_iff; left; apply andb_true_iff;
       split; [apply Z.leb_le | apply Z.ltb_lt]; zlia.
  all: assert (Hmono1 : forall a j, 0 <= j ->
         ext4_bmap_is_bit_clr (bdev (fs st) a) j = true ->
         ext4_bmap_is_bit_clr (bdev (fs st1) a) j = true).
  1,3: intros a j Hj Hc0; rewrite Hdev;
       destruct (decide (block_bitmap (bgs (fs st) g) = a)) as [<-|Hne];
       [ rewrite fn_lookup_alter, is_clr_after_bits_free by zlia;
         rewrite Hc0; apply orb_true_r
       | rewrite fn_lookup_alter_ne by assumption; exact Hc0 ].
  all: assert (Hbm1 : forall h,
         block_bitmap (bgs (fs st1) h) = block_bitmap (bgs (fs st) h)).
  1,3: intros h; destruct (decide (h = g)) as [->|Hne];
       [exact Hbm | rewrite Hother by assumption; reflexivity].
  - (* the range ends in this group *)
    destruct Hstep as [[Hrest Hlast]|Hmore]; [|zlia].
    rewrite (wrap32_small (g + 1)) by zlia.
    rewrite free_blocks_loop_done by (apply Z.leb_gt; zlia).
    unfold free_blocks_exit.
    replace (wrap32 (count - k)) with 0 by (rewrite Hrest; reflexivity).
    cbn [Z.eqb]. exists st1. eexists. split; [reflexivity|].
    split; [exact Htr1|]. split; [cbn; f_equal; zlia|].
    unfold range_freed. fold s.
    split; [exact Hgeo|]. split; [exact Hbm1|].
    assert (k = count) by zlia.
    split; [rewrite Hfree; f_equal; zlia|].
    split; [rewrite Hino, Hsec; f_equal; zlia|].
    split; [exact Hmono1|].
    intros t Ht. apply Hclr1. zlia.
  - (* the range goes on in the next group *)
    destruct Hstep as [[Hrest Hlast]|Hmore]; [zlia|].
    destruct Hmore as (Hrest & Hq & Hm & Hnext & H8).
    rewrite (wrap32_small (g + 1)) by zlia.
    rewrite (wrap64_small (first + k)), (wrap32_small (count - k)) by zlia.
    pose proof (reserved_same_geometry _ _ Hgeo) as Hres.
    destruct Hgeo as (G1 & G2 & G3 & G4 & G5 & G6 & G7 & G8).
    assert (Hgeo : same_geometry s (sb (fs st1))) by (repeat split; assumption).
    destruct (IH st1 (g + 1) (first + k) (count - k) EOK fuel)
      as (st' & evs & Hloop & Htr & Hacq & Hpost).
    + exact Hio1.
    + rewrite G2, G4. exact Hbpg.
    + rewrite G4. exact HB.
    + rewrite Hres. fold o. zlia.
    + zlia.
    + zlia.
    + rewrite Hres, G2, <- Hq. f_equal; zlia.
    + rewrite Hres, G2.
      replace ((first + k - reserved (sb (fs st)) + (count - k) - 1)
               / blocks_per_group (sb (fs st))) with gl
        by (unfold gl; f_equal; zlia).
      exact Hgl.
    + rewrite Hres, G2.
      replace ((first + k - reserved (sb (fs st)) + (count - k) - 1)
               / blocks_per_group (sb (fs st))) with gl
        by (unfold gl; f_equal; zlia).
      zlia.
    + left. rewrite G2, G4. exact H8.
    + zlia.
    + rewrite Hres, G2 in Hloop.
      replace ((first + k - reserved (sb (fs st)) + (count - k) - 1)
               / blocks_per_group (sb (fs st))) with gl in Hloop
        by (unfold gl; f_equal; zlia).
      rewrite Hloop.
      exists st'. eexists. split; [reflexivity|].
      split; [rewrite Htr, Htr1; apply app_assoc|].
      split.
      { rewrite acquired_app, Hacq. cbn [acquired app].
        apply seq_from. }
      destruct Hpost as (Pg & Pbm & Pfree & Pino & Pmono & Pclr).
      unfold range_freed. fold s.
      split; [eapply same_geometry_trans; eassumption|].
      split; [intros h; rewrite Pbm; apply Hbm1|].
      split.
      { rewrite Pfree, Hfree, wrap64_add_l. f_equal. zlia. }
      split.
      { rewrite Pino, Hino, Hsec, G4, wrap64_sub_l. f_equal. zlia. }
      split; [intros a j Hj Hc0; apply Pmono; [exact Hj|]; apply Hmono1;
              assumption|].
      intros t Ht. destruct (Z.lt_ge_cases t k) as [Hlt|Hge].
      * apply Pmono; [apply index_in_group_range; zlia|]. apply Hclr1. zlia.
      * specialize (Pclr (t - k) ltac:(zlia)).
        rewrite (bgid_same_geometry _ _ _ Hgeo) in Pclr.
        rewrite (index_same_geometry _ _ _ Hgeo) in Pclr.
        rewrite Hbm1 in Pclr.
        replace (first + k + (t - k)) with (first + t) in Pclr by zlia.
        exact Pclr.
Qed.

(** C6 (code defect).  A turn of [free_range] takes its room from the size
    of the bitmap block, [8 * B - index], not from the number of blocks of
    the group.  On [sb_narrow] a group has 32 blocks and its bitmap block 64
    bits, and flex_bg is on, as the claim asks.  Freeing the 4 blocks from
    block 30 returns [EOK]: the turn for group 0 clears bits 30..33 of the
    bitmap of group 0, the padding bits 32 and 33 among them, and the turn
    for group 1 clears nothing, so that the bit of block 32, bit 0 of group
    1, is still set. *)
Lemma free_range_closure_fails :
  feature_flex_bg sb_narrow = true /\
  ext4_balloc_get_bgid_of_block sb_narrow 32 = 1 /\
  ext4_fs_baddr2_index_in_group sb_narrow 32 = 0 /\
  match ext4_balloc_free_blocks 2 (inode_narrow []) 30 4 with
  | Returned rc st' =>
      rc = EOK /\
      ext4_bmap_is_bit_clr
        (bdev (fs st') (block_bitmap (bgs (fs st') 1))) 0 = false /\
      ext4_bmap_is_bit_clr
        (bdev (fs st') (block_bitmap (bgs (fs st') 0))) 33 = true
  | _ => False
  end.
Proof. vm_compute. intuition congruence. Qed.

(** [free_range] where a bitmap block has no padding bits to clear.  With
    a device that does not fail:

    - one turn of the loop for group [g] clears in the bitmap of [g] the
      [k] bits from the index of [first], [k] being the smaller of the
      remaining count and [8 * B] less that index, stamps and stores the
      bitmap, adds [k] to the superblock and the group free counts, takes
      [k * (B / 512)] from the inode block count, and goes on with
      [first + k] and [count - k];

    - a call whose range lies in one group, or crosses groups on a
      filesystem with flex_bg where a group has as many blocks as its bitmap
      block has bits, returns [EOK] with the remaining count 0 after one turn
      for each group from that of [first] to that of [first + count - 1], and
      then the bit of every block of the range is clear. *)
Theorem free_blocks_spec :
  (forall st g first count,
     io_ok (fs st) ->
     let s := sb (fs st) in
     let i := ext4_fs_baddr2_index_in_group s first in
     let k := Z.min count (8 * block_size s - i) in
     0 < blocks_per_group s <= 8 * block_size s ->
     0 < block_size s <= 65536 -> 0 <= count ->
     exists st',
       free_blocks_iter st g first count =
         IterNext st' (wrap64 (first + k)) (wrap32 (count - k)) /\
       op_effect (fs st) (inode_blocks_count st) st' g
         (fun d => ext4_bmap_bits_free d i k) k
         (- (k * (block_size s / 512)))) /\
  (forall st first count fuel,
     io_ok (fs st) ->
     let s := sb (fs st) in
     let bpg := blocks_per_group s in
     let g_first := ext4_balloc_get_bgid_of_block s first in
     let g_last := ext4_balloc_get_bgid_of_block s (first + count - 1) in
     0 < bpg <= 8 * block_size s -> 0 < block_size s <= 65536 ->
     reserved s <= first -> 1 <= count < 2 ^ 32 -> first + count <= 2 ^ 64 ->
     (first - reserved s + count - 1) / bpg < 2 ^ 32 - 1 ->
     g_first = g_last \/
     (feature_flex_bg s = true /\ bpg = 8 * block_size s) ->
     (Z.to_nat (g_last - g_first) < fuel)%nat ->
     exists st' evs,
       ext4_balloc_free_blocks fuel st first count = Returned EOK st' /\
       trace (fs st') = evs ++ trace (fs st) /\
       acquired evs =
         map (fun n => g_first + Z.of_nat n)
             (seq 0 (S (Z.to_nat (g_last - g_first)))) /\
       range_freed st st' first count).
Proof.
  split.
  - intros st g first count Hio s i k Hbpg HB Hc.
    pose proof (index_in_group_range s first ltac:(lia)) as Hi.
    destruct (free_blocks_iter_ok st g first count Hio)
      as (st' & Hiter & _ & _ & Heff).
    fold s in Hiter, Heff.
    rewrite iter_free_cnt_min in Hiter, Heff by lia.
    fold i in Hiter, Heff. fold k in Hiter, Heff.
    rewrite (wrap32_small (k * _)) in Heff
      by (apply sectors_bound; [assumption | zlia]).
    exists st'. split; assumption.
  - intros st first count fuel Hio s bpg g_first g_last Hbpg HB Hres Hc Hend
           Hlast Hcase Hfuel.
    pose proof (reserved_range s) as Hres01.
    set (o := first - reserved s) in *.
    assert (Ho : 0 <= o) by zlia.
    assert (Hq0 : 0 <= o / bpg) by (apply Z.div_pos; zlia).
    assert (Hqle : o / bpg <= (o + count - 1) / bpg)
      by (apply Z.div_le_mono; zlia).
    destruct (bgid_index_of s first) as [Hgf _]; [zlia | zlia | |].
    { fold o bpg. zlia. }
    destruct (bgid_index_of s (first + count - 1)) as [Hgl _];
      [zlia | zlia | |].
    { replace (first + count - 1 - reserved s) with (o + count - 1) by zlia.
      fold bpg. zlia. }
    replace (first + count - 1 - reserved s) with (o + count - 1) in Hgl
      by zlia.
    fold o bpg in Hgf. fold bpg in Hgl. fold g_first in Hgf. fold g_last in Hgl.
    unfold ext4_balloc_free_blocks.
    rewrite (wrap64_small (first + count - 1)) by zlia.
    fold s. fold g_first g_last.
    replace (negb (feature_flex_bg s) && negb (g_first =? g_last)) with false.
    2:{ destruct Hcase as [->|[-> _]]; [|reflexivity].
        rewrite Z.eqb_refl. symmetry. apply andb_false_r. }
    destruct (free_blocks_loop_ok (Z.to_nat (g_last - g_first)) st g_first
                first count EOK fuel) as (st' & evs & Hloop & Hrest);
      fold s; fold bpg; fold o; try assumption; try zlia.
    exists st', evs. split; [|exact Hrest].
    rewrite <- Hloop. f_equal. exact Hgl.
Qed.


(** ** The inode block count over a sequence of calls *)

Lemma geometry_ok_same s s' :
  same_geometry s s' -> geometry_ok s -> geometry_ok s'.
Proof.
  intros (H1 & H2 & H3 & H4 & _) (Hb & HB & HG).
  unfold geometry_ok, ext4_block_group_cnt in *. rewrite H2, H3, H4. auto.
Qed.

Lemma iter_free_cnt_range s first count :
  0 < blocks_per_group s <= 8 * block_size s -> 0 < block_size s <= 65536 ->
  0 <= count ->
  0 <= iter_free_cnt s first count <= count /\
  iter_free_cnt s first count <= 8 * block_size s.
Proof.
  intros Hbpg HB Hc. rewrite iter_free_cnt_min by lia.
  pose proof (index_in_group_range s first ltac:(lia)). lia.
Qed.

(** The loop of [free_range], when it returns [EOK], took [count] blocks
    of sectors from the inode. *)
Lemma free_blocks_loop_inode fuel : forall rc0 st bgf bgl first count st',
  geometry_ok (sb (fs st)) -> 0 <= count < 2 ^ 32 ->
  0 <= inode_blocks_count st < 2 ^ 64 ->
  free_blocks_loop fuel rc0 st bgf bgl first count = Returned EOK st' ->
  inode_blocks_count st' =
    wrap64 (inode_blocks_count st - count * (block_size (sb (fs st)) / 512)) /\
  same_geometry (sb (fs st)) (sb (fs st')).
Proof.
  assert (Hexit : forall rc0 st count st',
    free_blocks_exit rc0 st count = Returned EOK st' ->
    rc0 = EOK /\ count = 0 /\ st' = st).
  { intros rc0 st count st'. unfold free_blocks_exit.
    destruct (Z.eqb_spec count 0); [|discriminate].
    intros H. injection H as -> ->. auto. }
  induction fuel as [|fuel IH];
    intros rc0 st bgf bgl first count st' Hgeo Hc Hino;
    cbn [free_blocks_loop]; destruct (bgf <=? bgl).
  - discriminate.
  - intros H. apply Hexit in H. destruct H as (_ & -> & ->).
    split; [|apply same_geometry_refl].
    rewrite Z.mul_0_l, Z.sub_0_r. symmetry. apply wrap64_small. assumption.
  - pose proof (free_blocks_iter_effect st bgf first count) as Heff.
    cbv zeta in Heff. destruct Hgeo as (Hbpg & HB & HG).
    destruct (iter_free_cnt_range (sb (fs st)) first count Hbpg HB
                ltac:(lia)) as [Hk Hk8].
    set (k := iter_free_cnt (sb (fs st)) first count) in *.
    destruct (free_blocks_iter st bgf first count)
      as [rc st1|rc st1 first1 count1|st1 first1 count1].
    + intros H. injection H as H _. contradiction.
    + intros H. apply Hexit in H. destruct H as [H _]. contradiction.
    + destruct Heff as (-> & -> & Hgeo1 & _ & _ & _ & Hino1).
      intros H. apply IH in H.
      * destruct H as [Hfin Hgeo2]. split.
        -- rewrite Hfin, Hino1.
           destruct Hgeo1 as (_ & _ & _ & -> & _).
           rewrite (wrap32_small (k * _)) by (apply sectors_bound; lia).
           rewrite (wrap32_small (count - k)) by lia.
           rewrite wrap64_sub_l. f_equal. lia.
        -- eapply same_geometry_trans; eassumption.
      * eapply geometry_ok_same; [eassumption|].
        exact (conj Hbpg (conj HB HG)).
      * rewrite wrap32_small by lia. lia.
      * rewrite Hino1. apply wrap64_range.
  - intros H. apply Hexit in H. destruct H as (_ & -> & ->).
    split; [|apply same_geometry_refl].
    rewrite Z.mul_0_l, Z.sub_0_r. symmetry. apply wrap64_small. assumption.
Qed.

(** What one successful call does to the inode block count. *)
Lemma run_call_inode c fuel st n st' :
  geometry_ok (sb (fs st)) -> call_typed c ->
  0 <= inode_blocks_count st < 2 ^ 64 ->
  run_call c fuel st = Some (n, st') ->
  inode_blocks_count st' =
    wrap64 (inode_blocks_count st + n * (block_size (sb (fs st)) / 512)) /\
  same_geometry (sb (fs st)) (sb (fs st')).
Proof.
  intros Hgeo Hty Hino. pose proof Hgeo as (Hbpg & HB & HG).
  destruct c as [goal|baddr|first count|baddr]; cbn [run_call].
  - pose proof (alloc_block_effect st goal ltac:(lia) HG) as Hpost.
    destruct (ext4_balloc_alloc_block st goal) as [[rc fb] st1].
    destruct (Z.eqb_spec rc EOK) as [->|]; [|discriminate].
    intros H. injection H as <- <-.
    destruct (Hpost eq_refl) as (g & j & _ & _ & Hg & _ & _ & _ & Hi).
    split; [|exact Hg]. rewrite Hi. f_equal; lia.
  - destruct (ext4_balloc_free_block st baddr) as [rc st1] eqn:Hrun.
    destruct (Z.eqb_spec rc EOK) as [->|]; [|discriminate].
    intros H. injection H as <- <-.
    destruct (free_block_effect _ _ _ Hrun) as (Hg & _ & _ & _ & Hi).
    split; [|exact Hg]. rewrite Hi. f_equal; lia.
  - destruct (ext4_balloc_free_blocks fuel st first count)
      as [rc st1| |] eqn:Hrun; try discriminate.
    destruct (Z.eqb_spec rc EOK) as [->|]; [|discriminate].
    intros H. injection H as <- <-.
    unfold ext4_balloc_free_blocks in Hrun.
    destruct (_ && _); [discriminate|].
    apply free_blocks_loop_inode in Hrun; [|assumption|apply Hty|assumption].
    destruct Hrun as [Hi Hg]. split; [|exact Hg]. rewrite Hi. f_equal; lia.
  - destruct (ext4_balloc_try_alloc_block st baddr) as [[rc wf] st1] eqn:Hrun.
    destruct (Z.eqb_spec rc EOK) as [->|]; [|discriminate].
    intros H. injection H as <- <-.
    destruct (try_alloc_block_effect _ _ _ _ Hrun) as [-> Heff].
    destruct (ext4_bmap_is_bit_clr _ _).
    + destruct Heff as (Hg & _ & _ & _ & Hi).
      split; [|exact Hg]. rewrite Hi. f_equal; lia.
    + destruct Heff as (Hs & _ & _ & Hi). rewrite Hs, Hi.
      split; [|apply same_geometry_refl].
      rewrite Z.mul_0_l, Z.add_0_r. symmetry. apply wrap64_small. assumption.
Qed.

(** C8.  Over any sequence of successful calls on one inode, the inode
    block count moves by [B / 512] sectors for each block allocated
    ([alloc], or [try_one] that found the block free) and by [- B / 512]
    for each block freed ([free_one], or each of the [count] blocks of
    [free_range]), in 64-bit arithmetic; where the block size is a multiple
    of 512 and the count does not wrap, 512 times its change is the block
    size times the net number of blocks allocated. *)
Theorem inode_blocks_coherent cs : forall st net st',
  geometry_ok (sb (fs st)) ->
  Forall (fun c => call_typed (fst (fst c))) cs ->
  0 <= inode_blocks_count st < 2 ^ 64 ->
  run_calls cs st = Some (net, st') ->
  let B := block_size (sb (fs st)) in
  inode_blocks_count st' = wrap64 (inode_blocks_count st + net * (B / 512)) /\
  (B mod 512 = 0 ->
   0 <= inode_blocks_count st + net * (B / 512) < 2 ^ 64 ->
   (inode_blocks_count st' - inode_blocks_count st) * 512 = B * net).
Proof.
  assert (Hmain : forall st net st',
    geometry_ok (sb (fs st)) ->
    Forall (fun c => call_typed (fst (fst c))) cs ->
    0 <= inode_blocks_count st < 2 ^ 64 ->
    run_calls cs st = Some (net, st') ->
    inode_blocks_count st' =
      wrap64 (inode_blocks_count st + net * (block_size (sb (fs st)) / 512))).
  { induction cs as [|[[c script] fuel] cs IH];
      intros st net st' Hgeo Hty Hino; cbn [run_calls].
    - intros H. injection H as <- <-. rewrite Z.mul_0_l, Z.add_0_r.
      symmetry. apply wrap64_small. assumption.
    - inversion Hty as [|? ? Hc Hrest]; subst. cbn [fst] in Hc.
      destruct (run_call c fuel (set_script st script)) as [[n st1]|] eqn:Hrun;
        [|discriminate].
      destruct (run_calls cs st1) as [[m st2]|] eqn:Hruns; [|discriminate].
      intros H. injection H as <- <-.
      apply run_call_inode in Hrun; try assumption.
      destruct Hrun as [Hi1 Hg1]. cbn [set_script fs sb inode_blocks_count] in *.
      apply IH in Hruns.
      + rewrite Hruns, Hi1. destruct Hg1 as (_ & _ & _ & -> & _).
        rewrite wrap64_add_l. f_equal; lia.
      + eapply geometry_ok_same; eassumption.
      + assumption.
      + rewrite Hi1. apply wrap64_range. }
  intros st net st' Hgeo Hty Hino Hrun B.
  specialize (Hmain st net st' Hgeo Hty Hino Hrun). fold B in Hmain.
  split; [exact Hmain|]. intros Hmod Hrange.
  rewrite Hmain, wrap64_small by assumption.
  pose proof (Z.div_mod B 512 ltac:(lia)) as Hdm. rewrite Hmod in Hdm. nia.
Qed.


(** ** Counting clear bits and summing free counts *)

Lemma count_clr_nat_range bmap n : 0 <= count_clr_nat bmap n <= Z.of_nat n.
Proof.
  induction n as [|n IH]; cbn [count_clr_nat]; [lia|].
  destruct (ext4_bmap_is_bit_clr _ _); lia.
Qed.

Lemma count_clr_range bmap n : 0 <= n -> 0 <= count_clr bmap n <= n.
Proof.
  intros Hn. unfold count_clr.
  pose proof (count_clr_nat_range bmap (Z.to_nat n)). lia.
Qed.

(** Clearing the bits of [[lo, lo + k)], all of them set before, adds to
    the count the number of them that lie below [n]. *)
Lemma count_clr_nat_cleared b b' lo k n :
  0 <= lo -> 0 <= k ->
  (forall j, 0 <= j < Z.of_nat n ->
     ext4_bmap_is_bit_clr b' j =
     ((lo <=? j) && (j <? lo + k)) || ext4_bmap_is_bit_clr b j) ->
  (forall j, lo <= j < lo + k -> ext4_bmap_is_bit_clr b j = false) ->
  count_clr_nat b' n =
  count_clr_nat b n + Z.max 0 (Z.min (Z.of_nat n) (lo + k) - lo).
Proof.
  intros Hlo Hk Hnew Hset.
  induction n as [|n IH]; cbn [count_clr_nat]; [lia|].
  rewrite IH by (intros j Hj; apply Hnew; lia).
  rewrite (Hnew (Z.of_nat n)) by lia.
  destruct (Z.leb_spec lo (Z.of_nat n)), (Z.ltb_spec (Z.of_nat n) (lo + k));
    cbn [andb orb]; try rewrite Hset by lia;
    try destruct (ext4_bmap_is_bit_clr b (Z.of_nat n)); lia.
Qed.

(** Setting bit [i], clear before, takes one from the count if [i] lies
    below [n]. *)
Lemma count_clr_nat_set b b' i n :
  0 <= i ->
  (forall j, 0 <= j < Z.of_nat n ->
     ext4_bmap_is_bit_clr b' j =
     negb (j =? i) && ext4_bmap_is_bit_clr b j) ->
  ext4_bmap_is_bit_clr b i = true ->
  count_clr_nat b' n =
  count_clr_nat b n - (if i <? Z.of_nat n then 1 else 0).
Proof.
  intros Hi Hnew Hclr.
  induction n as [|n IH]; cbn [count_clr_nat].
  - destruct (Z.ltb_spec i (Z.of_nat 0)); lia.
  - rewrite IH by (intros j Hj; apply Hnew; lia).
    rewrite (Hnew (Z.of_nat n)) by lia.
    destruct (Z.eqb_spec (Z.of_nat n) i) as [Heq|Hne]; cbn [negb andb].
    + assert (Hc' : ext4_bmap_is_bit_clr b (Z.of_nat n) = true)
        by (rewrite Heq; exact Hclr).
      rewrite Hc'.
      destruct (Z.ltb_spec i (Z.of_nat n)), (Z.ltb_spec i (Z.of_nat (S n)));
        lia.
    + destruct (ext4_bmap_is_bit_clr b (Z.of_nat n));
      destruct (Z.ltb_spec i (Z.of_nat n)), (Z.ltb_spec i (Z.of_nat (S n)));
        lia.
Qed.

Lemma sum_free_updated (b b' : Z -> ext4_bgroup) g d n :
  0 <= g ->
  (forall g', g' <> g -> b' g' = b g') ->
  bg_free_blocks_count (b' g) = bg_free_blocks_count (b g) + d ->
  sum_free b' n = sum_free b n + (if g <? Z.of_nat n then d else 0).
Proof.
  intros Hg Hother Hfree.
  induction n as [|n IH]; cbn [sum_free].
  - destruct (Z.ltb_spec g (Z.of_nat 0)); lia.
  - rewrite IH. destruct (Z.eq_dec (Z.of_nat n) g) as [Heq|Hne].
    + subst g. rewrite Hfree.
      destruct (Z.ltb_spec (Z.of_nat n) (Z.of_nat n)),
        (Z.ltb_spec (Z.of_nat n) (Z.of_nat (S n))); lia.
    + rewrite (Hother _ Hne).
      destruct (Z.ltb_spec g (Z.of_nat n)), (Z.ltb_spec g (Z.of_nat (S n)));
        lia.
Qed.

Lemma sum_free_bound (b : Z -> ext4_bgroup) M n :
  0 <= M ->
  (forall g, 0 <= g < Z.of_nat n -> 0 <= bg_free_blocks_count (b g) <= M) ->
  0 <= sum_free b n <= Z.of_nat n * M.
Proof.
  intros HM Hb. induction n as [|n IH]; cbn [sum_free]; [lia|].
  specialize (IH ltac:(intros g Hg; apply Hb; lia)).
  specialize (Hb (Z.of_nat n) ltac:(lia)). nia.
Qed.

Lemma sum_free_ge (b : Z -> ext4_bgroup) g n :
  0 <= g < Z.of_nat n ->
  (forall g', 0 <= g' < Z.of_nat n -> 0 <= bg_free_blocks_count (b g')) ->
  bg_free_blocks_count (b g) <= sum_free b n.
Proof.
  intros Hg Hb. induction n as [|n IH]; cbn [sum_free]; [lia|].
  pose proof (Hb (Z.of_nat n) ltac:(lia)).
  assert (0 <= sum_free b n).
  { clear IH Hg. induction n as [|m IHm]; cbn [sum_free]; [lia|].
    pose proof (Hb (Z.of_nat m) ltac:(lia)).
    specialize (IHm ltac:(intros g' Hg'; apply Hb; lia) ltac:(apply Hb; lia)).
    lia. }
  destruct (Z.eq_dec g (Z.of_nat n)) as [->|Hne]; [lia|].
  specialize (IH ltac:(lia) ltac:(intros g' Hg'; apply Hb; lia)). lia.
Qed.

(** ** Consistency is kept by the effect of a successful operation *)

Lemma group_cnt_same_geometry s s' :
  same_geometry s s' -> ext4_block_group_cnt s' = ext4_block_group_cnt s.
Proof.
  intros (_ & H2 & H3 & _). unfold ext4_block_group_cnt. rewrite H2, H3.
  reflexivity.
Qed.

Lemma blocks_in_group_same_geometry s s' g :
  same_geometry s s' ->
  ext4_blocks_in_group_cnt s' g = ext4_blocks_in_group_cnt s g.
Proof.
  intros Hg. unfold ext4_blocks_in_group_cnt.
  rewrite (group_cnt_same_geometry _ _ Hg).
  destruct Hg as (_ & H2 & H3 & _). rewrite H2, H3. reflexivity.
Qed.

(** Every group holds between 1 and [blocks_per_group] blocks. *)
Lemma blocks_in_group_range s g :
  0 < blocks_per_group s -> 0 < blocks_count s ->
  0 <= g < ext4_block_group_cnt s ->
  0 < ext4_blocks_in_group_cnt s g <= blocks_per_group s.
Proof.
  intros Hbpg Hbc. unfold ext4_blocks_in_group_cnt, ext4_block_group_cnt.
  pose proof (Z.div_mod (blocks_count s) (blocks_per_group s) ltac:(lia)) as Hdm.
  pose proof (Z.mod_pos_bound (blocks_count s) (blocks_per_group s) ltac:(lia))
    as Hm.
  set (q := blocks_count s / blocks_per_group s) in *.
  set (r := blocks_count s mod blocks_per_group s) in *.
  destruct (Z.eqb_spec r 0) as [Hr|Hr]; intros Hg.
  - destruct (Z.ltb_spec g (q - 1)); [lia|]. nia.
  - destruct (Z.ltb_spec g (q + 1 - 1)); [lia|]. nia.
Qed.

Lemma effect_consistent f ino st' g upd dfree dino :
  consistent f ->
  0 <= g < ext4_block_group_cnt (sb f) ->
  op_effect f ino st' g upd dfree dino ->
  let bm := bitmap_of f g in
  let n := ext4_blocks_in_group_cnt (sb f) g in
  length (upd bm) = length bm ->
  count_clr (upd bm) n = count_clr bm n + dfree ->
  (forall j, n <= j < 8 * block_size (sb f) ->
     ext4_bmap_is_bit_clr (upd bm) j = false) ->
  consistent (fs st').
Proof.
  intros ((Hsum & Hgrp) & Hgeo & Hbc & HG & Hlen & Hinj & Hpad) Hg
         (Hsg & Hfree & Hdev & (Hother & Hbm & Hfr & _) & _) bm n Hl Hcnt Hp.
  pose proof Hgeo as (Hbpg & HB & HG0).
  pose proof (group_cnt_same_geometry _ _ Hsg) as HGeq.
  assert (Hbig : forall h, ext4_blocks_in_group_cnt (sb (fs st')) h =
                           ext4_blocks_in_group_cnt (sb f) h)
    by (intros h; apply blocks_in_group_same_geometry; exact Hsg).
  assert (Hbmap : forall h, block_bitmap (bgs (fs st') h) =
                            block_bitmap (bgs f h)).
  { intros h. destruct (Z.eq_dec h g) as [->|Hne];
      [exact Hbm | rewrite Hother by assumption; reflexivity]. }
  assert (Hmap_g : bitmap_of (fs st') g = upd bm).
  { unfold bitmap_of. rewrite Hbmap, Hdev, fn_lookup_alter. reflexivity. }
  assert (Hmap_o : forall h, 0 <= h < ext4_block_group_cnt (sb f) -> h <> g ->
                   bitmap_of (fs st') h = bitmap_of f h).
  { intros h Hh Hne. unfold bitmap_of. rewrite Hbmap, Hdev.
    apply fn_lookup_alter_ne. intros Heq. apply Hne. symmetry.
    apply Hinj; assumption. }
  pose proof (blocks_in_group_range (sb f) g ltac:(lia) Hbc Hg) as Hn.
  fold n in Hn.
  pose proof (count_clr_range (upd bm) n ltac:(lia)) as Hc'.
  assert (Hfree_g : bg_free_blocks_count (bgs (fs st') g) =
                    bg_free_blocks_count (bgs f g) + dfree).
  { rewrite Hfr. apply wrap32_small. rewrite (Hgrp g Hg). fold bm n. lia. }
  assert (Hgrp' : forall h, 0 <= h < ext4_block_group_cnt (sb f) ->
    bg_free_blocks_count (bgs (fs st') h) =
    count_clr (bitmap_of (fs st') h) (ext4_blocks_in_group_cnt (sb f) h)).
  { intros h Hh. destruct (Z.eq_dec h g) as [->|Hne].
    - rewrite Hfree_g, Hmap_g, (Hgrp g Hg). fold bm n. lia.
    - rewrite Hother, Hmap_o by assumption. apply Hgrp. exact Hh. }
  assert (Hsum' : sum_free (bgs (fs st'))
                    (Z.to_nat (ext4_block_group_cnt (sb f))) =
                  sum_free (bgs f) (Z.to_nat (ext4_block_group_cnt (sb f)))
                  + dfree).
  { rewrite (sum_free_updated (bgs f) (bgs (fs st')) g dfree)
      by (try apply Hother; try exact Hfree_g; lia).
    destruct (Z.ltb_spec g (Z.of_nat (Z.to_nat (ext4_block_group_cnt (sb f)))));
      lia. }
  assert (Hsb : 0 <= sum_free (bgs (fs st'))
                       (Z.to_nat (ext4_block_group_cnt (sb f)))
                <= Z.of_nat (Z.to_nat (ext4_block_group_cnt (sb f)))
                   * blocks_per_group (sb f)).
  { apply sum_free_bound; [lia|]. intros h Hh.
    rewrite Hgrp' by lia.
    pose proof (blocks_in_group_range (sb f) h ltac:(lia) Hbc ltac:(lia)).
    pose proof (count_clr_range (bitmap_of (fs st') h)
                  (ext4_blocks_in_group_cnt (sb f) h) ltac:(lia)). lia. }
  assert (Hgeo' : geometry_ok (sb (fs st')))
    by (eapply geometry_ok_same; eassumption).
  destruct Hsg as (S1 & S2 & S3 & S4 & S5 & S6 & S7 & S8).
  unfold consistent. cbv zeta. rewrite HGeq.
  split.
  { unfold coherent. cbv zeta. rewrite HGeq. split.
    - rewrite Hfree, Hsum', Hsum. apply wrap64_small. rewrite <- Hsum'.
      split; [lia|]. nia.
    - intros h Hh. rewrite Hbig. apply Hgrp'. exact Hh. }
  split; [exact Hgeo'|].
  split; [rewrite S3; exact Hbc|].
  split; [exact HG|].
  split.
  { intros h Hh. rewrite S4. destruct (Z.eq_dec h g) as [->|Hne].
    + rewrite Hmap_g, Hl. apply Hlen. exact Hg.
    + rewrite Hmap_o by assumption. apply Hlen. exact Hh. }
  split.
  { intros h h' Hh Hh'. rewrite !Hbmap. apply Hinj; assumption. }
  intros h j Hh. rewrite Hbig, S4. intros Hj.
  destruct (Z.eq_dec h g) as [->|Hne].
  + rewrite Hmap_g. apply Hp. exact Hj.
  + rewrite Hmap_o by assumption. apply Hpad; assumption.
Qed.


(** ** Counter coherence over sequences of calls *)

Lemma consistent_ext f f' :
  sb f' = sb f -> bgs f' = bgs f -> bdev f' = bdev f ->
  consistent f -> consistent f'.
Proof.
  intros Hs Hb Hd. unfold consistent, coherent, bitmap_of.
  rewrite Hs, Hb, Hd. auto.
Qed.

Lemma bgid_nonneg s a : 0 <= ext4_balloc_get_bgid_of_block s a.
Proof. unfold ext4_balloc_get_bgid_of_block. apply wrap32_range. Qed.

(** Setting a clear bit of a consistent filesystem. *)
Lemma set_bit_consistent f ino st' g j dino :
  consistent f ->
  0 <= g < ext4_block_group_cnt (sb f) ->
  0 <= j < blocks_per_group (sb f) ->
  ext4_bmap_is_bit_clr (bitmap_of f g) j = true ->
  op_effect f ino st' g (fun d => ext4_bmap_bit_set d j) (-1) dino ->
  consistent (fs st').
Proof.
  intros Hcons Hg Hj Hclr Heff.
  pose proof Hcons as (_ & (Hbpg & HB & _) & Hbc & _ & Hlen & _ & Hpad).
  pose proof (blocks_in_group_range (sb f) g ltac:(lia) Hbc Hg) as Hn.
  assert (Hjn : j < ext4_blocks_in_group_cnt (sb f) g).
  { destruct (Z.lt_ge_cases j (ext4_blocks_in_group_cnt (sb f) g)) as [H|H];
      [exact H|].
    rewrite (Hpad g j Hg) in Hclr by lia. discriminate. }
  assert (Hin : j < 8 * Z.of_nat (length (bitmap_of f g)))
    by (rewrite (Hlen g Hg); lia).
  eapply effect_consistent; try eassumption; cbv beta.
  - apply length_bit_set.
  - unfold bitmap_of in *. unfold count_clr.
    rewrite (count_clr_nat_set (bdev f (block_bitmap (bgs f g))) _ j _
               ltac:(lia) ltac:(intros; apply is_clr_after_set; lia) Hclr).
    destruct (Z.ltb_spec j (Z.of_nat (Z.to_nat
                (ext4_blocks_in_group_cnt (sb f) g)))); lia.
  - intros j' Hj'. unfold bitmap_of in *.
    rewrite is_clr_after_set by lia. rewrite (Hpad g j' Hg) by lia.
    apply andb_false_r.
Qed.

(** Clearing set bits in the valid prefix of a consistent filesystem. *)
Lemma clear_bits_consistent f ino st' g i k dino :
  consistent f ->
  0 <= g < ext4_block_group_cnt (sb f) ->
  0 <= i -> 0 <= k -> i + k <= ext4_blocks_in_group_cnt (sb f) g ->
  (forall j, i <= j < i + k ->
     ext4_bmap_is_bit_clr (bitmap_of f g) j = false) ->
  op_effect f ino st' g (fun d => ext4_bmap_bits_free d i k) k dino ->
  consistent (fs st').
Proof.
  intros Hcons Hg Hi Hk Hik Hset Heff.
  pose proof Hcons as (_ & (Hbpg & HB & _) & Hbc & _ & Hlen & _ & Hpad).
  pose proof (blocks_in_group_range (sb f) g ltac:(lia) Hbc Hg) as Hn.
  eapply effect_consistent; try eassumption; cbv beta.
  - apply length_bits_free_from.
  - unfold bitmap_of in *. unfold count_clr.
    rewrite (count_clr_nat_cleared (bdev f (block_bitmap (bgs f g))) _ i k _
               Hi Hk ltac:(intros; apply is_clr_after_bits_free; lia) Hset).
    lia.
  - intros j Hj. unfold bitmap_of in *.
    rewrite is_clr_after_bits_free by lia. rewrite (Hpad g j Hg) by lia.
    destruct (Z.leb_spec i j), (Z.ltb_spec j (i + k)); try reflexivity; lia.
Qed.

Lemma bits_free_one bmap i :
  ext4_bmap_bits_free bmap i 1 = ext4_bmap_bit_clr bmap i.
Proof. reflexivity. Qed.

Lemma free_block_consistent st baddr st' :
  consistent (fs st) -> block_in_use (fs st) baddr ->
  ext4_balloc_free_block st baddr = (EOK, st') ->
  consistent (fs st').
Proof.
  intros Hcons (Hg & Hi & Hset) Hrun.
  pose proof Hcons as (_ & (Hbpg & HB & _) & _).
  pose proof (index_in_group_range (sb (fs st)) baddr ltac:(lia)) as Hi0.
  pose proof (bgid_nonneg (sb (fs st)) baddr) as Hg0.
  apply free_block_effect in Hrun. cbv zeta in Hrun.
  eapply (clear_bits_consistent (fs st) _ st' _
            (ext4_fs_baddr2_index_in_group (sb (fs st)) baddr) 1 _ Hcons
            (conj Hg0 Hg)); [lia | lia | lia | | exact Hrun].
  intros j Hj. replace j with
    (ext4_fs_baddr2_index_in_group (sb (fs st)) baddr) by lia. exact Hset.
Qed.

Lemma try_alloc_block_consistent st baddr was_free st' :
  consistent (fs st) ->
  ext4_balloc_get_bgid_of_block (sb (fs st)) baddr
    < ext4_block_group_cnt (sb (fs st)) ->
  ext4_balloc_try_alloc_block st baddr = (EOK, was_free, st') ->
  consistent (fs st').
Proof.
  intros Hcons Hg Hrun.
  pose proof Hcons as (_ & (Hbpg & HB & _) & _).
  pose proof (index_in_group_range (sb (fs st)) baddr ltac:(lia)) as Hi0.
  pose proof (bgid_nonneg (sb (fs st)) baddr) as Hg0.
  apply try_alloc_block_effect in Hrun. cbv zeta in Hrun.
  destruct Hrun as [_ Heff].
  destruct (ext4_bmap_is_bit_clr _ _) eqn:Hclr.
  - eapply (set_bit_consistent (fs st) _ st' _ _ _ Hcons
              (conj Hg0 Hg) Hi0 Hclr Heff).
  - destruct Heff as (Hs & Hb & Hd & _).
    eapply consistent_ext; eassumption.
Qed.

Lemma alloc_block_consistent st goal fblock st' :
  consistent (fs st) ->
  ext4_balloc_get_bgid_of_block (sb (fs st)) goal
    < ext4_block_group_cnt (sb (fs st)) ->
  ext4_balloc_alloc_block st goal = (EOK, fblock, st') ->
  consistent (fs st').
Proof.
  intros Hcons Hgg Hrun.
  pose proof Hcons as (_ & (Hbpg & HB & HG) & Hbc & _).
  pose proof (bgid_nonneg (sb (fs st)) goal) as Hg0.
  pose proof (alloc_block_effect st goal ltac:(lia) HG) as Hpost.
  rewrite Hrun in Hpost.
  destruct (Hpost eq_refl) as (g & j & (Hfree & Hclr & Hj0 & Hwhere) & _ & Heff).
  pose proof (index_in_group_range (sb (fs st)) goal ltac:(lia)) as Hi0.
  pose proof (index_in_group_range (sb (fs st))
    (ext4_balloc_get_block_of_bgid (sb (fs st))
      (ext4_balloc_get_bgid_of_block (sb (fs st)) goal)) ltac:(lia)) as Hfi.
  unfold first_index in Hwhere.
  assert (Hg : 0 <= g < ext4_block_group_cnt (sb (fs st)))
    by (destruct Hwhere as [[-> _]|[[-> _]|[H _]]]; lia).
  pose proof (blocks_in_group_range (sb (fs st)) g ltac:(lia) Hbc Hg) as Hn.
  eapply (set_bit_consistent (fs st) _ st' g j _ Hcons Hg);
    [|exact Hclr|exact Heff].
  destruct Hwhere as [[-> ->]|[[-> H]|[_ H]]]; lia.
Qed.

(** The bitmaps of the other groups are untouched. *)
Lemma effect_other_bitmap f ino st' g upd dfree dino h :
  consistent f ->
  0 <= g < ext4_block_group_cnt (sb f) ->
  0 <= h < ext4_block_group_cnt (sb f) -> h <> g ->
  op_effect f ino st' g upd dfree dino ->
  bitmap_of (fs st') h = bitmap_of f h.
Proof.
  intros (_ & _ & _ & _ & _ & Hinj & _) Hg Hh Hne
         (_ & _ & Hdev & (Hother & _) & _).
  unfold bitmap_of. rewrite Hother, Hdev by assumption.
  apply fn_lookup_alter_ne. intros Heq. apply Hne. symmetry.
  apply Hinj; assumption.
Qed.

Lemma block_in_use_same f f' a h :
  same_geometry (sb f) (sb f') ->
  ext4_balloc_get_bgid_of_block (sb f) a = h ->
  bitmap_of f' h = bitmap_of f h ->
  block_in_use f a -> block_in_use f' a.
Proof.
  intros Hsg Hh Hbm (H1 & H2 & H3). unfold block_in_use.
  rewrite (bgid_same_geometry _ _ _ Hsg), (index_same_geometry _ _ _ Hsg),
    (group_cnt_same_geometry _ _ Hsg), (blocks_in_group_same_geometry _ _ _ Hsg).
  rewrite Hh in *. rewrite Hbm. auto.
Qed.

(** The loop of [free_range] on blocks that are in use keeps the
    filesystem consistent. *)
Lemma free_blocks_loop_consistent fuel : forall rc0 st g first count st',
  let s := sb (fs st) in
  let bpg := blocks_per_group s in
  let o := first - reserved s in
  let gl := (o + count - 1) / bpg in
  consistent (fs st) ->
  0 <= o -> 1 <= count < 2 ^ 32 -> first + count <= 2 ^ 64 ->
  o / bpg = g -> gl < ext4_block_group_cnt s ->
  bpg = 8 * block_size s \/ g = gl ->
  (forall t, 0 <= t < count -> block_in_use (fs st) (first + t)) ->
  free_blocks_loop fuel rc0 st g gl first count = Returned EOK st' ->
  consistent (fs st').
Proof.
  induction fuel as [|fuel IH];
    intros rc0 st g first count st' s bpg o gl Hcons Ho Hc Hend Hg Hgl Hcase
           Huse;
    pose proof Hcons as (_ & (Hbpg & HB & HG0) & Hbc & HG & _);
    fold s in Hbpg, HB, HG0, Hbc, HG; fold bpg in Hbpg;
    (assert (Hcase' : bpg = 8 * block_size s \/ o / bpg = gl)
       by (destruct Hcase; [left; assumption | right; zlia]));
    pose proof (range_step s first count Hbpg Ho ltac:(zlia) Hcase')
      as (Hk & Hk1 & Hik & Hggl & Hstep);
    fold bpg o gl in Hk, Hk1, Hik, Hggl, Hstep; rewrite Hg in Hstep, Hggl;
    (assert (Hgle : (g <=? gl) = true) by (apply Z.leb_le; zlia));
    cbn [free_blocks_loop]; rewrite Hgle; [discriminate|].
  pose proof (free_blocks_iter_effect st g first count) as Heff.
  cbv zeta in Heff. fold s in Heff.
  rewrite iter_free_cnt_min in Heff by (fold bpg; zlia).
  assert (Hg0 : 0 <= g) by (rewrite <- Hg; apply Z.div_pos; zlia).
  pose proof (reserved_range s) as Hres01.
  destruct (bgid_index_of s first ltac:(zlia) ltac:(zlia)) as [Hbg Hidx];
    [fold o bpg; zlia|].
  fold o bpg in Hbg, Hidx. rewrite Hidx in Heff.
  set (i := o mod bpg) in *.
  set (k := Z.min count (8 * block_size s - i)) in *.
  assert (Hi : 0 <= i < bpg) by (apply Z.mod_pos_bound; zlia).
  assert (Hin : forall t, 0 <= t < k ->
            ext4_balloc_get_bgid_of_block s (first + t) = g /\
            ext4_fs_baddr2_index_in_group s (first + t) = i + t).
  { intros t Ht.
    destruct (range_in_first_group s first t) as [Hb Hi'];
      try (fold bpg o; fold i; zlia). }
  destruct (free_blocks_iter st g first count)
    as [rc st1|rc st1 first1 count1|st1 first1 count1].
  { intros H. injection H as H _. contradiction. }
  { unfold free_blocks_exit. destruct (count1 =? 0); [|discriminate].
    intros H. injection H as H _. contradiction. }
  destruct Heff as (-> & -> & Heff).
  assert (Hcons1 : consistent (fs st1)).
  { eapply (clear_bits_consistent (fs st) _ st1 g i k _ Hcons);
      [zlia | zlia | zlia | | | exact Heff].
    - destruct (Hin (k - 1) ltac:(zlia)) as [Hb Hi'].
      destruct (Huse (k - 1) ltac:(zlia)) as (_ & Hlt & _).
      fold s in Hlt. rewrite Hb, Hi' in Hlt. zlia.
    - intros j Hj. destruct (Hin (j - i) ltac:(zlia)) as [Hb Hi'].
      destruct (Huse (j - i) ltac:(zlia)) as (_ & _ & Hset).
      fold s in Hset. rewrite Hb, Hi' in Hset.
      replace (i + (j - i)) with j in Hset by zlia. exact Hset. }
  destruct Hstep as [[Hrest Hlast]|(Hrest & Hq & Hm & Hnext & H8)].
  - rewrite free_blocks_loop_done
      by (apply Z.leb_gt; rewrite wrap32_small by zlia; zlia).
    unfold free_blocks_exit. destruct (_ =? 0); [|discriminate].
    intros H. injection H as <-. exact Hcons1.
  - rewrite (wrap32_small (g + 1)) by zlia.
    rewrite (wrap64_small (first + k)), (wrap32_small (count - k)) by zlia.
    pose proof Heff as (Hsg & _).
    pose proof (reserved_same_geometry _ _ Hsg) as Hres.
    pose proof Hsg as (_ & G2 & _ & G4 & _).
    intros Hloop.
    apply (IH EOK st1 (g + 1) (first + k) (count - k) st'); try assumption.
    + rewrite Hres. zlia.
    + zlia.
    + zlia.
    + rewrite Hres, G2, <- Hq. f_equal; zlia.
    + rewrite Hres, G2, (group_cnt_same_geometry _ _ Hsg).
      replace ((first + k - reserved (sb (fs st)) + (count - k) - 1)
               / blocks_per_group (sb (fs st))) with gl
        by (unfold gl; f_equal; zlia).
      exact Hgl.
    + left. rewrite G2, G4. exact H8.
    + intros t Ht.
      assert (Hq' : (first + k + t - reserved s) / bpg < 2 ^ 32).
      { assert ((first + k + t - reserved s) / bpg <= gl)
          by (apply Z.div_le_mono; zlia). zlia. }
      destruct (bgid_index_of s (first + k + t) ltac:(zlia) ltac:(zlia) Hq')
        as [Hb _].
      assert (Hge : g + 1 <= (first + k + t - reserved s) / bpg).
      { rewrite <- Hq. apply Z.div_le_mono; zlia. }
      assert (Hle : (first + k + t - reserved s) / bpg <= gl)
        by (apply Z.div_le_mono; zlia).
      eapply (block_in_use_same (fs st) (fs st1)); [exact Hsg | exact Hb | |].
      * eapply effect_other_bitmap; [exact Hcons | | | | exact Heff]; zlia.
      * replace (first + k + t) with (first + (k + t)) by zlia.
        apply Huse. zlia.
    + rewrite Hres, G2.
      replace ((first + k - reserved (sb (fs st)) + (count - k) - 1)
               / blocks_per_group (sb (fs st))) with gl
        by (unfold gl; f_equal; zlia).
      exact Hloop.
Qed.

(** A successful call that keeps to [call_ok] keeps the filesystem
    consistent. *)
Lemma run_call_consistent c fuel st n st' :
  consistent (fs st) -> call_typed c -> call_ok (fs st) c ->
  run_call c fuel st = Some (n, st') ->
  consistent (fs st').
Proof.
  intros Hcons Hty Hok.
  destruct c as [goal|baddr|first count|baddr]; cbn [run_call call_ok] in *.
  - destruct (ext4_balloc_alloc_block st goal) as [[rc fb] st1] eqn:Hrun.
    destruct (Z.eqb_spec rc EOK) as [->|]; [|discriminate].
    intros H. injection H as _ <-.
    eapply alloc_block_consistent; eassumption.
  - destruct (ext4_balloc_free_block st baddr) as [rc st1] eqn:Hrun.
    destruct (Z.eqb_spec rc EOK) as [->|]; [|discriminate].
    intros H. injection H as _ <-.
    eapply free_block_consistent; eassumption.
  - destruct (ext4_balloc_free_blocks fuel st first count)
      as [rc st1| |] eqn:Hrun; try discriminate.
    destruct (Z.eqb_spec rc EOK) as [->|]; [|discriminate].
    intros H. injection H as _ <-.
    destruct Hok as (Hres & Hc1 & Hend & Hlast & Huse & Hcase).
    destruct Hty as [_ Hc].
    pose proof Hcons as (_ & (Hbpg & HB & HG0) & Hbc & HG & _).
    pose proof (reserved_range (sb (fs st))) as Hres01.
    set (s := sb (fs st)) in *. set (bpg := blocks_per_group s) in *.
    set (o := first - reserved s) in *.
    assert (Ho : 0 <= o) by zlia.
    assert (Hq0 : 0 <= o / bpg) by (apply Z.div_pos; zlia).
    assert (Hqle : o / bpg <= (o + count - 1) / bpg)
      by (apply Z.div_le_mono; zlia).
    destruct (bgid_index_of s first) as [Hgf _]; [zlia | zlia | |].
    { fold o bpg. zlia. }
    destruct (bgid_index_of s (first + count - 1)) as [Hgl _];
      [zlia | zlia | |].
    { replace (first + count - 1 - reserved s) with (o + count - 1) by zlia.
      fold bpg. zlia. }
    replace (first + count - 1 - reserved s) with (o + count - 1) in Hgl
      by zlia.
    fold o bpg in Hgf. fold bpg in Hgl.
    unfold ext4_balloc_free_blocks in Hrun.
    rewrite (wrap64_small (first + count - 1)) in Hrun by zlia.
    fold s in Hrun. rewrite Hgf, Hgl in Hrun.
    destruct (_ && _); [discriminate|].
    rewrite Hgf, Hgl in Hcase.
    eapply (free_blocks_loop_consistent fuel EOK st (o / bpg) first count);
      try eassumption; fold s; fold bpg; fold o; try zlia.
  - destruct (ext4_balloc_try_alloc_block st baddr) as [[rc wf] st1] eqn:Hrun.
    destruct (Z.eqb_spec rc EOK) as [->|]; [|discriminate].
    intros H. injection H as _ <-.
    eapply try_alloc_block_consistent; eassumption.
Qed.

Lemma reachable_consistent f0 f :
  consistent f0 -> reachable f0 f -> consistent f.
Proof.
  intros H0 Hreach. induction Hreach as [|f c script fuel ino dirty n st' _ IH
                                           Hty Hok Hrun]; [exact H0|].
  eapply run_call_consistent; [| exact Hty | | exact Hrun].
  - cbn [fs]. eapply consistent_ext; [ | | | exact IH]; reflexivity.
  - exact Hok.
Qed.

(** Coherence where [free_range] stays clear of padding bits.  From a
    consistent filesystem, every filesystem reached by successful [alloc],
    [free_one], [free_range] and [try_one] calls that keep to [call_ok] has
    coherent counters: the superblock free count is the
    sum of the group free counts, and each group free count is the number of
    clear bits among the first [blocks_in_group_cnt] bits of the group's
    bitmap. *)
Theorem counters_coherent f0 f :
  consistent f0 -> reachable f0 f -> coherent f.
Proof.
  intros H0 Hreach. apply (reachable_consistent f0 f H0 Hreach).
Qed.

Lemma consistent_small : consistent (fs (inode_small [])).
Proof.
  assert (Hgroups : forall g, 0 <= g < 4 -> g = 0 \/ g = 1 \/ g = 2 \/ g = 3)
    by (intros; lia).
  unfold consistent. cbv zeta.
  change (ext4_block_group_cnt (sb (fs (inode_small [])))) with 4.
  split.
  { split; [reflexivity|]. cbv zeta.
    change (ext4_block_group_cnt (sb (fs (inode_small [])))) with 4.
    intros g Hg.
    destruct (Hgroups g Hg) as [->|[->|[->| ->]]]; vm_compute; reflexivity. }
  split; [vm_compute; intuition congruence|].
  split; [reflexivity|]. split; [reflexivity|].
  split.
  { intros g Hg.
    destruct (Hgroups g Hg) as [->|[->|[->| ->]]]; reflexivity. }
  split.
  { intros g g' _ _. cbn. lia. }
  assert (Hbig : forall g, 0 <= g < 4 ->
                 ext4_blocks_in_group_cnt sb_small g = 64).
  { intros g Hg.
    destruct (Hgroups g Hg) as [->|[->|[->| ->]]]; reflexivity. }
  intros g j Hg Hj. exfalso.
  change (sb (fs (inode_small []))) with sb_small in Hj.
  rewrite (Hbig g Hg) in Hj. change (block_size sb_small) with 8 in Hj. lia.
Qed.

(** Outside the callers' guarantee that a released block is in use:
    [fs_small] is consistent and block 20 is free in it; [free_one] of block
    20 succeeds and leaves group 0 with a free count of 56 and 55 clear
    bits. *)
Lemma double_free_breaks_coherence :
  consistent (fs (inode_small [])) /\
  exists st',
    ext4_balloc_free_block (inode_small []) 20 = (EOK, st') /\
    ~ coherent (fs st').
Proof.
  split; [exact consistent_small|].
  eexists. split; [reflexivity|].
  intros [_ Hgrp]. specialize (Hgrp 0 ltac:(split; [lia | reflexivity])).
  vm_compute in Hgrp. discriminate Hgrp.
Qed.

(** Every bit of an 8-byte bitmap of all ones is set. *)
Lemma full_bitmap_set j :
  0 <= j < 64 -> ext4_bmap_is_bit_clr (replicate 8 255) j = false.
Proof.
  intros Hj.
  assert (Hall : forallb
            (fun n => negb (ext4_bmap_is_bit_clr (replicate 8 255)
                              (Z.of_nat n)))
            (seq 0 64) = true) by (vm_compute; reflexivity).
  rewrite forallb_forall in Hall.
  specialize (Hall (Z.to_nat j)). rewrite Z2Nat.id in Hall by lia.
  apply negb_true_iff. apply Hall. apply in_seq. lia.
Qed.

Lemma consistent_narrow : consistent (fs (inode_narrow [])).
Proof.
  assert (Hgroups : forall g, 0 <= g < 4 -> g = 0 \/ g = 1 \/ g = 2 \/ g = 3)
    by (intros; lia).
  unfold consistent. cbv zeta.
  change (ext4_block_group_cnt (sb (fs (inode_narrow [])))) with 4.
  split.
  { split; [reflexivity|]. cbv zeta.
    change (ext4_block_group_cnt (sb (fs (inode_narrow [])))) with 4.
    intros g Hg.
    destruct (Hgroups g Hg) as [->|[->|[->| ->]]]; vm_compute; reflexivity. }
  split; [vm_compute; intuition congruence|].
  split; [reflexivity|]. split; [reflexivity|].
  split.
  { intros g Hg.
    destruct (Hgroups g Hg) as [->|[->|[->| ->]]]; reflexivity. }
  split.
  { intros g g' _ _. cbn. lia. }
  intros g j Hg Hj.
  change (bitmap_of (fs (inode_narrow [])) g) with (replicate 8 255).
  change (block_size (sb (fs (inode_narrow [])))) with 8 in Hj.
  assert (Hbig : ext4_blocks_in_group_cnt (sb (fs (inode_narrow []))) g = 32)
    by (destruct (Hgroups g Hg) as [->|[->|[->| ->]]]; reflexivity).
  rewrite Hbig in Hj. apply full_bitmap_set. lia.
Qed.

(** C1 (code defect).  The filesystem of [inode_narrow] is consistent: its
    groups have 32 blocks, its bitmap blocks 64 bits with the 32 padding
    bits set, flex_bg is on and every block is in use.  [free_range] of the
    four blocks from block 30, all of them in use, returns [EOK] after it
    cleared bits 30..33 of the bitmap of group 0 and gave group 0 a free
    count of 4: two clear bits among the 32 bits of the group, two cleared
    padding bits, and the counters of the filesystem reached are not
    coherent. *)
Theorem free_range_breaks_coherence :
  consistent (fs (inode_narrow [])) /\
  feature_flex_bg (sb (fs (inode_narrow []))) = true /\
  (forall t, 0 <= t < 4 -> block_in_use (fs (inode_narrow [])) (30 + t)) /\
  exists st',
    ext4_balloc_free_blocks 2 (inode_narrow []) 30 4 = Returned EOK st' /\
    bg_free_blocks_count (bgs (fs st') 0) = 4 /\
    count_clr (bitmap_of (fs st') 0)
              (ext4_blocks_in_group_cnt (sb (fs st')) 0) = 2 /\
    ext4_bmap_is_bit_clr (bitmap_of (fs st') 0) 32 = true /\
    ext4_bmap_is_bit_clr (bitmap_of (fs st') 0) 33 = true /\
    ~ coherent (fs st').
Proof.
  split; [exact consistent_narrow|]. split; [reflexivity|]. split.
  { intros t Ht.
    assert (Hcases : t = 0 \/ t = 1 \/ t = 2 \/ t = 3) by lia.
    destruct Hcases as [->|[->|[->| ->]]]; vm_compute; intuition congruence. }
  eexists. split; [vm_compute; reflexivity|].
  split; [reflexivity|]. split; [vm_compute; reflexivity|].
  split; [reflexivity|]. split; [reflexivity|].
  intros [_ Hgrp]. specialize (Hgrp 0 ltac:(split; [lia | reflexivity])).
  vm_compute in Hgrp. discriminate Hgrp.
Qed.


(** ** Every change of a bitmap is stamped *)

(** Decide [mutation_stamped] for an explicit final state. *)
Ltac solve_stamped :=
  unfold mutation_stamped; cbn [fs bdev bgs sb];
  first
    [ left; reflexivity
    | right; eexists; eexists; split; [reflexivity|];
      unfold csum_stamped; cbn [fs bdev bgs sb desc_size];
      rewrite ?fn_lookup_alter; cbn [block_bitmap block_bitmap_csum_lo
                                     block_bitmap_csum_hi];
      rewrite ?set_csum_bitmap, ?fn_lookup_alter, ?set_csum_lo, ?set_csum_hi;
      split; [reflexivity | intros ->; reflexivity] ].

Lemma free_block_stamped st baddr :
  mutation_stamped (fs st) (fs (snd (ext4_balloc_free_block st baddr))).
Proof.
  destruct st as [[s b d l tr] ino dty].
  unfold ext4_balloc_free_block. unfold_calls.
  repeat branch; cbn [snd]; solve_stamped.
Qed.

Lemma free_blocks_iter_stamped st g first count :
  mutation_stamped (fs st)
    (fs (iter_state (free_blocks_iter st g first count))).
Proof.
  destruct st as [[s b d l tr] ino dty].
  unfold free_blocks_iter. unfold_calls.
  repeat branch; cbn [iter_state]; solve_stamped.
Qed.

Lemma try_alloc_block_stamped st baddr :
  mutation_stamped (fs st)
    (fs (snd (ext4_balloc_try_alloc_block st baddr))).
Proof.
  destruct st as [[s b d l tr] ino dty].
  unfold ext4_balloc_try_alloc_block. unfold_calls.
  destruct (ext4_bmap_is_bit_clr _ _); cbn [negb]; cbv iota;
    repeat branch; cbn [snd]; solve_stamped.
Qed.

Ltac stamped_leaf := unfold alloc_stamped; cbn [snd]; solve_stamped.

Lemma alloc_success_stamped f0 ino dty s b d l tr g j blk :
  alloc_stamped (mk_fs s b d [] [])
    (alloc_success (mk_inode_ref f0 ino dty)
       (mk_fs s
          (alter (fun bg => ext4_balloc_set_bitmap_csum s bg
                    (alter (fun d0 => ext4_bmap_bit_set d0 j)
                           (block_bitmap (b g)) d (block_bitmap (b g))))
                 g b)
          (alter (fun d0 => ext4_bmap_bit_set d0 j) (block_bitmap (b g)) d)
          l tr)
       (mk_bg_ref g false) blk).
Proof. unfold alloc_success. unfold_calls. stamped_leaf. Qed.

Lemma alloc_try_group_stamped continue f0 ino dty s b d l tr bgid :
  (forall l' tr', alloc_stamped (mk_fs s b d [] [])
                    (continue (mk_fs s b d l' tr'))) ->
  alloc_stamped (mk_fs s b d [] [])
    (alloc_try_group continue (mk_inode_ref f0 ino dty) (mk_fs s b d l tr)
                     bgid).
Proof.
  intros Hk. unfold alloc_try_group. unfold_calls.
  branch; [|stamped_leaf].
  destruct (_ =? 0).
  { branch; [apply Hk | stamped_leaf]. }
  branch; [|stamped_leaf].
  destruct (ext4_bmap_bit_find_clr _ _ _) as [j|].
  - branch; [apply alloc_success_stamped | stamped_leaf].
  - branch; [|stamped_leaf].
    branch; [apply Hk | stamped_leaf].
Qed.

Lemma alloc_other_groups_stamped f0 ino dty s b d G count :
  forall l tr bgid,
  alloc_stamped (mk_fs s b d [] [])
    (alloc_other_groups count (mk_inode_ref f0 ino dty) (mk_fs s b d l tr)
                        G bgid).
Proof.
  induction count as [|count IH]; intros l tr bgid; cbn [alloc_other_groups].
  - left. reflexivity.
  - apply alloc_try_group_stamped. intros l' tr'. apply IH.
Qed.

Lemma alloc_goal_failed_stamped f0 ino dty s b d l tr bg_ref block_group :
  alloc_stamped (mk_fs s b d [] [])
    (alloc_goal_failed (mk_inode_ref f0 ino dty) (mk_fs s b d l tr)
                       bg_ref block_group).
Proof.
  unfold alloc_goal_failed. unfold_calls.
  branch; [apply alloc_other_groups_stamped | stamped_leaf].
Qed.

Lemma alloc_block_stamped st goal :
  alloc_stamped (fs st) (ext4_balloc_alloc_block st goal).
Proof.
  destruct st as [[s b d l tr] ino dty]. cbn [fs].
  change (alloc_stamped (mk_fs s b d l tr))
    with (alloc_stamped (mk_fs s b d [] [])).
  unfold ext4_balloc_alloc_block. unfold_calls.
  branch; [|stamped_leaf].
  destruct (_ =? 0); [apply alloc_goal_failed_stamped|].
  branch; [|stamped_leaf].
  destruct (ext4_bmap_is_bit_clr _ _).
  { branch; [apply alloc_success_stamped | stamped_leaf]. }
  destruct (near_goal_scan _ _ _).
  { branch; [apply alloc_success_stamped | stamped_leaf]. }
  destruct (ext4_bmap_bit_find_clr _ _ _).
  { branch; [apply alloc_success_stamped | stamped_leaf]. }
  branch; [apply alloc_goal_failed_stamped | stamped_leaf].
Qed.

(** C9.  [ext4_balloc_set_bitmap_csum] stamps the checksum [c] of the
    bitmap, where [c] is the CRC32C of the first [blocks_per_group / 8]
    bitmap bytes seeded with the CRC32C of the filesystem UUID seeded with
    all ones when the metadata-checksum feature is on, and 0 when it is
    off: [csum_lo] always receives bytes 0 and 1 of [c] in little-endian
    order; [csum_hi] receives bytes 2 and 3 when the descriptor size is 64
    and is left as it was otherwise; nothing else in the descriptor
    changes.  And whatever the outcome of [free_one], of a turn of
    [free_range], of [alloc] or of [try_one], a bitmap that the operation
    changed has its checksum stamped into the descriptor of its group. *)
Theorem bitmap_csum_stamping :
  (forall s bg bmap,
     let c :=
       if feature_metadata_csum s
       then ext4_crc32c (ext4_crc32c 0xFFFFFFFF (uuid s))
                        (take (Z.to_nat (blocks_per_group s / 8)) bmap)
       else 0 in
     let bg' := ext4_balloc_set_bitmap_csum s bg bmap in
     block_bitmap_csum_lo bg' = [Z.land c 0xFF; Z.land (Z.shiftr c 8) 0xFF] /\
     block_bitmap_csum_hi bg' =
       (if desc_size s =? 64
        then [Z.land (Z.shiftr c 16) 0xFF; Z.land (Z.shiftr c 24) 0xFF]
        else block_bitmap_csum_hi bg) /\
     block_bitmap bg' = block_bitmap bg /\
     bg_free_blocks_count bg' = bg_free_blocks_count bg) /\
  (forall st baddr,
     mutation_stamped (fs st) (fs (snd (ext4_balloc_free_block st baddr)))) /\
  (forall st g first count,
     mutation_stamped (fs st)
       (fs (iter_state (free_blocks_iter st g first count)))) /\
  (forall st goal,
     mutation_stamped (fs st) (fs (snd (ext4_balloc_alloc_block st goal)))) /\
  (forall st baddr,
     mutation_stamped (fs st)
       (fs (snd (ext4_balloc_try_alloc_block st baddr)))).
Proof.
  split; [exact set_bitmap_csum_fields|].
  split; [exact free_block_stamped|].
  split; [exact free_blocks_iter_stamped|].
  split; [exact alloc_block_stamped | exact try_alloc_block_stamped].
Qed.


(** ** The theorems at work on the example filesystems *)


(** On the full filesystem of [inode_narrow], [alloc] with goal 5 visits
    group 0 and then groups 1, 2, 3, 0 and returns [ENOSPC]. *)
Lemma alloc_no_space_witness :
  io_ok (fs (inode_narrow [])) /\
  exists st' evs,
    ext4_balloc_alloc_block (inode_narrow []) 5 = (ENOSPC, None, st') /\
    trace (fs st') = evs ++ [] /\
    acquired evs = [0; 1; 2; 3; 0].
Proof.
  assert (Hio : io_ok (fs (inode_narrow []))) by constructor.
  split; [exact Hio|].
  assert (HG : 0 < ext4_block_group_cnt (sb (fs (inode_narrow []))) < 2 ^ 32)
    by (vm_compute; intuition congruence).
  assert (Hbpg : 0 < blocks_per_group (sb (fs (inode_narrow []))) <= 2 ^ 32 - 64)
    by (cbn; lia).
  assert (Hg : ext4_balloc_get_bgid_of_block (sb (fs (inode_narrow []))) 5 + 1
               < 2 ^ 32) by reflexivity.
  destruct (alloc_no_space (inode_narrow []) 5 Hio HG Hbpg Hg)
    as (st' & evs & Hrun & Htr & _ & _ & _ & Hacq).
  - left. reflexivity.
  - intros bg _. left. reflexivity.
  - exists st', evs. split; [exact Hrun|]. split; [exact Htr | exact Hacq].
Defined.

(** On [fs_small], with flex_bg and groups of as many blocks as a bitmap
    block has bits, freeing the 16 blocks from 120 takes one turn for group
    1 and one for group 2. *)
Lemma free_blocks_spec_witness :
  io_ok (fs (inode_small [])) /\
  exists st' evs,
    ext4_balloc_free_blocks 2 (inode_small []) 120 16 = Returned EOK st' /\
    trace (fs st') = evs ++ [] /\
    acquired evs = [1; 2] /\
    range_freed (inode_small []) st' 120 16.
Proof.
  assert (Hio : io_ok (fs (inode_small []))) by constructor.
  split; [exact Hio|].
  destruct free_blocks_spec as [_ Hcall].
  destruct (Hcall (inode_small []) 120 16 2%nat Hio)
    as (st' & evs & Hrun & Htr & Hacq & Hfreed).
  - cbn; lia.
  - cbn; lia.
  - vm_compute; discriminate.
  - lia.
  - lia.
  - reflexivity.
  - right. split; reflexivity.
  - vm_compute; lia.
  - exists st', evs. split; [exact Hrun|]. split; [exact Htr|].
    split; [exact Hacq | exact Hfreed].
Defined.

(** On the empty filesystem of 1 KiB blocks, two allocations and one
    release leave the inode with one block, that is two sectors. *)
Lemma inode_blocks_coherent_witness :
  exists net st',
    run_calls [(CallAlloc 5, [], 0%nat); (CallAlloc 5, [], 0%nat);
               (CallFreeOne 5, [], 0%nat)] inode_1k = Some (net, st') /\
    net = 1 /\
    inode_blocks_count st' = 2 /\
    (inode_blocks_count st' - inode_blocks_count inode_1k) * 512 = 1024 * net.
Proof.
  destruct (run_calls [(CallAlloc 5, [], 0%nat); (CallAlloc 5, [], 0%nat);
                       (CallFreeOne 5, [], 0%nat)] inode_1k)
    as [[net st']|] eqn:Hrun; [|vm_compute in Hrun; discriminate Hrun].
  assert (Hnet : net = 1)
    by (vm_compute in Hrun; injection Hrun as Hn _; symmetry; exact Hn).
  assert (Hgeo : geometry_ok (sb (fs inode_1k)))
    by (vm_compute; intuition congruence).
  assert (Hty : Forall (fun c : call * list Z * nat => call_typed (fst (fst c)))
                  [(CallAlloc 5, [], 0%nat); (CallAlloc 5, [], 0%nat);
                   (CallFreeOne 5, [], 0%nat)])
    by (repeat (apply Forall_cons; [cbn; lia|]); apply Forall_nil).
  assert (Hino : 0 <= inode_blocks_count inode_1k < 2 ^ 64) by (cbn; lia).
  destruct (inode_blocks_coherent _ inode_1k net st' Hgeo Hty Hino Hrun)
    as [Hmod Hexact].
  exists net, st'. split; [reflexivity|]. split; [exact Hnet|].
  subst net. split; [rewrite Hmod; reflexivity|].
  apply Hexact; [reflexivity | vm_compute; intuition congruence].
Defined.

(** [fs_small] is consistent; after [alloc] with goal 3 its counters are
    coherent. *)
Lemma counters_coherent_witness :
  consistent (fs (inode_small [])) /\
  exists st',
    ext4_balloc_alloc_block (inode_small []) 3 = (EOK, Some 9, st') /\
    coherent (fs st').
Proof.
  split; [exact consistent_small|].
  eexists. split; [reflexivity|].
  apply (counters_coherent (fs (inode_small [])) _ consistent_small).
  eapply (reach_call _ _ (CallAlloc 3) [] 0%nat 16 false 1);
    [apply reach_init | | | ].
  - cbn; lia.
  - reflexivity.
  - reflexivity.
Defined.


(** * Further properties of the allocator *)

(** ** The two geometry maps *)

(** X1.  The group of the first block of group [g] is [g], where the 32-bit
    product [g * blocks_per_group] does not overflow. *)
Theorem bgid_of_block_of_bgid s g :
  0 < blocks_per_group s -> 0 <= g ->
  g * blocks_per_group s < 2 ^ 32 - 1 ->
  ext4_balloc_get_bgid_of_block s (ext4_balloc_get_block_of_bgid s g) = g.
Proof.
  intros Hbpg Hg Hprod.
  rewrite block_of_bgid_exact by nia.
  fold (reserved s). pose proof (reserved_range s) as Hres.
  destruct (bgid_index_of s (reserved s + g * blocks_per_group s))
    as [Hq _]; try lia.
  - replace (reserved s + g * blocks_per_group s - reserved s)
      with (g * blocks_per_group s) by lia.
    rewrite Z.div_mul by lia. nia.
  - rewrite Hq.
    replace (reserved s + g * blocks_per_group s - reserved s)
      with (g * blocks_per_group s) by lia.
    apply Z.div_mul. lia.
Qed.

Lemma bgid_of_block_of_bgid_witness :
  ext4_balloc_get_bgid_of_block sb_small
    (ext4_balloc_get_block_of_bgid sb_small 2) = 2.
Proof.
  apply (bgid_of_block_of_bgid sb_small 2); [reflexivity | lia | reflexivity].
Defined.

(** X2.  The blocks that [ext4_balloc_get_bgid_of_block] gives to group [g] are
    the [blocks_per_group] blocks from [ext4_balloc_get_block_of_bgid] of
    [g] on: for a block [a] at or after the first data block,
    [bgid_of a = g] exactly when [block_of g <= a < block_of g +
    blocks_per_group] (in the range where the 32-bit results do not wrap).
    Block 0 of a filesystem whose first data block is not 0 is given group
    0 although it precedes the first block of that group. *)
Theorem bgid_of_block_iff s :
  0 < blocks_per_group s ->
  (forall a g,
     reserved s <= a -> a - reserved s < 2 ^ 32 - 1 ->
     0 <= g -> g * blocks_per_group s < 2 ^ 32 - 1 ->
     (ext4_balloc_get_bgid_of_block s a = g <->
      ext4_balloc_get_block_of_bgid s g <= a
        < ext4_balloc_get_block_of_bgid s g + blocks_per_group s)) /\
  (first_data_block s <> 0 ->
   ext4_balloc_get_bgid_of_block s 0 = 0 /\
   ext4_balloc_get_block_of_bgid s 0 = 1).
Proof.
  intros Hbpg. split.
  - intros a g Ha Hlt Hg Hprod.
    pose proof (reserved_range s) as Hres.
    rewrite block_of_bgid_exact by nia. fold (reserved s).
    assert (Hq0 : 0 <= (a - reserved s) / blocks_per_group s)
      by (apply Z.div_pos; lia).
    assert (Hq1 : (a - reserved s) / blocks_per_group s <= a - reserved s)
      by (apply Z.div_le_upper_bound; nia).
    destruct (bgid_index_of s a Hbpg Ha) as [Hq _]; [lia|]. rewrite Hq.
    pose proof (Z.div_mod (a - reserved s) (blocks_per_group s) ltac:(lia))
      as Hdm.
    pose proof (Z.mod_pos_bound (a - reserved s) (blocks_per_group s)
                  ltac:(lia)) as Hr.
    split.
    + intros <-. nia.
    + intros Hin. symmetry.
      apply (Z.div_unique _ _ g (a - reserved s - g * blocks_per_group s));
        lia.
  - intros Hfdb. split.
    + unfold ext4_balloc_get_bgid_of_block.
      rewrite Z.eqb_refl, andb_false_r. cbv iota.
      rewrite Z.div_0_l by lia. reflexivity.
    + unfold ext4_balloc_get_block_of_bgid.
      apply Z.eqb_neq in Hfdb. rewrite Hfdb. reflexivity.
Qed.

Lemma bgid_of_block_iff_witness :
  ext4_balloc_get_bgid_of_block sb_small 130 = 2 <->
  ext4_balloc_get_block_of_bgid sb_small 2 <= 130
    < ext4_balloc_get_block_of_bgid sb_small 2 + blocks_per_group sb_small.
Proof.
  assert (Hbpg : 0 < blocks_per_group sb_small) by reflexivity.
  destruct (bgid_of_block_iff sb_small Hbpg) as [Hiff _].
  apply (Hiff 130 2);
    [vm_compute; discriminate | reflexivity | lia | reflexivity].
Defined.


(** ** Return codes and group handles over the log of calls *)

Lemma first_failure_app evs2 evs1 :
  first_failure (evs2 ++ evs1) =
  match first_failure evs1 with
  | Some c => Some c
  | None => first_failure evs2
  end.
Proof.
  induction evs2 as [|e evs2 IH]; cbn [app first_failure].
  - destruct (first_failure evs1); reflexivity.
  - rewrite IH. destruct (first_failure evs1); reflexivity.
Qed.

Lemma refs_held_app evs2 evs1 :
  refs_held (evs2 ++ evs1) = refs_held evs2 + refs_held evs1.
Proof.
  induction evs2 as [|e evs2 IH]; cbn [app refs_held]; [lia|].
  destruct e; rewrite IH; lia.
Qed.

Lemma store_failed_app_l evs2 evs1 e :
  store_failed evs2 e -> store_failed (evs2 ++ evs1) e.
Proof.
  intros [Hne (lba & d & Hin)]. split; [exact Hne|].
  exists lba, d. apply in_or_app. auto.
Qed.

(** Calls that all succeeded and hold no handle may precede the calls of
    an operation. *)
Lemma log_ok_app evs2 evs1 rc :
  first_failure evs1 = None -> refs_held evs1 = 0 ->
  log_ok evs2 rc -> log_ok (evs2 ++ evs1) rc.
Proof.
  intros Hf Hr [Hp Hb]. unfold log_ok, propagated in *.
  rewrite first_failure_app, Hf, refs_held_app, Hr, Hb. split; [exact Hp|lia].
Qed.

Lemma alloc_log_ok_app evs2 evs1 rc :
  first_failure evs1 = None -> refs_held evs1 = 0 ->
  alloc_log_ok evs2 rc -> alloc_log_ok (evs2 ++ evs1) rc.
Proof.
  intros Hf Hr [Hp Hb]. unfold alloc_log_ok, alloc_propagated in *.
  rewrite first_failure_app, Hf, refs_held_app, Hr. split; [exact Hp|].
  destruct Hb as [Hb|[Hb Hs]]; [left; lia|right].
  split; [lia | apply store_failed_app_l; exact Hs].
Qed.

(** Evaluate the codes of an explicit log. *)
Ltac codes :=
  cbn [first_failure ev_rc refs_held];
  repeat match goal with
  | E : ?x <> EOK |- context [?x =? EOK] =>
      rewrite (proj2 (Z.eqb_neq x EOK) E)
  | |- context [EOK =? EOK] => change (EOK =? EOK) with true
  end;
  cbv iota.

Ltac split_codes :=
  repeat match goal with
  | |- context [?x =? EOK] =>
      let E := fresh "E" in
      destruct (Z.eqb_spec x EOK) as [E|E]; [try rewrite E in *|]
  end.

Ltac failed_store :=
  match goal with
  | E : ?x <> EOK |- store_failed ?evs ?x =>
      split; [exact E | eexists; eexists; simpl; eauto 10]
  end.

Ltac solve_log :=
  cbn [fs trace iter_state]; name_events;
  unfold log_ok, alloc_log_ok, propagated, alloc_propagated;
  codes; split_codes;
  repeat split; try reflexivity; try congruence; try lia; auto;
  try (right; split; [reflexivity | failed_store]).

Lemma free_block_logged st baddr :
  let '(rc, st') := ext4_balloc_free_block st baddr in
  exists evs, trace (fs st') = evs ++ trace (fs st) /\ log_ok evs rc.
Proof.
  destruct st as [[s b d l tr] ino dty].
  unfold ext4_balloc_free_block. unfold_calls.
  repeat branch; solve_log.
Qed.

Lemma try_alloc_block_logged st baddr :
  let '(rc, _, st') := ext4_balloc_try_alloc_block st baddr in
  exists evs, trace (fs st') = evs ++ trace (fs st) /\ log_ok evs rc.
Proof.
  destruct st as [[s b d l tr] ino dty].
  unfold ext4_balloc_try_alloc_block. unfold_calls.
  destruct (ext4_bmap_is_bit_clr _ _); cbn [negb]; cbv iota;
    repeat branch; solve_log.
Qed.

Lemma free_blocks_iter_logged st g first count :
  iter_logged (trace (fs st)) (free_blocks_iter st g first count).
Proof.
  destruct st as [[s b d l tr] ino dty].
  unfold free_blocks_iter, iter_logged. unfold_calls.
  repeat branch; cbn [iter_state fs trace]; name_events; codes;
    split; reflexivity.
Qed.

Lemma free_blocks_exit_logged tr0 rc st count evs :
  trace (fs st) = evs ++ tr0 -> log_ok evs rc ->
  free_blocks_logged tr0 (free_blocks_exit rc st count).
Proof.
  intros Htr Hok. unfold free_blocks_exit.
  destruct (count =? 0); cbn [free_blocks_logged]; exists evs;
    (split; [exact Htr|]); [exact Hok | apply Hok].
Qed.

Lemma free_blocks_loop_logged fuel : forall tr0 st evs0 bgf bgl first count,
  trace (fs st) = evs0 ++ tr0 ->
  first_failure evs0 = None -> refs_held evs0 = 0 ->
  free_blocks_logged tr0 (free_blocks_loop fuel EOK st bgf bgl first count).
Proof.
  induction fuel as [|fuel IH]; intros tr0 st evs0 bgf bgl first count
                                       Htr Hf Hr;
    cbn [free_blocks_loop].
  - destruct (bgf <=? bgl); [exact I|].
    apply (free_blocks_exit_logged tr0 EOK st count evs0 Htr).
    split; [unfold propagated; rewrite Hf; reflexivity | exact Hr].
  - destruct (bgf <=? bgl).
    + destruct (free_blocks_iter_logged st bgf first count)
        as (evs & Htr' & Hr' & Hf').
      destruct (free_blocks_iter st bgf first count)
        as [rc r|rc r first' count'|r first' count'];
        cbn [iter_state] in Htr'.
      * cbn [free_blocks_logged]. exists (evs ++ evs0).
        split; [rewrite Htr', Htr; apply app_assoc|].
        apply log_ok_app; [assumption..|].
        split; [unfold propagated; rewrite Hf'; reflexivity | exact Hr'].
      * apply (free_blocks_exit_logged tr0 rc r count' (evs ++ evs0)).
        -- rewrite Htr', Htr; apply app_assoc.
        -- apply log_ok_app; [assumption..|].
           split; [unfold propagated; rewrite Hf'; reflexivity | exact Hr'].
      * apply (IH tr0 r (evs ++ evs0)).
        -- rewrite Htr', Htr; apply app_assoc.
        -- rewrite first_failure_app, Hf. exact Hf'.
        -- rewrite refs_held_app. lia.
    + apply (free_blocks_exit_logged tr0 EOK st count evs0 Htr).
      split; [unfold propagated; rewrite Hf; reflexivity | exact Hr].
Qed.

Lemma free_blocks_logged_call fuel st first count :
  free_blocks_logged (trace (fs st))
    (ext4_balloc_free_blocks fuel st first count).
Proof.
  unfold ext4_balloc_free_blocks.
  destruct (negb _ && negb _).
  - exists []. split; reflexivity.
  - apply (free_blocks_loop_logged fuel (trace (fs st)) st []); reflexivity.
Qed.

(** *** The allocation paths *)

Lemma alloc_success_logged tr0 inode_ref f bg_ref blk evs1 :
  trace f = evs1 ++ tr0 ->
  first_failure evs1 = None -> refs_held evs1 = 1 ->
  alloc_logged tr0 (alloc_success inode_ref f bg_ref blk).
Proof.
  destruct f as [s b d l tr]. cbn [trace]. intros -> Hf Hr.
  unfold alloc_success, alloc_logged. unfold_calls.
  exists (EvPutRef (bg_index bg_ref) true (hd EOK l) :: evs1).
  split; [reflexivity|].
  unfold alloc_log_ok, alloc_propagated. cbn [first_failure ev_rc refs_held].
  rewrite Hf, Hr.
  destruct (Z.eqb_spec (hd EOK l) EOK) as [->|E]; split; auto; left; lia.
Qed.

Lemma alloc_logged_after tr0 res evs1 mid :
  mid = evs1 ++ tr0 ->
  first_failure evs1 = None -> refs_held evs1 = 0 ->
  alloc_logged mid res -> alloc_logged tr0 res.
Proof.
  intros -> Hf Hr. destruct res as [[rc fb] st'].
  intros (evs2 & Htr & Hok). exists (evs2 ++ evs1).
  split; [rewrite Htr; apply app_assoc|].
  apply alloc_log_ok_app; assumption.
Qed.

Ltac log_leaf Hk k :=
  cbv beta iota;
  match goal with
  | |- context [alloc_success ?ino ?f ?r ?blk] =>
      eapply alloc_success_logged; [split_log | codes; reflexivity..]
  | |- context [k ?x] =>
      let H := fresh "H" in
      pose proof (Hk x) as H; cbn [trace] in H;
      eapply alloc_logged_after; [ | | | exact H];
      [split_log | codes; reflexivity..]
  | |- _ => unfold alloc_logged; solve_log
  end.

Lemma alloc_try_group_logged continue inode_ref f bgid :
  (forall f', alloc_logged (trace f') (continue f')) ->
  alloc_logged (trace f) (alloc_try_group continue inode_ref f bgid).
Proof.
  intros Hk. destruct f as [s b d l tr], inode_ref as [f0 ino dty].
  unfold alloc_try_group. unfold_calls.
  branch; [|log_leaf Hk continue].
  destruct (_ =? 0).
  - branch; log_leaf Hk continue.
  - branch; [|log_leaf Hk continue].
    destruct (ext4_bmap_bit_find_clr _ _ _); repeat branch;
      log_leaf Hk continue.
Qed.

Lemma alloc_other_groups_logged count : forall inode_ref f G bgid,
  alloc_logged (trace f) (alloc_other_groups count inode_ref f G bgid).
Proof.
  induction count as [|count IH]; intros inode_ref f G bgid.
  - cbn [alloc_other_groups alloc_logged set_fs fs]. exists [].
    split; [reflexivity|]. split; [right; reflexivity | left; reflexivity].
  - cbn [alloc_other_groups]. apply alloc_try_group_logged.
    intros f'. apply IH.
Qed.

Lemma alloc_goal_failed_logged inode_ref f bg_ref block_group evs1 tr0 :
  trace f = evs1 ++ tr0 ->
  first_failure evs1 = None -> refs_held evs1 = 1 ->
  alloc_logged tr0 (alloc_goal_failed inode_ref f bg_ref block_group).
Proof.
  destruct f as [s b d l tr], inode_ref as [f0 ino dty].
  cbn [trace]. intros -> Hf Hr.
  unfold alloc_goal_failed. unfold_calls.
  branch.
  - match goal with
    | |- context [alloc_other_groups ?n ?r ?x ?G ?g] =>
        pose proof (alloc_other_groups_logged n r x G g) as H
    end.
    cbn [trace] in H.
    eapply (alloc_logged_after tr0 _
              (EvPutRef (bg_index bg_ref) (bg_dirty bg_ref) EOK :: evs1));
      [reflexivity | | | exact H].
    + cbn [first_failure ev_rc]. rewrite Hf. reflexivity.
    + cbn [refs_held]. lia.
  - unfold alloc_logged. cbn [fs trace].
    exists (EvPutRef (bg_index bg_ref) (bg_dirty bg_ref) (hd EOK l) :: evs1).
    split; [reflexivity|].
    unfold alloc_log_ok, alloc_propagated. cbn [first_failure ev_rc refs_held].
    rewrite Hf, Hr, (proj2 (Z.eqb_neq _ _) E).
    split; [reflexivity | left; lia].
Qed.

Ltac goal_failed_log :=
  match goal with
  | |- context [alloc_goal_failed ?r ?x ?bg ?g] =>
      eapply alloc_goal_failed_logged; [split_log | codes; reflexivity..]
  end.

Lemma alloc_block_logged st goal :
  alloc_logged (trace (fs st)) (ext4_balloc_alloc_block st goal).
Proof.
  destruct st as [[s b d l tr] ino dty].
  unfold ext4_balloc_alloc_block. unfold_calls.
  branch; [|log_leaf I I].
  destruct (_ =? 0); [goal_failed_log|].
  branch; [|log_leaf I I].
  destruct (ext4_bmap_is_bit_clr _ _).
  { branch; log_leaf I I. }
  destruct (near_goal_scan _ _ _).
  { branch; log_leaf I I. }
  destruct (ext4_bmap_bit_find_clr _ _ _).
  { branch; log_leaf I I. }
  branch; [goal_failed_log | log_leaf I I].
Qed.

Lemma first_failure_none evs :
  first_failure evs = None <-> Forall (fun e => ev_rc e = EOK) evs.
Proof.
  induction evs as [|e evs IH]; cbn [first_failure].
  - split; [constructor | reflexivity].
  - destruct (first_failure evs) as [c|].
    + split; [discriminate|]. intros H. inversion H; subst.
      apply IH in H3. discriminate.
    + destruct (Z.eqb_spec (ev_rc e) EOK) as [E|E].
      * split; [|reflexivity]. intros _. constructor; [exact E|].
        apply IH. reflexivity.
      * split; [discriminate|]. intros H. inversion H; subst. contradiction.
Qed.

Lemma first_failure_some evs c : first_failure evs = Some c -> c <> EOK.
Proof.
  induction evs as [|e evs IH]; cbn [first_failure]; [discriminate|].
  destruct (first_failure evs) as [c'|].
  - intros H. injection H as ->. apply IH. reflexivity.
  - destruct (Z.eqb_spec (ev_rc e) EOK) as [E|E]; [discriminate|].
    intros H. injection H as <-. exact E.
Qed.

Lemma propagated_ok evs rc :
  propagated evs rc ->
  (rc = EOK <-> Forall (fun e => ev_rc e = EOK) evs).
Proof.
  unfold propagated. intros H. rewrite <- first_failure_none.
  destruct (first_failure evs) as [c|] eqn:Hf.
  - subst rc. apply first_failure_some in Hf.
    split; [contradiction | discriminate].
  - split; auto.
Qed.

(** X3.  [free_one], [free_range] and [try_one] return the code of the first
    collaborator call that failed, and [EOK] if none failed: no failure of
    the device is swallowed and no error is made up.  In particular the
    result is [EOK] exactly when every call made during the operation
    returned [EOK]. *)
Theorem errors_propagate :
  (forall st baddr,
     let '(rc, st') := ext4_balloc_free_block st baddr in
     exists evs, trace (fs st') = evs ++ trace (fs st) /\
       propagated evs rc /\
       (rc = EOK <-> Forall (fun e => ev_rc e = EOK) evs)) /\
  (forall fuel st first count,
     match ext4_balloc_free_blocks fuel st first count with
     | Returned rc st' =>
         exists evs, trace (fs st') = evs ++ trace (fs st) /\
           propagated evs rc /\
           (rc = EOK <-> Forall (fun e => ev_rc e = EOK) evs)
     | _ => True
     end) /\
  (forall st baddr,
     let '(rc, _, st') := ext4_balloc_try_alloc_block st baddr in
     exists evs, trace (fs st') = evs ++ trace (fs st) /\
       propagated evs rc /\
       (rc = EOK <-> Forall (fun e => ev_rc e = EOK) evs)).
Proof.
  split; [|split].
  - intros st baddr. pose proof (free_block_logged st baddr) as H.
    destruct (ext4_balloc_free_block st baddr) as [rc st'].
    destruct H as (evs & Htr & Hp & _). exists evs.
    split; [exact Htr|]. split; [exact Hp | apply propagated_ok, Hp].
  - intros fuel st first count.
    pose proof (free_blocks_logged_call fuel st first count) as H.
    destruct (ext4_balloc_free_blocks fuel st first count) as [rc st'|st'|];
      [|exact I..].
    destruct H as (evs & Htr & Hp & _). exists evs.
    split; [exact Htr|]. split; [exact Hp | apply propagated_ok, Hp].
  - intros st baddr. pose proof (try_alloc_block_logged st baddr) as H.
    destruct (ext4_balloc_try_alloc_block st baddr) as [[rc fr] st'].
    destruct H as (evs & Htr & Hp & _). exists evs.
    split; [exact Htr|]. split; [exact Hp | apply propagated_ok, Hp].
Qed.

(** X4.  [alloc] returns the code of the first collaborator call that failed;
    if none failed it returns [EOK] or [ENOSPC]. *)
Theorem alloc_errors_propagate st goal :
  let '(rc, _, st') := ext4_balloc_alloc_block st goal in
  exists evs, trace (fs st') = evs ++ trace (fs st) /\
    match first_failure evs with
    | Some e => rc = e /\ e <> EOK
    | None => rc = EOK \/ rc = ENOSPC
    end.
Proof.
  pose proof (alloc_block_logged st goal) as H.
  destruct (ext4_balloc_alloc_block st goal) as [[rc fb] st'].
  destruct H as (evs & Htr & Hp & _). exists evs. split; [exact Htr|].
  unfold alloc_propagated in Hp.
  destruct (first_failure evs) as [c|] eqn:Hf; [|exact Hp].
  split; [exact Hp | apply (first_failure_some evs c Hf)].
Qed.

(** X5.  [free_one], [free_range] and [try_one] release every group handle they
    acquire, on every return path and whatever the device answers; so does
    [free_range] when its closing assertion fails. *)
Theorem handles_released :
  (forall st baddr,
     let '(_, st') := ext4_balloc_free_block st baddr in
     exists evs, trace (fs st') = evs ++ trace (fs st) /\ refs_held evs = 0) /\
  (forall fuel st first count,
     match ext4_balloc_free_blocks fuel st first count with
     | Returned _ st' | AssertFailed st' =>
         exists evs, trace (fs st') = evs ++ trace (fs st) /\
                     refs_held evs = 0
     | OutOfFuel => True
     end) /\
  (forall st baddr,
     let '(_, _, st') := ext4_balloc_try_alloc_block st baddr in
     exists evs, trace (fs st') = evs ++ trace (fs st) /\ refs_held evs = 0).
Proof.
  split; [|split].
  - intros st baddr. pose proof (free_block_logged st baddr) as H.
    destruct (ext4_balloc_free_block st baddr) as [rc st'].
    destruct H as (evs & Htr & _ & Hr). exists evs. auto.
  - intros fuel st first count.
    pose proof (free_blocks_logged_call fuel st first count) as H.
    destruct (ext4_balloc_free_blocks fuel st first count) as [rc st'|st'|];
      [| |exact I].
    + destruct H as (evs & Htr & _ & Hr). exists evs. auto.
    + destruct H as (evs & Htr & Hr). exists evs. auto.
  - intros st baddr. pose proof (try_alloc_block_logged st baddr) as H.
    destruct (ext4_balloc_try_alloc_block st baddr) as [[rc fr] st'].
    destruct H as (evs & Htr & _ & Hr). exists evs. auto.
Qed.

(** *** Which return of [alloc] keeps a handle *)

Lemma leak_exact_app evs2 evs1 rc :
  not_store_last evs1 -> refs_held evs1 = 0 ->
  leak_exact evs2 rc -> leak_exact (evs2 ++ evs1) rc.
Proof.
  intros Hn Hr H. destruct evs2 as [|e evs2].
  - cbn [app]. destruct evs1 as [|[] evs1]; cbn in Hn |- *;
      try exact Hr; contradiction.
  - cbn [app]. unfold leak_exact in *.
    change (e :: evs2 ++ evs1) with ((e :: evs2) ++ evs1).
    rewrite refs_held_app, Hr, Z.add_0_r. exact H.
Qed.

Lemma alloc_success_balanced tr0 inode_ref f bg_ref blk evs1 :
  trace f = evs1 ++ tr0 -> refs_held evs1 = 1 ->
  alloc_balanced tr0 (alloc_success inode_ref f bg_ref blk).
Proof.
  destruct f as [s b d l tr]. cbn [trace]. intros -> Hr.
  unfold alloc_success, alloc_balanced. unfold_calls.
  exists (EvPutRef (bg_index bg_ref) true (hd EOK l) :: evs1).
  split; [reflexivity|]. cbn [leak_exact refs_held]. lia.
Qed.

Lemma alloc_balanced_after tr0 res evs1 mid :
  mid = evs1 ++ tr0 ->
  not_store_last evs1 -> refs_held evs1 = 0 ->
  alloc_balanced mid res -> alloc_balanced tr0 res.
Proof.
  intros -> Hn Hr. destruct res as [[rc fb] st'].
  intros (evs2 & Htr & Hok). exists (evs2 ++ evs1).
  split; [rewrite Htr; apply app_assoc|].
  apply leak_exact_app; assumption.
Qed.

Ltac solve_balance :=
  cbn [fs trace]; name_events; unfold leak_exact;
  codes; split_codes;
  repeat split; try reflexivity; try assumption; try lia.

Ltac bal_leaf Hk k :=
  cbv beta iota;
  match goal with
  | |- context [alloc_success ?ino ?f ?r ?blk] =>
      eapply alloc_success_balanced; [split_log | codes; reflexivity]
  | |- context [k ?x] =>
      let H := fresh "H" in
      pose proof (Hk x) as H; cbn [trace] in H;
      eapply alloc_balanced_after; [ | | | exact H];
      [split_log | exact I | codes; reflexivity]
  | |- _ => unfold alloc_balanced; solve_balance
  end.

Lemma alloc_try_group_balanced continue inode_ref f bgid :
  (forall f', alloc_balanced (trace f') (continue f')) ->
  alloc_balanced (trace f) (alloc_try_group continue inode_ref f bgid).
Proof.
  intros Hk. destruct f as [s b d l tr], inode_ref as [f0 ino dty].
  unfold alloc_try_group. unfold_calls.
  branch; [|bal_leaf Hk continue].
  destruct (_ =? 0).
  - branch; bal_leaf Hk continue.
  - branch; [|bal_leaf Hk continue].
    destruct (ext4_bmap_bit_find_clr _ _ _); repeat branch;
      bal_leaf Hk continue.
Qed.

Lemma alloc_other_groups_balanced count : forall inode_ref f G bgid,
  alloc_balanced (trace f) (alloc_other_groups count inode_ref f G bgid).
Proof.
  induction count as [|count IH]; intros inode_ref f G bgid.
  - cbn [alloc_other_groups alloc_balanced set_fs fs]. exists [].
    split; reflexivity.
  - cbn [alloc_other_groups]. apply alloc_try_group_balanced.
    intros f'. apply IH.
Qed.

Lemma alloc_goal_failed_balanced inode_ref f bg_ref block_group evs1 tr0 :
  trace f = evs1 ++ tr0 -> refs_held evs1 = 1 ->
  alloc_balanced tr0 (alloc_goal_failed inode_ref f bg_ref block_group).
Proof.
  destruct f as [s b d l tr], inode_ref as [f0 ino dty].
  cbn [trace]. intros -> Hr.
  unfold alloc_goal_failed. unfold_calls.
  branch.
  - match goal with
    | |- context [alloc_other_groups ?n ?r ?x ?G ?g] =>
        pose proof (alloc_other_groups_balanced n r x G g) as H
    end.
    cbn [trace] in H.
    eapply (alloc_balanced_after tr0 _
              (EvPutRef (bg_index bg_ref) (bg_dirty bg_ref) EOK :: evs1));
      [reflexivity | exact I | | exact H].
    cbn [refs_held]. lia.
  - unfold alloc_balanced. cbn [fs trace].
    exists (EvPutRef (bg_index bg_ref) (bg_dirty bg_ref) (hd EOK l) :: evs1).
    split; [reflexivity|]. cbn [leak_exact refs_held]. lia.
Qed.

Ltac goal_failed_bal :=
  match goal with
  | |- context [alloc_goal_failed ?r ?x ?bg ?g] =>
      eapply alloc_goal_failed_balanced; [split_log | codes; reflexivity]
  end.

Lemma alloc_block_balanced st goal :
  alloc_balanced (trace (fs st)) (ext4_balloc_alloc_block st goal).
Proof.
  destruct st as [[s b d l tr] ino dty].
  unfold ext4_balloc_alloc_block. unfold_calls.
  branch; [|bal_leaf I I].
  destruct (_ =? 0); [goal_failed_bal|].
  branch; [|bal_leaf I I].
  destruct (ext4_bmap_is_bit_clr _ _).
  { branch; bal_leaf I I. }
  destruct (near_goal_scan _ _ _).
  { branch; bal_leaf I I. }
  destruct (ext4_bmap_bit_find_clr _ _ _).
  { branch; bal_leaf I I. }
  branch; [goal_failed_bal | bal_leaf I I].
Qed.

(** X6.  [alloc] holds a group handle when it returns exactly when the
    newest call of its log is a bitmap store, that is when it returned
    straight from a store that failed: that store was dirty (a bit had been
    claimed), its code is the return code, and exactly one handle is held.
    On every other return (also after a failed store that is followed by the
    release of the handle) every handle acquired has been released. *)
Theorem alloc_handle_balance st goal :
  let '(rc, _, st') := ext4_balloc_alloc_block st goal in
  exists evs, trace (fs st') = evs ++ trace (fs st) /\
    match evs with
    | EvBlockSet _ dirty c :: _ =>
        refs_held evs = 1 /\ dirty = true /\ c = rc /\ rc <> EOK
    | _ => refs_held evs = 0
    end.
Proof.
  pose proof (alloc_block_balanced st goal) as H.
  destruct (ext4_balloc_alloc_block st goal) as [[rc fb] st'].
  destruct H as (evs & Htr & Hb). exists evs. split; [exact Htr | exact Hb].
Qed.


(** ** How the operations compose *)

(** X7.  [free_range] of one block is [free_one] of that block: the same return
    code and the same state, log included, whatever the device answers. *)
Theorem free_blocks_one fuel st first :
  let s := sb (fs st) in
  0 < blocks_per_group s <= 8 * block_size s ->
  0 < block_size s <= 65536 ->
  0 <= first < 2 ^ 64 ->
  ext4_balloc_get_bgid_of_block s first < 2 ^ 32 - 1 ->
  ext4_balloc_free_blocks (S fuel) st first 1 =
  (let '(rc, st') := ext4_balloc_free_block st first in Returned rc st').
Proof.
  destruct st as [[s b d l tr] ino dty]. cbn [fs sb].
  intros Hbpg HB Hfirst Hg.
  pose proof (index_in_group_range s first ltac:(lia)) as Hi.
  pose proof (bgid_nonneg s first) as Hg0.
  assert (Hfc : (1 >? wrap32 (wrap32 (block_size s * 8)
                              - ext4_fs_baddr2_index_in_group s first))
                = false).
  { rewrite (wrap32_small (block_size s * 8)) by lia.
    rewrite wrap32_small by lia. rewrite Z.gtb_ltb. apply Z.ltb_ge. lia. }
  assert (Hsec : wrap32 (1 * (block_size s / EXT4_INODE_BLOCK_SIZE))
                 = block_size s / EXT4_INODE_BLOCK_SIZE).
  { pose proof (sectors_bound (block_size s) 1 HB ltac:(lia)) as Hb.
    unfold EXT4_INODE_BLOCK_SIZE. rewrite wrap32_small by lia. lia. }
  assert (Hnext : (wrap32 (ext4_balloc_get_bgid_of_block s first + 1)
                   <=? ext4_balloc_get_bgid_of_block s first) = false).
  { rewrite wrap32_small by lia. apply Z.leb_gt. lia. }
  unfold ext4_balloc_free_blocks. cbn [fs sb].
  rewrite Z.add_simpl_r, (wrap64_small first) by lia.
  rewrite Z.eqb_refl, andb_false_r.
  cbn [free_blocks_loop]. rewrite Z.leb_refl.
  unfold free_blocks_iter, ext4_balloc_free_block. unfold_calls.
  rewrite !Hfc, !Hsec.
  repeat branch; try reflexivity.
  - rewrite free_blocks_loop_done by exact Hnext. reflexivity.
Qed.

Lemma free_blocks_one_witness :
  ext4_balloc_free_blocks 1 (inode_small [0; 0; 0; 7]) 5 1 =
  (let '(rc, st') := ext4_balloc_free_block (inode_small [0; 0; 0; 7]) 5 in
   Returned rc st').
Proof.
  apply (free_blocks_one 0 (inode_small [0; 0; 0; 7]) 5);
    [cbn; lia | cbn; lia | lia | reflexivity].
Defined.

(** The bitmap of the group an operation worked on. *)
Lemma effect_bitmap_of f ino st' g upd dfree dino :
  op_effect f ino st' g upd dfree dino ->
  bitmap_of (fs st') g = upd (bitmap_of f g).
Proof.
  intros (_ & _ & Hdev & (_ & Hbm & _) & _).
  unfold bitmap_of. rewrite Hbm, Hdev. apply fn_lookup_alter.
Qed.

(** On a consistent filesystem the bit that an allocation claims lies in
    the valid prefix of a group of the filesystem. *)
Lemma alloc_claimed_in_group f goal g j :
  consistent f ->
  ext4_balloc_get_bgid_of_block (sb f) goal < ext4_block_group_cnt (sb f) ->
  alloc_claimed f goal g j ->
  0 <= g < ext4_block_group_cnt (sb f) /\
  0 <= j < ext4_blocks_in_group_cnt (sb f) g.
Proof.
  intros Hcons Hgg (Hfree & Hclr & Hj0 & Hwhere).
  pose proof Hcons as (_ & (Hbpg & HB & HG) & Hbc & _ & Hlen & _ & Hpad).
  pose proof (bgid_nonneg (sb f) goal) as Hg0.
  pose proof (index_in_group_range (sb f) goal ltac:(lia)) as Hi0.
  pose proof (index_in_group_range (sb f)
    (ext4_balloc_get_block_of_bgid (sb f)
      (ext4_balloc_get_bgid_of_block (sb f) goal)) ltac:(lia)) as Hfi.
  unfold first_index in Hwhere.
  assert (Hg : 0 <= g < ext4_block_group_cnt (sb f))
    by (destruct Hwhere as [[-> _]|[[-> _]|[H _]]]; lia).
  pose proof (blocks_in_group_range (sb f) g ltac:(lia) Hbc Hg) as Hn.
  assert (Hj : j < blocks_per_group (sb f))
    by (destruct Hwhere as [[-> ->]|[[-> H]|[_ H]]]; lia).
  split; [exact Hg|]. split; [exact Hj0|].
  destruct (Z.lt_ge_cases j (ext4_blocks_in_group_cnt (sb f) g)) as [H|H];
    [exact H|].
  unfold bitmap_of in Hpad. rewrite (Hpad g j Hg) in Hclr by lia.
  discriminate.
Qed.

(** What a successful allocation on a consistent filesystem claimed. *)
Lemma alloc_block_claims st goal fblock st' :
  let f := fs st in
  let s := sb f in
  consistent f ->
  ext4_balloc_get_bgid_of_block s goal < ext4_block_group_cnt s ->
  ext4_balloc_alloc_block st goal = (EOK, fblock, st') ->
  exists g j,
    0 <= g < ext4_block_group_cnt s /\
    0 <= j < ext4_blocks_in_group_cnt s g /\
    fblock = Some (ext4_fs_index_in_group2_baddr s j g) /\
    ext4_bmap_is_bit_clr (bitmap_of f g) j = true /\
    ext4_bmap_is_bit_clr (bitmap_of (fs st') g) j = false /\
    (forall h k, 0 <= h < ext4_block_group_cnt s -> 0 <= k ->
       (h, k) <> (g, j) ->
       ext4_bmap_is_bit_clr (bitmap_of (fs st') h) k =
       ext4_bmap_is_bit_clr (bitmap_of f h) k) /\
    consistent (fs st') /\
    op_effect f (inode_blocks_count st) st' g
      (fun d => ext4_bmap_bit_set d j) (-1) (block_size s / 512).
Proof.
  intros f s Hcons Hgg Hrun. subst f s.
  pose proof Hcons as (_ & (Hbpg & HB & HG) & Hbc & _ & Hlen & _).
  pose proof (alloc_block_effect st goal ltac:(lia) HG) as Hpost.
  rewrite Hrun in Hpost.
  destruct (Hpost eq_refl) as (g & j & Hcl & Hfb & Heff).
  destruct (alloc_claimed_in_group _ _ _ _ Hcons Hgg Hcl) as [Hg Hj].
  pose proof (blocks_in_group_range (sb (fs st)) g ltac:(lia) Hbc Hg) as Hn.
  pose proof (effect_bitmap_of _ _ _ _ _ _ _ Heff) as Hbm.
  assert (Hlen8 : j < 8 * Z.of_nat (length (bitmap_of (fs st) g)))
    by (rewrite (Hlen g Hg); lia).
  exists g, j. split; [exact Hg|]. split; [exact Hj|]. split; [exact Hfb|].
  split; [apply Hcl|]. split.
  { rewrite Hbm, is_clr_after_set by lia. rewrite Z.eqb_refl. reflexivity. }
  split.
  { intros h k Hh Hk Hne. destruct (Z.eq_dec h g) as [->|Hhg].
    - rewrite Hbm, is_clr_after_set by lia.
      destruct (Z.eqb_spec k j) as [->|_]; [congruence | reflexivity].
    - rewrite (effect_other_bitmap _ _ _ _ _ _ _ h Hcons Hg Hh Hhg Heff).
      reflexivity. }
  split; [|exact Heff].
  eapply alloc_block_consistent; eassumption.
Qed.

(** X8.  On a consistent filesystem, with a goal in one of its groups, a
    successful [alloc] returns the address of a block that lies in the valid
    prefix of a group and whose bit was clear; it sets that bit, leaves
    every other bit of every bitmap as it was, and the filesystem is
    consistent again. *)
Theorem alloc_returns_free_block st goal fblock st' :
  let f := fs st in
  let s := sb f in
  consistent f ->
  ext4_balloc_get_bgid_of_block s goal < ext4_block_group_cnt s ->
  ext4_balloc_alloc_block st goal = (EOK, fblock, st') ->
  exists g j,
    0 <= g < ext4_block_group_cnt s /\
    0 <= j < ext4_blocks_in_group_cnt s g /\
    fblock = Some (ext4_fs_index_in_group2_baddr s j g) /\
    ext4_bmap_is_bit_clr (bitmap_of f g) j = true /\
    ext4_bmap_is_bit_clr (bitmap_of (fs st') g) j = false /\
    (forall h k, 0 <= h < ext4_block_group_cnt s -> 0 <= k ->
       (h, k) <> (g, j) ->
       ext4_bmap_is_bit_clr (bitmap_of (fs st') h) k =
       ext4_bmap_is_bit_clr (bitmap_of f h) k) /\
    consistent (fs st').
Proof.
  intros f s Hcons Hgg Hrun.
  destruct (alloc_block_claims st goal fblock st' Hcons Hgg Hrun)
    as (g & j & H1 & H2 & H3 & H4 & H5 & H6 & H7 & _).
  exists g, j. auto 10.
Qed.

Lemma alloc_returns_free_block_witness :
  consistent (fs (inode_small [])) /\
  exists g j,
    Some 9 = Some (ext4_fs_index_in_group2_baddr sb_small j g) /\
    ext4_bmap_is_bit_clr (bitmap_of (fs (inode_small [])) g) j = true /\
    consistent (fs (snd (ext4_balloc_alloc_block (inode_small []) 3))).
Proof.
  split; [exact consistent_small|].
  assert (Hgg : ext4_balloc_get_bgid_of_block (sb (fs (inode_small []))) 3
                < ext4_block_group_cnt (sb (fs (inode_small []))))
    by reflexivity.
  assert (Hrun : ext4_balloc_alloc_block (inode_small []) 3 =
                 (EOK, Some 9,
                  snd (ext4_balloc_alloc_block (inode_small []) 3)))
    by reflexivity.
  destruct (alloc_returns_free_block (inode_small []) 3 (Some 9) _
              consistent_small Hgg Hrun)
    as (g & j & _ & _ & Hfb & Hclr & _ & _ & Hcons).
  exists g, j. split; [exact Hfb|]. split; [exact Hclr | exact Hcons].
Defined.

(** *** Round trips of the address helpers *)

Lemma index2baddr_inj s j g j' g' :
  0 < blocks_per_group s ->
  0 <= j < blocks_per_group s -> 0 <= j' < blocks_per_group s ->
  ext4_fs_index_in_group2_baddr s j g = ext4_fs_index_in_group2_baddr s j' g' ->
  g = g' /\ j = j'.
Proof.
  unfold ext4_fs_index_in_group2_baddr. intros Hbpg Hj Hj' Heq.
  assert (g = g') by nia. subst g'. split; [reflexivity | lia].
Qed.

Lemma index2baddr_round_trip s j g :
  0 < blocks_per_group s ->
  0 <= g < 2 ^ 32 -> 0 <= j < blocks_per_group s ->
  let a := ext4_fs_index_in_group2_baddr s j g in
  ext4_balloc_get_bgid_of_block s a = g /\
  ext4_fs_baddr2_index_in_group s a = j.
Proof.
  intros Hbpg Hg Hj a. subst a. unfold ext4_fs_index_in_group2_baddr.
  fold (reserved s). pose proof (reserved_range s) as Hres.
  replace (reserved s + g * blocks_per_group s + j)
    with (reserved s + (blocks_per_group s * g + 0 + j)) by lia.
  destruct (div_mod_in_group (blocks_per_group s) g 0 j) as [Hq Hm];
    try lia.
  destruct (bgid_index_of s
              (reserved s + (blocks_per_group s * g + 0 + j)))
    as [Hb Hi]; try lia.
  - replace (reserved s + (blocks_per_group s * g + 0 + j) - reserved s)
      with (blocks_per_group s * g + 0 + j) by lia.
    rewrite Hq. lia.
  - rewrite Hb, Hi.
    replace (reserved s + (blocks_per_group s * g + 0 + j) - reserved s)
      with (blocks_per_group s * g + 0 + j) by lia.
    rewrite Hq, Hm. split; lia.
Qed.

Lemma baddr_round_trip s a :
  0 < blocks_per_group s -> reserved s <= a ->
  (a - reserved s) / blocks_per_group s < 2 ^ 32 ->
  ext4_fs_index_in_group2_baddr s
    (ext4_fs_baddr2_index_in_group s a)
    (ext4_balloc_get_bgid_of_block s a) = a.
Proof.
  intros Hbpg Ha Hlt. destruct (bgid_index_of s a Hbpg Ha Hlt) as [-> ->].
  unfold ext4_fs_index_in_group2_baddr. fold (reserved s).
  pose proof (Z.div_mod (a - reserved s) (blocks_per_group s) ltac:(lia)).
  lia.
Qed.

(** The state with another device script is the same filesystem. *)
Lemma consistent_set_script st script :
  consistent (fs st) -> consistent (fs (set_script st script)).
Proof. apply consistent_ext; reflexivity. Qed.

(** X9.  Two successive successful allocations never return the same block. *)
Theorem alloc_twice_distinct st goal a st1 script goal' a' st2 :
  let s := sb (fs st) in
  consistent (fs st) ->
  ext4_balloc_get_bgid_of_block s goal < ext4_block_group_cnt s ->
  ext4_balloc_get_bgid_of_block s goal' < ext4_block_group_cnt s ->
  ext4_balloc_alloc_block st goal = (EOK, Some a, st1) ->
  ext4_balloc_alloc_block (set_script st1 script) goal' = (EOK, Some a', st2) ->
  a' <> a.
Proof.
  intros s Hcons Hgg Hgg' H1 H2. subst s.
  pose proof Hcons as (_ & (Hbpg & HB & HG) & Hbc & _).
  destruct (alloc_block_claims st goal _ st1 Hcons Hgg H1)
    as (g & j & Hg & Hj & Hfb & _ & Hset & _ & Hcons1 & Heff).
  pose proof Heff as (Hsg & _).
  pose proof (consistent_set_script st1 script Hcons1) as Hcons1'.
  assert (Hgg1 : ext4_balloc_get_bgid_of_block
                   (sb (fs (set_script st1 script))) goal'
                 < ext4_block_group_cnt (sb (fs (set_script st1 script)))).
  { cbn [set_script fs sb].
    rewrite (bgid_same_geometry _ _ goal' Hsg),
            (group_cnt_same_geometry _ _ Hsg). exact Hgg'. }
  destruct (alloc_block_claims (set_script st1 script) goal' _ st2
              Hcons1' Hgg1 H2)
    as (g' & j' & Hg' & Hj' & Hfb' & Hclr' & _).
  cbn [set_script fs sb] in Hg', Hj', Hfb', Hclr'.
  rewrite (group_cnt_same_geometry _ _ Hsg) in Hg'.
  rewrite (blocks_in_group_same_geometry _ _ g' Hsg) in Hj'.
  pose proof (blocks_in_group_range (sb (fs st)) g ltac:(lia) Hbc Hg) as Hn.
  pose proof (blocks_in_group_range (sb (fs st)) g' ltac:(lia) Hbc Hg') as Hn'.
  intros Heq. subst a'.
  injection Hfb as Ha. injection Hfb' as Ha'.
  assert (Hidx : ext4_fs_index_in_group2_baddr (sb (fs st1)) j' g' =
                 ext4_fs_index_in_group2_baddr (sb (fs st)) j' g').
  { unfold ext4_fs_index_in_group2_baddr.
    destruct Hsg as (-> & -> & _). reflexivity. }
  rewrite Hidx in Ha'.
  destruct (index2baddr_inj (sb (fs st)) j g j' g') as [<- <-];
    [lia | lia | lia | congruence |].
  unfold bitmap_of in Hclr', Hset. cbn [bdev bgs] in Hclr'.
  rewrite Hclr' in Hset. discriminate.
Qed.

Lemma alloc_twice_distinct_witness :
  consistent (fs (inode_small [])) /\
  ext4_balloc_alloc_block (inode_small []) 3 =
    (EOK, Some 9, snd (ext4_balloc_alloc_block (inode_small []) 3)) /\
  ext4_balloc_alloc_block
    (set_script (snd (ext4_balloc_alloc_block (inode_small []) 3)) []) 3 =
    (EOK, Some 10,
     snd (ext4_balloc_alloc_block
            (set_script (snd (ext4_balloc_alloc_block (inode_small []) 3)) [])
            3)) /\
  10 <> 9.
Proof.
  assert (H1 : ext4_balloc_alloc_block (inode_small []) 3 =
               (EOK, Some 9, snd (ext4_balloc_alloc_block (inode_small []) 3)))
    by (vm_compute; reflexivity).
  assert (H2 : ext4_balloc_alloc_block
                 (set_script (snd (ext4_balloc_alloc_block (inode_small []) 3))
                    []) 3 =
               (EOK, Some 10,
                snd (ext4_balloc_alloc_block
                       (set_script
                          (snd (ext4_balloc_alloc_block (inode_small []) 3))
                          []) 3)))
    by (vm_compute; reflexivity).
  split; [exact consistent_small|]. split; [exact H1|]. split; [exact H2|].
  eapply (alloc_twice_distinct (inode_small []) 3 _ _ [] 3 _ _
            consistent_small);
    [ | | exact H1 | exact H2]; reflexivity.
Defined.

(** X10.  After a successful [alloc], [try_one] of the block it returned
    reports
    the block as not free and changes nothing. *)
Theorem alloc_then_try st goal a st1 script was_free st2 :
  let s := sb (fs st) in
  consistent (fs st) ->
  ext4_balloc_get_bgid_of_block s goal < ext4_block_group_cnt s ->
  ext4_balloc_alloc_block st goal = (EOK, Some a, st1) ->
  ext4_balloc_try_alloc_block (set_script st1 script) a
    = (EOK, was_free, st2) ->
  was_free = Some false /\
  op_no_effect (fs st1) (inode_blocks_count st1) st2.
Proof.
  intros s Hcons Hgg H1 H2. subst s.
  pose proof Hcons as (_ & (Hbpg & HB & HG) & Hbc & HG32 & _).
  destruct (alloc_block_claims st goal _ st1 Hcons Hgg H1)
    as (g & j & Hg & Hj & Hfb & _ & Hset & _ & _ & Heff).
  pose proof Heff as (Hsg & _).
  pose proof (blocks_in_group_range (sb (fs st)) g ltac:(lia) Hbc Hg) as Hn.
  injection Hfb as ->.
  destruct (index2baddr_round_trip (sb (fs st)) j g) as [Hb Hi]; try lia.
  apply try_alloc_block_effect in H2. cbv zeta in H2.
  cbn [set_script fs sb bgs bdev inode_blocks_count] in H2.
  rewrite (bgid_same_geometry _ _ _ Hsg), (index_same_geometry _ _ _ Hsg),
    Hb, Hi in H2.
  unfold bitmap_of in Hset. rewrite Hset in H2.
  destruct H2 as [-> Hno]. split; [reflexivity | exact Hno].
Qed.

Lemma alloc_then_try_witness :
  consistent (fs (inode_small [])) /\
  ext4_balloc_alloc_block (inode_small []) 3 =
    (EOK, Some 9, snd (ext4_balloc_alloc_block (inode_small []) 3)) /\
  ext4_balloc_try_alloc_block
    (set_script (snd (ext4_balloc_alloc_block (inode_small []) 3)) []) 9 =
    (EOK, Some false,
     snd (ext4_balloc_try_alloc_block
            (set_script (snd (ext4_balloc_alloc_block (inode_small []) 3)) [])
            9)).
Proof.
  assert (H1 : ext4_balloc_alloc_block (inode_small []) 3 =
               (EOK, Some 9, snd (ext4_balloc_alloc_block (inode_small []) 3)))
    by (vm_compute; reflexivity).
  destruct (ext4_balloc_try_alloc_block
              (set_script (snd (ext4_balloc_alloc_block (inode_small []) 3))
                 []) 9) as [[rc wf] st2] eqn:H2.
  assert (Hrc : rc = EOK)
    by (vm_compute in H2; injection H2 as Hr _ _; symmetry; exact Hr).
  subst rc.
  destruct (alloc_then_try (inode_small []) 3 9 _ [] wf st2
              consistent_small ltac:(reflexivity) H1 H2) as [-> _].
  split; [exact consistent_small|]. split; [exact H1 | reflexivity].
Defined.

(** *** Allocation and release undo each other *)

Lemma wrap32_add_l a b : wrap32 (wrap32 a + b) = wrap32 (a + b).
Proof. unfold wrap32. apply Zplus_mod_idemp_l. Qed.

(** The counters of a consistent filesystem fit their C types. *)
Lemma consistent_counts f :
  consistent f ->
  0 <= free_blocks_count (sb f) < 2 ^ 64 /\
  forall g, 0 <= g < ext4_block_group_cnt (sb f) ->
    0 <= bg_free_blocks_count (bgs f g) <= blocks_per_group (sb f).
Proof.
  intros ((Hsum & Hgrp) & (Hbpg & HB & HG) & Hbc & HG32 & _).
  assert (Hbg : forall g, 0 <= g < ext4_block_group_cnt (sb f) ->
            0 <= bg_free_blocks_count (bgs f g) <= blocks_per_group (sb f)).
  { intros g Hg. rewrite (Hgrp g Hg).
    pose proof (blocks_in_group_range (sb f) g ltac:(lia) Hbc Hg) as Hn.
    pose proof (count_clr_range (bitmap_of f g)
                  (ext4_blocks_in_group_cnt (sb f) g) ltac:(lia)). lia. }
  split; [|exact Hbg].
  rewrite Hsum.
  pose proof (sum_free_bound (bgs f) (blocks_per_group (sb f))
                (Z.to_nat (ext4_block_group_cnt (sb f))) ltac:(lia)) as Hb.
  rewrite Z2Nat.id in Hb by lia. specialize (Hb Hbg). nia.
Qed.

Lemma land_lor_lnot x m : Z.land x m = 0 -> Z.land (Z.lor x m) (Z.lnot m) = x.
Proof.
  intros H. apply Z.bits_inj'. intros n Hn.
  rewrite Z.land_spec, Z.lor_spec, Z.lnot_spec by lia.
  assert (Hb : Z.testbit (Z.land x m) n = false)
    by (rewrite H; apply Z.bits_0).
  rewrite Z.land_spec in Hb.
  destruct (Z.testbit x n), (Z.testbit m n); simpl in *; congruence.
Qed.

(** Clearing a bit that was clear before it was set gives the bitmap
    back. *)
Lemma bit_clr_set_id bmap j :
  ext4_bmap_is_bit_clr bmap j = true ->
  ext4_bmap_bit_clr (ext4_bmap_bit_set bmap j) j = bmap.
Proof.
  unfold ext4_bmap_is_bit_clr, ext4_bmap_is_bit_set, ext4_bmap_bit_clr,
    ext4_bmap_bit_set.
  rewrite negb_involutive. intros Hclr. apply Z.eqb_eq in Hclr.
  apply list_eq. intros i.
  destruct (decide (i = Z.to_nat (Z.shiftr j 3))) as [->|Hne].
  - rewrite !list_lookup_alter_eq.
    destruct (bmap !! Z.to_nat (Z.shiftr j 3)) as [x|]; [|reflexivity].
    cbn in *. f_equal. apply land_lor_lnot. exact Hclr.
  - rewrite !list_lookup_alter_ne by congruence. reflexivity.
Qed.

(** X11.  [alloc] followed by [free_one] of the block it returned gives back
    the
    three counters and every cached block as they were. *)
Theorem alloc_then_free st goal a st1 script st2 :
  let s := sb (fs st) in
  consistent (fs st) ->
  ext4_balloc_get_bgid_of_block s goal < ext4_block_group_cnt s ->
  0 <= inode_blocks_count st < 2 ^ 64 ->
  ext4_balloc_alloc_block st goal = (EOK, Some a, st1) ->
  ext4_balloc_free_block (set_script st1 script) a = (EOK, st2) ->
  free_blocks_count (sb (fs st2)) = free_blocks_count s /\
  (forall h, bg_free_blocks_count (bgs (fs st2) h) =
             bg_free_blocks_count (bgs (fs st) h)) /\
  inode_blocks_count st2 = inode_blocks_count st /\
  (forall x, bdev (fs st2) x = bdev (fs st) x).
Proof.
  intros s Hcons Hgg Hino H1 H2. subst s.
  pose proof Hcons as (_ & (Hbpg & HB & HG) & Hbc & HG32 & _).
  destruct (consistent_counts _ Hcons) as [Hfree Hbgfree].
  destruct (alloc_block_claims st goal _ st1 Hcons Hgg H1)
    as (g & j & Hg & Hj & Hfb & Hclr & _ & _ & _ & Heff).
  pose proof (blocks_in_group_range (sb (fs st)) g ltac:(lia) Hbc Hg) as Hn.
  injection Hfb as ->.
  destruct (index2baddr_round_trip (sb (fs st)) j g) as [Hb Hi]; try lia.
  destruct Heff as (Hsg & Hf1 & Hd1 & (Ho1 & Hbm1 & Hfr1 & _) & Hi1).
  apply free_block_effect in H2. cbv zeta in H2.
  cbn [set_script fs sb bgs bdev inode_blocks_count] in H2.
  rewrite (bgid_same_geometry _ _ _ Hsg), (index_same_geometry _ _ _ Hsg),
    Hb, Hi in H2.
  destruct H2 as (_ & Hf2 & Hd2 & (Ho2 & _ & Hfr2 & _) & Hi2).
  cbn [set_script fs sb bgs bdev inode_blocks_count] in *.
  split.
  { rewrite Hf2, Hf1, wrap64_add_l. replace (_ + -1 + 1)
      with (free_blocks_count (sb (fs st))) by lia.
    apply wrap64_small. exact Hfree. }
  split.
  { intros h. destruct (Z.eq_dec h g) as [->|Hne].
    - rewrite Hfr2, Hfr1, wrap32_add_l.
      replace (_ + -1 + 1) with (bg_free_blocks_count (bgs (fs st) g)) by lia.
      apply wrap32_small. specialize (Hbgfree g Hg). lia.
    - rewrite Ho2, Ho1 by assumption. reflexivity. }
  split.
  { rewrite Hi2, Hi1. destruct Hsg as (_ & _ & _ & -> & _).
    rewrite wrap64_add_l.
    replace (_ + _ + - _) with (inode_blocks_count st) by lia.
    apply wrap64_small. exact Hino. }
  intros x. rewrite Hd2, Hd1, Hbm1.
  destruct (Z.eq_dec x (block_bitmap (bgs (fs st) g))) as [->|Hne].
  - rewrite !fn_lookup_alter. apply bit_clr_set_id. exact Hclr.
  - rewrite !fn_lookup_alter_ne by congruence. reflexivity.
Qed.

Lemma alloc_then_free_witness :
  consistent (fs (inode_small [])) /\
  ext4_balloc_alloc_block (inode_small []) 3 =
    (EOK, Some 9, snd (ext4_balloc_alloc_block (inode_small []) 3)) /\
  exists st2,
    ext4_balloc_free_block
      (set_script (snd (ext4_balloc_alloc_block (inode_small []) 3)) []) 9 =
      (EOK, st2) /\
    free_blocks_count (sb (fs st2)) = 55 /\ inode_blocks_count st2 = 16.
Proof.
  assert (H1 : ext4_balloc_alloc_block (inode_small []) 3 =
               (EOK, Some 9, snd (ext4_balloc_alloc_block (inode_small []) 3)))
    by (vm_compute; reflexivity).
  assert (H2 : ext4_balloc_free_block
                 (set_script (snd (ext4_balloc_alloc_block (inode_small []) 3))
                    []) 9 =
               (EOK,
                snd (ext4_balloc_free_block
                       (set_script
                          (snd (ext4_balloc_alloc_block (inode_small []) 3))
                          []) 9)))
    by (vm_compute; reflexivity).
  assert (Hino : 0 <= inode_blocks_count (inode_small []) < 2 ^ 64)
    by (cbn; lia).
  destruct (alloc_then_free (inode_small []) 3 9 _ [] _
              consistent_small ltac:(reflexivity) Hino H1 H2)
    as (Hf & _ & Hi & _).
  split; [exact consistent_small|]. split; [exact H1|].
  eexists. split; [exact H2|]. split; [exact Hf | exact Hi].
Defined.

(** With a nonzero free count in the goal group and the (clamped) goal bit
    clear, an allocation that succeeds returns the goal block. *)
Lemma alloc_goal_bit st goal fblock st' :
  let f := fs st in
  let s := sb f in
  let gg := ext4_balloc_get_bgid_of_block s goal in
  let i := Z.max (ext4_fs_baddr2_index_in_group s goal) (first_index s gg) in
  bg_free_blocks_count (bgs f gg) <> 0 ->
  ext4_bmap_is_bit_clr (bdev f (block_bitmap (bgs f gg))) i = true ->
  ext4_balloc_alloc_block st goal = (EOK, fblock, st') ->
  fblock = Some (ext4_fs_index_in_group2_baddr s i gg).
Proof.
  destruct st as [[s b d l tr] ino dty]. cbn [fs sb bgs bdev].
  intros Hfree Hclr. unfold first_index in Hclr |- *.
  unfold ext4_balloc_alloc_block, alloc_success. unfold_calls.
  branch; [|intros H; not_ok H].
  apply Z.eqb_neq in Hfree. rewrite Hfree.
  match goal with
  | |- context [if ?x <? ?y then ?y else ?x] =>
      replace (if x <? y then y else x) with (Z.max x y)
        by (destruct (Z.ltb_spec x y); lia)
  end.
  branch; [|intros H; not_ok H].
  rewrite Hclr.
  branch; [|intros H; not_ok H].
  intros H. injection H as _ <- _. reflexivity.
Qed.

(** X12.  [free_one] of a block followed by [alloc] with that block as the
    goal: if the allocation succeeds it returns the same block. *)
Theorem free_then_alloc st a st1 script fblock st2 :
  let s := sb (fs st) in
  let g := (a - reserved s) / blocks_per_group s in
  consistent (fs st) ->
  reserved s <= a -> g < ext4_block_group_cnt s ->
  g * blocks_per_group s < 2 ^ 32 - 1 ->
  ext4_balloc_free_block st a = (EOK, st1) ->
  ext4_balloc_alloc_block (set_script st1 script) a = (EOK, fblock, st2) ->
  fblock = Some a.
Proof.
  intros s g Hcons Ha Hg Hprod H1 H2. subst s g.
  pose proof Hcons as (_ & (Hbpg & HB & HG) & Hbc & HG32 & _).
  destruct (consistent_counts _ Hcons) as [_ Hbgfree].
  pose proof (reserved_range (sb (fs st))) as Hres.
  set (s := sb (fs st)) in *.
  set (g := (a - reserved s) / blocks_per_group s) in *.
  assert (Hg0 : 0 <= g) by (apply Z.div_pos; lia).
  destruct (bgid_index_of s a ltac:(lia) Ha ltac:(lia)) as [Hb Hi].
  fold g in Hb.
  pose proof (index_in_group_range s a ltac:(lia)) as Hir.
  apply free_block_effect in H1. cbv zeta in H1. fold s in H1.
  rewrite Hb in H1.
  pose proof (effect_bitmap_of _ _ _ _ _ _ _ H1) as Hbm.
  destruct H1 as (Hsg & _ & _ & (_ & _ & Hfr & _) & _).
  assert (Hfirst : first_index s g = 0).
  { unfold first_index. rewrite block_of_bgid_exact by lia.
    fold (reserved s).
    destruct (bgid_index_of s (reserved s + g * blocks_per_group s))
      as [_ Hidx]; try lia.
    - replace (reserved s + g * blocks_per_group s - reserved s)
        with (g * blocks_per_group s) by lia.
      rewrite Z.div_mul by lia. lia.
    - rewrite Hidx.
      replace (reserved s + g * blocks_per_group s - reserved s)
        with (g * blocks_per_group s) by lia.
      apply Z.mod_mul. lia. }
  apply alloc_goal_bit in H2; cbv zeta;
    cbn [set_script fs sb bgs bdev] in *.
  - rewrite H2. f_equal.
    rewrite (bgid_same_geometry _ _ _ Hsg), (index_same_geometry _ _ _ Hsg).
    fold s. rewrite Hb.
    assert (Hfi1 : first_index (sb (fs st1)) g = first_index s g).
    { unfold first_index, ext4_balloc_get_block_of_bgid.
      rewrite (index_same_geometry _ _ _ Hsg).
      destruct Hsg as (-> & -> & _). reflexivity. }
    rewrite Hfi1, Hfirst, Z.max_l by lia.
    rewrite <- Hb.
    assert (Hidx : forall j h,
              ext4_fs_index_in_group2_baddr (sb (fs st1)) j h =
              ext4_fs_index_in_group2_baddr s j h).
    { intros j h. unfold ext4_fs_index_in_group2_baddr.
      destruct Hsg as (-> & -> & _). reflexivity. }
    rewrite Hidx. apply baddr_round_trip; lia.
  - rewrite (bgid_same_geometry _ _ _ Hsg). fold s. rewrite Hb, Hfr.
    specialize (Hbgfree g ltac:(lia)). fold s in Hbgfree.
    rewrite wrap32_small by lia. lia.
  - rewrite (bgid_same_geometry _ _ _ Hsg), (index_same_geometry _ _ _ Hsg).
    fold s. rewrite Hb.
    assert (Hfi1 : first_index (sb (fs st1)) g = first_index s g).
    { unfold first_index, ext4_balloc_get_block_of_bgid.
      rewrite (index_same_geometry _ _ _ Hsg).
      destruct Hsg as (-> & -> & _). reflexivity. }
    rewrite Hfi1, Hfirst, Z.max_l by lia.
    unfold bitmap_of in Hbm. fold s in Hbm. rewrite Hbm.
    rewrite is_clr_after_clr by lia. rewrite Z.eqb_refl. reflexivity.
Qed.

Lemma free_then_alloc_witness :
  consistent (fs (inode_small [])) /\
  ext4_balloc_free_block (inode_small []) 5 =
    (EOK, snd (ext4_balloc_free_block (inode_small []) 5)) /\
  exists st2,
    ext4_balloc_alloc_block
      (set_script (snd (ext4_balloc_free_block (inode_small []) 5)) []) 5 =
      (EOK, Some 5, st2).
Proof.
  assert (H1 : ext4_balloc_free_block (inode_small []) 5 =
               (EOK, snd (ext4_balloc_free_block (inode_small []) 5)))
    by (vm_compute; reflexivity).
  destruct (ext4_balloc_alloc_block
              (set_script (snd (ext4_balloc_free_block (inode_small []) 5)) [])
              5) as [[rc fb] st2] eqn:H2.
  assert (Hrc : rc = EOK)
    by (vm_compute in H2; injection H2 as Hr _ _; symmetry; exact Hr).
  subst rc.
  assert (Hfb : fb = Some 5).
  { eapply (free_then_alloc (inode_small []) 5 _ [] fb st2 consistent_small);
      [vm_compute; discriminate | reflexivity | reflexivity | exact H1
      | exact H2]. }
  subst fb.
  split; [exact consistent_small|]. split; [exact H1|].
  exists st2. reflexivity.
Defined.


(** ** The search of [alloc] over the other groups *)










(** ** [ext4_balloc_free_block] with a device that does not fail *)

(** X15.  [free_one] neither reads the bit it clears nor checks the address:
    with a device that does not fail it returns [EOK] for every address,
    after one acquisition of the handle of the group of the block, one
    pin and one dirty store of the bitmap block of that group and one dirty
    release of the handle; the bit of the block is cleared, the bitmap is
    stamped, the superblock and the group free counts are up by one and the
    inode block count is down by [B / 512], in the arithmetic of their C
    types. *)
Theorem free_block_spec st baddr :
  io_ok (fs st) ->
  let f := fs st in
  let s := sb f in
  let g := ext4_balloc_get_bgid_of_block s baddr in
  let i := ext4_fs_baddr2_index_in_group s baddr in
  let a := block_bitmap (bgs f g) in
  exists st',
    ext4_balloc_free_block st baddr = (EOK, st') /\
    trace (fs st') =
      [EvPutRef g true EOK; EvBlockSet a true EOK; EvBlockGet a EOK;
       EvGetRef g EOK] ++ trace f /\
    op_effect f (inode_blocks_count st) st' g
      (fun d => ext4_bmap_bit_clr d i) 1 (- (block_size s / 512)) /\
    inode_dirty st' = true.
Proof.
  destruct st as [[s b d l tr] ino dty]. unfold io_ok.
  cbn [fs io sb bgs bdev trace inode_blocks_count]. intros Hio.
  unfold ext4_balloc_free_block. unfold_calls. script_ok Hio.
  eexists. split; [reflexivity|]. split; [reflexivity|].
  split; [solve_effect | reflexivity].
Qed.

Lemma free_block_spec_witness :
  io_ok (fs (inode_small [])) /\
  exists st',
    ext4_balloc_free_block (inode_small []) 5 = (EOK, st') /\
    free_blocks_count (sb (fs st')) = 56 /\
    ext4_bmap_is_bit_clr (bitmap_of (fs st') 0) 5 = true.
Proof.
  assert (Hio : io_ok (fs (inode_small []))) by constructor.
  split; [exact Hio|].
  destruct (free_block_spec (inode_small []) 5 Hio)
    as (st' & Hrun & _ & Heff & _).
  exists st'. split; [exact Hrun|].
  pose proof (effect_bitmap_of _ _ _ _ _ _ _ Heff) as Hbm.
  destruct Heff as (_ & Hfree & _).
  split; [rewrite Hfree; reflexivity|].
  change (ext4_balloc_get_bgid_of_block (sb (fs (inode_small []))) 5)
    with 0 in Hbm.
  rewrite Hbm. reflexivity.
Defined.

(** ** [ext4_balloc_try_alloc_block] twice *)

(** X16.  After a successful [try_one] of a block, whatever it reported, a
    second [try_one] of the same block reports it as not free and changes
    nothing: the block cannot be claimed twice. *)
Theorem try_alloc_twice st baddr was_free st1 script was_free' st2 :
  let s := sb (fs st) in
  consistent (fs st) ->
  ext4_balloc_get_bgid_of_block s baddr < ext4_block_group_cnt s ->
  ext4_balloc_try_alloc_block st baddr = (EOK, was_free, st1) ->
  ext4_balloc_try_alloc_block (set_script st1 script) baddr
    = (EOK, was_free', st2) ->
  was_free' = Some false /\
  op_no_effect (fs st1) (inode_blocks_count st1) st2.
Proof.
  intros s Hcons Hgg H1 H2. subst s.
  pose proof Hcons as (_ & (Hbpg & HB & HG) & Hbc & HG32 & Hlen & _).
  pose proof (bgid_nonneg (sb (fs st)) baddr) as Hg0.
  pose proof (index_in_group_range (sb (fs st)) baddr ltac:(lia)) as Hi.
  set (g := ext4_balloc_get_bgid_of_block (sb (fs st)) baddr) in *.
  set (i := ext4_fs_baddr2_index_in_group (sb (fs st)) baddr) in *.
  apply try_alloc_block_effect in H1. cbv zeta in H1. fold g i in H1.
  destruct H1 as [_ H1].
  assert (Hst1 : same_geometry (sb (fs st)) (sb (fs st1)) /\
                 ext4_bmap_is_bit_clr (bitmap_of (fs st1) g) i = false).
  { destruct (ext4_bmap_is_bit_clr _ _) eqn:Hclr.
    - pose proof (effect_bitmap_of _ _ _ _ _ _ _ H1) as Hbm.
      destruct H1 as (Hsg & _). split; [exact Hsg|].
      assert (Hl : i < 8 * Z.of_nat (length (bitmap_of (fs st) g)))
        by (specialize (Hlen g ltac:(lia)); lia).
      rewrite Hbm, is_clr_after_set by lia.
      rewrite Z.eqb_refl. reflexivity.
    - destruct H1 as (Hs & Hb & Hd & _). split.
      + rewrite Hs. apply same_geometry_refl.
      + unfold bitmap_of. rewrite Hb, Hd. exact Hclr. }
  destruct Hst1 as [Hsg Hset].
  apply try_alloc_block_effect in H2. cbv zeta in H2.
  cbn [set_script fs sb bgs bdev inode_blocks_count] in H2.
  rewrite (bgid_same_geometry _ _ _ Hsg), (index_same_geometry _ _ _ Hsg)
    in H2.
  fold g i in H2. unfold bitmap_of in Hset. rewrite Hset in H2.
  destruct H2 as [-> Hno]. split; [reflexivity | exact Hno].
Qed.

Lemma try_alloc_twice_witness :
  consistent (fs (inode_small [])) /\
  ext4_balloc_try_alloc_block (inode_small []) 9 =
    (EOK, Some true, snd (ext4_balloc_try_alloc_block (inode_small []) 9)) /\
  ext4_balloc_try_alloc_block
    (set_script (snd (ext4_balloc_try_alloc_block (inode_small []) 9)) []) 9 =
    (EOK, Some false,
     snd (ext4_balloc_try_alloc_block
            (set_script (snd (ext4_balloc_try_alloc_block (inode_small []) 9))
               []) 9)).
Proof.
  assert (H1 : ext4_balloc_try_alloc_block (inode_small []) 9 =
               (EOK, Some true,
                snd (ext4_balloc_try_alloc_block (inode_small []) 9)))
    by (vm_compute; reflexivity).
  destruct (ext4_balloc_try_alloc_block
              (set_script (snd (ext4_balloc_try_alloc_block (inode_small []) 9))
                 []) 9) as [[rc wf] st2] eqn:H2.
  assert (Hrc : rc = EOK)
    by (vm_compute in H2; injection H2 as Hr _ _; symmetry; exact Hr).
  subst rc.
  destruct (try_alloc_twice (inode_small []) 9 (Some true) _ [] wf st2
              consistent_small ltac:(reflexivity) H1 H2) as [-> _].
  split; [exact consistent_small|]. split; [exact H1 | reflexivity].
Defined.

(** ** What the bitmap checksum covers *)

(** X17.  The stamp of a bitmap covers its first [blocks_per_group / 8] bytes
    and nothing else: setting or clearing a bit at an index of
    [8 * (blocks_per_group / 8)] or more leaves the stamp as it is. *)
Theorem bitmap_csum_coverage s bg bmap j :
  0 <= blocks_per_group s ->
  8 * (blocks_per_group s / 8) <= j ->
  ext4_balloc_set_bitmap_csum s bg (ext4_bmap_bit_set bmap j) =
    ext4_balloc_set_bitmap_csum s bg bmap /\
  ext4_balloc_set_bitmap_csum s bg (ext4_bmap_bit_clr bmap j) =
    ext4_balloc_set_bitmap_csum s bg bmap.
Proof.
  intros Hbpg Hj.
  assert (Hq : 0 <= blocks_per_group s / 8) by (apply Z.div_pos; lia).
  assert (Hk : (Z.to_nat (blocks_per_group s / 8)
                <= Z.to_nat (Z.shiftr j 3))%nat).
  { rewrite shiftr3_div.
    assert (Hle : blocks_per_group s / 8 <= j / 8)
      by (apply Z.div_le_lower_bound; lia).
    lia. }
  unfold ext4_balloc_set_bitmap_csum, ext4_balloc_bitmap_csum,
    ext4_bmap_bit_set, ext4_bmap_bit_clr.
  rewrite !take_alter_ge by exact Hk. split; reflexivity.
Qed.

Lemma bitmap_csum_coverage_witness :
  ext4_balloc_set_bitmap_csum sb_narrow (bgs_narrow 0)
    (ext4_bmap_bit_clr (bdev_narrow 100) 40) =
  ext4_balloc_set_bitmap_csum sb_narrow (bgs_narrow 0) (bdev_narrow 100).
Proof.
  destruct (bitmap_csum_coverage sb_narrow (bgs_narrow 0) (bdev_narrow 100) 40)
    as [_ H];
    [vm_compute; discriminate | vm_compute; discriminate | exact H].
Defined.


(** ** [alloc] with a free goal is [try_one] of the goal *)

(** X18.  When the group of the goal has a nonzero free count, the goal bit is
    clear and the goal index is not below the index of the first block of
    the group, [alloc] goes the way of [try_one] of the goal: the same
    calls, the same return code and the same state, whatever the device
    answers. *)
Theorem alloc_free_goal_is_try st goal :
  let f := fs st in
  let s := sb f in
  let gg := ext4_balloc_get_bgid_of_block s goal in
  let i := ext4_fs_baddr2_index_in_group s goal in
  bg_free_blocks_count (bgs f gg) <> 0 ->
  first_index s gg <= i ->
  ext4_bmap_is_bit_clr (bdev f (block_bitmap (bgs f gg))) i = true ->
  let '(rc, _, st1) := ext4_balloc_alloc_block st goal in
  let '(rc', _, st2) := ext4_balloc_try_alloc_block st goal in
  rc = rc' /\ st1 = st2.
Proof.
  destruct st as [[s b d l tr] ino dty]. cbn [fs sb bgs bdev].
  intros Hfree Hidx Hclr. unfold first_index in Hidx.
  unfold ext4_balloc_alloc_block, ext4_balloc_try_alloc_block, alloc_success.
  unfold_calls.
  apply Z.eqb_neq in Hfree. rewrite Hfree.
  match goal with
  | |- context [if ?x <? ?y then ?y else ?x] =>
      replace (if x <? y then y else x) with x
        by (destruct (Z.ltb_spec x y); lia)
  end.
  rewrite !Hclr. cbn [negb]. cbv iota.
  repeat branch; rewrite ?wrap32_wrap64, ?wrap32_idem; split; reflexivity.
Qed.

Lemma alloc_free_goal_is_try_witness :
  let '(rc, _, st1) := ext4_balloc_alloc_block (inode_small [0; 0; 7]) 9 in
  let '(rc', _, st2) :=
    ext4_balloc_try_alloc_block (inode_small [0; 0; 7]) 9 in
  rc = rc' /\ st1 = st2.
Proof.
  apply (alloc_free_goal_is_try (inode_small [0; 0; 7]) 9);
    [vm_compute; discriminate | vm_compute; discriminate | reflexivity].
Defined.

(** ** [free_range] and [free_one] block by block *)

Lemma op_effect_to_pw f ino st' g upd dfree dino :
  op_effect f ino st' g upd dfree dino ->
  op_effect_pw f ino st' g upd dfree dino.
Proof.
  intros (H1 & H2 & H3 & H4 & H5). repeat split; try assumption;
    try apply H1; try apply H4.
  intros x. rewrite H3. reflexivity.
Qed.

Lemma csum_of_same_geometry s s' bmap :
  same_geometry s s' -> csum_of s' bmap = csum_of s bmap.
Proof.
  intros (_ & H2 & _ & _ & H5 & _ & H7 & _). unfold csum_of.
  rewrite H2, H5, H7. reflexivity.
Qed.

(** Two effects on the bitmap of one group, one after the other. *)
Lemma op_effect_pw_compose f ino st1 st2 g upd1 upd2 d1 d2 q1 q2 :
  op_effect_pw f ino st1 g upd1 d1 q1 ->
  op_effect_pw (fs st1) (inode_blocks_count st1) st2 g upd2 d2 q2 ->
  op_effect_pw f ino st2 g (fun d => upd2 (upd1 d)) (d1 + d2) (q1 + q2).
Proof.
  intros (Hsg1 & Hf1 & Hd1 & (Ho1 & Hbm1 & Hfr1 & Hlo1 & Hhi1) & Hi1)
         (Hsg2 & Hf2 & Hd2 & (Ho2 & Hbm2 & Hfr2 & Hlo2 & Hhi2) & Hi2).
  assert (Hbits : bdev (fs st1) (block_bitmap (bgs (fs st1) g)) =
                  upd1 (bdev f (block_bitmap (bgs f g)))).
  { rewrite Hbm1, Hd1. apply fn_lookup_alter. }
  unfold op_effect_pw. cbv zeta.
  split; [eapply same_geometry_trans; eassumption|].
  split; [rewrite Hf2, Hf1, wrap64_add_l; f_equal; lia|].
  split.
  { intros x. rewrite Hd2, Hbm1.
    destruct (Z.eq_dec x (block_bitmap (bgs f g))) as [->|Hne].
    - rewrite !fn_lookup_alter, Hd1, fn_lookup_alter. reflexivity.
    - rewrite !fn_lookup_alter_ne by congruence. rewrite Hd1.
      apply fn_lookup_alter_ne. congruence. }
  split.
  { unfold bg_updated. rewrite Hbits in Hlo2, Hhi2.
    rewrite (csum_of_same_geometry _ _ _ Hsg1) in Hlo2, Hhi2.
    assert (Hds : desc_size (sb (fs st1)) = desc_size (sb f))
      by apply Hsg1.
    split; [intros g' Hne; rewrite Ho2, Ho1 by assumption; reflexivity|].
    split; [congruence|].
    split; [rewrite Hfr2, Hfr1, wrap32_add_l; f_equal; lia|].
    split; [exact Hlo2|].
    rewrite Hhi2, Hds. destruct (desc_size (sb f) =? 64) eqn:E;
      [reflexivity|]. rewrite Hhi1. reflexivity. }
  rewrite Hi2, Hi1, wrap64_add_l. f_equal. lia.
Qed.

(** One [free_one] with a device that does not fail. *)
Lemma free_block_ok st baddr :
  io_ok (fs st) ->
  let s := sb (fs st) in
  exists st',
    ext4_balloc_free_block st baddr = (EOK, st') /\
    io_ok (fs st') /\
    op_effect (fs st) (inode_blocks_count st) st'
      (ext4_balloc_get_bgid_of_block s baddr)
      (fun d => ext4_bmap_bit_clr d (ext4_fs_baddr2_index_in_group s baddr))
      1 (- (block_size s / 512)).
Proof.
  destruct st as [[s b d l tr] ino dty]. unfold io_ok.
  cbn [fs io sb bgs bdev trace inode_blocks_count]. intros Hio.
  unfold ext4_balloc_free_block. unfold_calls. script_ok Hio.
  eexists. split; [reflexivity|]. split.
  { unfold io_ok. cbn [fs io]. repeat apply ok_tail. exact Hio. }
  solve_effect.
Qed.

(** [n + 1] blocks of one group released one by one. *)
Lemma free_each_effect n : forall st first,
  let s := sb (fs st) in
  let bpg := blocks_per_group s in
  let o := first - reserved s in
  io_ok (fs st) -> 0 < bpg -> 0 <= o -> o / bpg < 2 ^ 32 ->
  o mod bpg + Z.of_nat n < bpg ->
  exists st',
    free_each (S n) st first = (EOK, st') /\
    op_effect_pw (fs st) (inode_blocks_count st) st' (o / bpg)
      (fun d => bits_free_from (S n) d (o mod bpg))
      (Z.of_nat (S n)) (- (Z.of_nat (S n) * (block_size s / 512))).
Proof.
  induction n as [|n IH]; intros st first s bpg o Hio Hbpg Ho Hq Hn.
  - destruct (free_block_ok st first Hio) as (st' & Hrun & _ & Heff).
    destruct (bgid_index_of s first Hbpg ltac:(unfold o in Ho; lia) Hq)
      as [Hb Hi].
    fold s in Heff. rewrite Hb, Hi in Heff. fold o bpg in Heff.
    exists st'. cbn [free_each]. rewrite Hrun. cbn [Z.eqb negb].
    split; [reflexivity|].
    change (Z.of_nat 1) with 1. rewrite Z.mul_1_l.
    apply op_effect_to_pw. exact Heff.
  - destruct (free_block_ok st first Hio) as (st1 & Hrun & Hio1 & Heff).
    destruct (bgid_index_of s first Hbpg ltac:(unfold o in Ho; lia) Hq)
      as [Hb Hi].
    fold s in Heff. rewrite Hb, Hi in Heff. fold o bpg in Heff.
    pose proof Heff as (Hsg & _).
    pose proof (Z.div_mod o bpg ltac:(lia)) as Hdm.
    pose proof (Z.mod_pos_bound o bpg ltac:(lia)) as Hr.
    destruct (div_mod_in_group bpg (o / bpg) (o mod bpg) 1) as [Hq1 Hm1];
      try lia.
    assert (Ho1 : first + 1 - reserved (sb (fs st1)) = o + 1)
      by (rewrite (reserved_same_geometry _ _ Hsg); unfold o; fold s; lia).
    assert (Hbpg1 : blocks_per_group (sb (fs st1)) = bpg) by apply Hsg.
    assert (Hdiv : (o + 1) / bpg = o / bpg)
      by (rewrite <- Hq1; f_equal; lia).
    assert (Hmod : (o + 1) mod bpg = o mod bpg + 1)
      by (rewrite <- Hm1; f_equal; lia).
    destruct (IH st1 (first + 1)) as (st2 & Hrun2 & Heff2);
      rewrite ?Ho1, ?Hbpg1, ?Hdiv, ?Hmod; try lia; try exact Hio1.
    rewrite Ho1, Hbpg1, Hdiv, Hmod in Heff2.
    exists st2. split.
    { change (free_each (S (S n)) st first)
        with (let '(rc, st') := ext4_balloc_free_block st first in
              if negb (rc =? EOK) then (rc, st')
              else free_each (S n) st' (first + 1)).
      rewrite Hrun. cbn [Z.eqb negb]. exact Hrun2. }
    pose proof (op_effect_pw_compose _ _ _ _ _ _ _ _ _ _ _
                  (op_effect_to_pw _ _ _ _ _ _ _ Heff) Heff2) as Hc.
    assert (HB1 : block_size (sb (fs st1)) = block_size s) by apply Hsg.
    rewrite HB1 in Hc.
    replace (1 + Z.of_nat (S n)) with (Z.of_nat (S (S n))) in Hc by lia.
    replace (- (block_size s / 512) + - (Z.of_nat (S n) * (block_size s / 512)))
      with (- (Z.of_nat (S (S n)) * (block_size s / 512))) in Hc by lia.
    exact Hc.
Qed.

(** A range within one group, with a device that does not fail: one turn
    of the loop. *)
Lemma free_blocks_in_group st first count fuel :
  let s := sb (fs st) in
  let bpg := blocks_per_group s in
  let o := first - reserved s in
  io_ok (fs st) ->
  0 < bpg <= 8 * block_size s -> 0 < block_size s <= 65536 ->
  0 <= o -> 1 <= count -> o mod bpg + count <= bpg ->
  o / bpg < 2 ^ 32 - 1 -> first + count <= 2 ^ 64 ->
  exists st',
    ext4_balloc_free_blocks (S fuel) st first count = Returned EOK st' /\
    op_effect (fs st) (inode_blocks_count st) st' (o / bpg)
      (fun d => ext4_bmap_bits_free d (o mod bpg) count)
      count (- (count * (block_size s / 512))).
Proof.
  intros s bpg o Hio Hbpg HB Ho Hc Hin Hq Hend.
  pose proof (reserved_range s) as Hres.
  pose proof (Z.mod_pos_bound o bpg ltac:(lia)) as Hr.
  assert (Hq0 : 0 <= o / bpg) by (apply Z.div_pos; lia).
  destruct (range_in_first_group s first 0) as [Hgf Hif];
    fold bpg o; try lia.
  destruct (range_in_first_group s first (count - 1)) as [Hgl _];
    fold bpg o; try lia.
  rewrite Z.add_0_r in Hgf, Hif. fold bpg o in Hgf, Hif, Hgl.
  replace (o mod bpg + 0) with (o mod bpg) in Hif by lia.
  replace (first + (count - 1)) with (first + count - 1) in Hgl by lia.
  destruct (free_blocks_iter_ok st (o / bpg) first count Hio)
    as (st1 & Hiter & _ & _ & Heff).
  fold s in Hiter, Heff.
  rewrite iter_free_cnt_min in Hiter, Heff by (fold bpg; lia).
  rewrite Hif in Hiter, Heff.
  rewrite Z.min_l in Hiter, Heff by lia.
  rewrite Z.sub_diag in Hiter. change (wrap32 0) with 0 in Hiter.
  rewrite (wrap32_small (count * _)) in Heff
    by (apply sectors_bound; [assumption | lia]).
  exists st1. split; [|exact Heff].
  unfold ext4_balloc_free_blocks. fold s.
  rewrite (wrap64_small (first + count - 1)) by lia.
  rewrite Hgf, Hgl, Z.eqb_refl, andb_false_r.
  cbn [free_blocks_loop]. rewrite Z.leb_refl, Hiter.
  rewrite free_blocks_loop_done; [reflexivity|].
  rewrite wrap32_small by lia. apply Z.leb_gt. lia.
Qed.

Lemma sblock_eq s s1 s2 :
  same_geometry s s1 -> same_geometry s s2 ->
  free_blocks_count s1 = free_blocks_count s2 ->
  s1 = s2.
Proof.
  destruct s, s1, s2. unfold same_geometry. cbn.
  intros (-> & -> & -> & -> & -> & -> & -> & ->)
         (-> & -> & -> & -> & -> & -> & -> & ->) ->. reflexivity.
Qed.

Lemma bgroup_eq b1 b2 :
  block_bitmap b1 = block_bitmap b2 ->
  bg_free_blocks_count b1 = bg_free_blocks_count b2 ->
  block_bitmap_csum_lo b1 = block_bitmap_csum_lo b2 ->
  block_bitmap_csum_hi b1 = block_bitmap_csum_hi b2 ->
  b1 = b2.
Proof. destruct b1, b2. cbn. intros -> -> -> ->. reflexivity. Qed.

(** Two states with the same effect on one filesystem are the same
    filesystem. *)
Lemma op_effect_pw_unique f ino st1 st2 g upd dfree dino :
  op_effect_pw f ino st1 g upd dfree dino ->
  op_effect_pw f ino st2 g upd dfree dino ->
  sb (fs st1) = sb (fs st2) /\
  (forall h, bgs (fs st1) h = bgs (fs st2) h) /\
  (forall x, bdev (fs st1) x = bdev (fs st2) x) /\
  inode_blocks_count st1 = inode_blocks_count st2.
Proof.
  intros (Hsg1 & Hf1 & Hd1 & (Ho1 & Hbm1 & Hfr1 & Hlo1 & Hhi1) & Hi1)
         (Hsg2 & Hf2 & Hd2 & (Ho2 & Hbm2 & Hfr2 & Hlo2 & Hhi2) & Hi2).
  split.
  { apply (sblock_eq _ _ _ Hsg1 Hsg2). congruence. }
  split.
  { intros h. destruct (Z.eq_dec h g) as [->|Hne].
    - apply bgroup_eq; congruence.
    - rewrite Ho1, Ho2 by assumption. reflexivity. }
  split; [intros x; rewrite Hd1, Hd2; reflexivity | congruence].
Qed.

(** X19.  With a device that does not fail, [free_range] of [count] blocks of
    one
    group leaves the filesystem and the inode as [count] calls of
    [free_one], one for each block of the range, leave them: the same
    superblock, the same descriptors with the same stamp, the same cache
    and the same inode block count. *)
Theorem free_blocks_as_free_each st first count fuel :
  let s := sb (fs st) in
  let bpg := blocks_per_group s in
  let o := first - reserved s in
  io_ok (fs st) ->
  0 < bpg <= 8 * block_size s -> 0 < block_size s <= 65536 ->
  0 <= o -> 1 <= count -> o mod bpg + count <= bpg ->
  o / bpg < 2 ^ 32 - 1 -> first + count <= 2 ^ 64 ->
  exists st1 st2,
    ext4_balloc_free_blocks (S fuel) st first count = Returned EOK st1 /\
    free_each (Z.to_nat count) st first = (EOK, st2) /\
    sb (fs st1) = sb (fs st2) /\
    (forall h, bgs (fs st1) h = bgs (fs st2) h) /\
    (forall x, bdev (fs st1) x = bdev (fs st2) x) /\
    inode_blocks_count st1 = inode_blocks_count st2.
Proof.
  intros s bpg o Hio Hbpg HB Ho Hc Hin Hq Hend.
  destruct (free_blocks_in_group st first count fuel Hio Hbpg HB Ho Hc Hin
              Hq Hend) as (st1 & Hrun1 & Heff1).
  fold s bpg o in Heff1.
  destruct (free_each_effect (Z.to_nat (count - 1)) st first Hio)
    as (st2 & Hrun2 & Heff2); fold s bpg o; try lia.
  fold s bpg o in Heff2.
  replace (S (Z.to_nat (count - 1))) with (Z.to_nat count) in Hrun2, Heff2
    by lia.
  rewrite Z2Nat.id in Heff2 by lia.
  exists st1, st2. split; [exact Hrun1|]. split; [exact Hrun2|].
  apply (op_effect_pw_unique (fs st) (inode_blocks_count st) st1 st2
           (o / bpg) (fun d => ext4_bmap_bits_free d (o mod bpg) count)
           count (- (count * (block_size s / 512))));
    [apply op_effect_to_pw; exact Heff1 | exact Heff2].
Qed.

Lemma free_blocks_as_free_each_witness :
  io_ok (fs (inode_small [])) /\
  exists st1 st2,
    ext4_balloc_free_blocks 1 (inode_small []) 2 5 = Returned EOK st1 /\
    free_each 5 (inode_small []) 2 = (EOK, st2) /\
    sb (fs st1) = sb (fs st2) /\
    inode_blocks_count st1 = inode_blocks_count st2.
Proof.
  assert (Hio : io_ok (fs (inode_small []))) by constructor.
  split; [exact Hio|].
  destruct (free_blocks_as_free_each (inode_small []) 2 5 0 Hio)
    as (st1 & st2 & H1 & H2 & Hsb & _ & _ & Hino);
    try (vm_compute; intuition congruence).
  exists st1, st2. split; [exact H1|]. split; [exact H2|].
  split; [exact Hsb | exact Hino].
Defined.


(** ** What [alloc] leaves behind, whatever it returns *)

(** An error return that did not write [*fblock]. *)
Ltac err_leaf :=
  unfold alloc_outcome; cbn [fs sb bgs inode_blocks_count];
  split; [assumption || (unfold ENOSPC, EOK; discriminate)|];
  split; [reflexivity|];
  split; [intros; rewrite ?free_after_stamp; reflexivity | reflexivity].

Lemma alloc_success_outcome f f0 ino0 goal l tr dty g j :
  alloc_claimed f goal g j ->
  alloc_outcome f ino0 goal
    (alloc_success (mk_inode_ref f0 ino0 dty)
       (mk_fs (sb f)
          (alter (fun bg => ext4_balloc_set_bitmap_csum (sb f) bg
                    (alter (fun d0 => ext4_bmap_bit_set d0 j)
                           (block_bitmap (bgs f g)) (bdev f)
                           (block_bitmap (bgs f g))))
                 g (bgs f))
          (alter (fun d0 => ext4_bmap_bit_set d0 j)
                 (block_bitmap (bgs f g)) (bdev f))
          l tr)
       (mk_bg_ref g false)
       (ext4_fs_index_in_group2_baddr (sb f) j g)).
Proof.
  intros Hc. destruct f as [s b d l1 tr1].
  unfold alloc_success, alloc_outcome. unfold_calls.
  exists g, j. split; [exact Hc|]. split; [reflexivity|].
  solve_effect.
Qed.

Lemma alloc_try_group_outcome continue f0 ino goal dty s b d l tr bgid :
  0 < blocks_per_group s ->
  0 <= bgid < ext4_block_group_cnt s ->
  (forall l' tr', alloc_outcome (mk_fs s b d [] []) ino goal
                    (continue (mk_fs s b d l' tr'))) ->
  alloc_outcome (mk_fs s b d [] []) ino goal
    (alloc_try_group continue (mk_inode_ref f0 ino dty) (mk_fs s b d l tr)
                     bgid).
Proof.
  intros Hbpg Hb Hk.
  unfold alloc_try_group. unfold_calls.
  branch; [|err_leaf].
  destruct (_ =? 0) eqn:Hfree.
  { branch; [apply Hk | err_leaf]. }
  branch; [|err_leaf].
  match goal with
  | |- context [if ?x <? ?x then ?x else ?x] =>
      replace (if x <? x then x else x) with x
        by (destruct (x <? x); reflexivity)
  end.
  destruct (ext4_bmap_bit_find_clr _ _ _) as [j|] eqn:Hfind.
  - branch; [|err_leaf].
    apply find_clr_range in Hfind. destruct Hfind as [Hr Hc].
    pose proof (index_in_group_range s
      (ext4_balloc_get_block_of_bgid s bgid) Hbpg).
    apply (alloc_success_outcome (mk_fs s b d [] [])).
    unfold alloc_claimed. cbn [sb bgs bdev].
    apply Z.eqb_neq in Hfree.
    split; [exact Hfree|]. split; [exact Hc|]. split; [lia|].
    right. right. split; [exact Hb | lia].
  - branch; [|err_leaf].
    branch; [apply Hk | err_leaf].
Qed.

Lemma alloc_other_groups_outcome f0 ino goal dty s b d G :
  0 < blocks_per_group s -> G = ext4_block_group_cnt s -> 0 < G ->
  forall count l tr bgid,
  0 <= bgid < G ->
  alloc_outcome (mk_fs s b d [] []) ino goal
    (alloc_other_groups count (mk_inode_ref f0 ino dty) (mk_fs s b d l tr)
                        G bgid).
Proof.
  intros Hbpg -> HG count.
  induction count as [|count IH]; intros l tr bgid Hb.
  - cbn [alloc_other_groups set_fs]. err_leaf.
  - cbn [alloc_other_groups]. apply alloc_try_group_outcome; [assumption..|].
    intros l' tr'. apply IH. apply Z.mod_pos_bound. lia.
Qed.

Lemma alloc_goal_failed_outcome f0 ino goal dty s b d l tr bg_ref block_group :
  0 < blocks_per_group s -> 0 < ext4_block_group_cnt s ->
  alloc_outcome (mk_fs s b d [] []) ino goal
    (alloc_goal_failed (mk_inode_ref f0 ino dty) (mk_fs s b d l tr)
                       bg_ref block_group).
Proof.
  intros Hbpg HG. unfold alloc_goal_failed. unfold_calls.
  branch; [|err_leaf].
  apply alloc_other_groups_outcome; try assumption; try reflexivity.
  apply Z.mod_pos_bound. lia.
Qed.

Lemma alloc_block_outcome st goal :
  0 < blocks_per_group (sb (fs st)) ->
  0 < ext4_block_group_cnt (sb (fs st)) ->
  alloc_outcome (fs st) (inode_blocks_count st) goal
                (ext4_balloc_alloc_block st goal).
Proof.
  destruct st as [[s b d l tr] ino dty]. cbn [fs sb inode_blocks_count].
  intros Hbpg HG.
  change (alloc_outcome (mk_fs s b d l tr))
    with (alloc_outcome (mk_fs s b d [] [])).
  pose proof (index_in_group_range s goal Hbpg) as Hi0.
  pose proof (index_in_group_range s
    (ext4_balloc_get_block_of_bgid s (ext4_balloc_get_bgid_of_block s goal))
    Hbpg) as Hfi.
  unfold ext4_balloc_alloc_block. unfold_calls.
  branch; [|err_leaf].
  destruct (_ =? 0) eqn:Hfree; [apply alloc_goal_failed_outcome; assumption|].
  apply Z.eqb_neq in Hfree.
  branch; [|err_leaf].
  match goal with
  | |- context [if ?x <? ?y then ?y else ?x] =>
      replace (if x <? y then y else x) with (Z.max x y)
        by (destruct (Z.ltb_spec x y); lia)
  end.
  set (i := Z.max _ _) in *.
  assert (Hi : 0 <= i) by (unfold i; lia).
  destruct (ext4_bmap_is_bit_clr _ i) eqn:Hclr.
  { branch; [|err_leaf].
    apply (alloc_success_outcome (mk_fs s b d [] [])).
    unfold alloc_claimed, first_index. cbn [sb bgs bdev]. fold i.
    split; [exact Hfree|]. split; [exact Hclr|]. split; [lia|]. left. auto. }
  destruct (near_goal_scan _ _ _) as [j|] eqn:Hnear.
  { branch; [|err_leaf].
    unfold near_goal_scan in Hnear.
    pose proof (find_clr_from_spec
      (Z.to_nat ((if Z.land (wrap32 (i + 63)) (wrap32 (Z.lnot 63))
                     >? ext4_blocks_in_group_cnt s
                          (ext4_balloc_get_bgid_of_block s goal)
                  then ext4_blocks_in_group_cnt s
                         (ext4_balloc_get_bgid_of_block s goal)
                  else Z.land (wrap32 (i + 63)) (wrap32 (Z.lnot 63)))
                 - wrap32 (i + 1)))
      (d (block_bitmap (b (ext4_balloc_get_bgid_of_block s goal))))
      (wrap32 (i + 1))) as Hspec.
    rewrite Hnear in Hspec. destruct Hspec as (Hr & Hc & _).
    pose proof (wrap32_range (i + 1)) as Hw.
    apply (alloc_success_outcome (mk_fs s b d [] [])).
    unfold alloc_claimed, first_index. cbn [sb bgs bdev]. fold i.
    split; [exact Hfree|]. split; [exact Hc|]. split; [lia|].
    right. left. split; [reflexivity|].
    destruct (_ >? _) eqn:Hgt in Hr; lia. }
  destruct (ext4_bmap_bit_find_clr _ _ _) as [j|] eqn:Hfind.
  { branch; [|err_leaf].
    apply find_clr_range in Hfind. destruct Hfind as [Hr Hc].
    apply (alloc_success_outcome (mk_fs s b d [] [])).
    unfold alloc_claimed, first_index. cbn [sb bgs bdev]. fold i.
    split; [exact Hfree|]. split; [exact Hc|]. split; [lia|].
    right. left. split; [reflexivity | lia]. }
  branch; [|err_leaf].
  apply alloc_goal_failed_outcome; assumption.
Qed.

(** X20.  [alloc] writes [*fblock] exactly when it has claimed a block and
    moved
    the counters, even if the release of the group handle that follows
    fails and the call returns that error: the block written to [*fblock]
    is then in use and accounted for.  When [*fblock] is not written the
    call returned an error, and the superblock, every group free count and
    the inode block count are as they were.  In particular a return of
    [EOK] always comes with a block. *)
Theorem alloc_block_outcome_spec st goal :
  let f := fs st in
  let s := sb f in
  0 < blocks_per_group s ->
  0 < ext4_block_group_cnt s ->
  let '(rc, fblock, st') := ext4_balloc_alloc_block st goal in
  match fblock with
  | Some a =>
      exists g j,
        alloc_claimed f goal g j /\
        a = ext4_fs_index_in_group2_baddr s j g /\
        op_effect f (inode_blocks_count st) st' g
          (fun d => ext4_bmap_bit_set d j) (-1) (block_size s / 512)
  | None =>
      rc <> EOK /\ sb (fs st') = s /\
      (forall g, bg_free_blocks_count (bgs (fs st') g) =
                 bg_free_blocks_count (bgs f g)) /\
      inode_blocks_count st' = inode_blocks_count st
  end.
Proof.
  intros f s Hbpg HG. exact (alloc_block_outcome st goal Hbpg HG).
Qed.

(** On [fs_small], when the final release of the handle fails with code 7
    the call returns 7 and block 9 has been handed out. *)
Lemma alloc_block_outcome_spec_witness :
  let '(rc, fblock, st') :=
    ext4_balloc_alloc_block (inode_small [0; 0; 0; 7]) 3 in
  rc = 7 /\ fblock = Some 9 /\ free_blocks_count (sb (fs st')) = 54.
Proof.
  pose proof (alloc_block_outcome_spec (inode_small [0; 0; 0; 7]) 3
                ltac:(reflexivity) ltac:(reflexivity)) as H.
  destruct (ext4_balloc_alloc_block (inode_small [0; 0; 0; 7]) 3)
    as [[rc fb] st'] eqn:Hrun.
  vm_compute in Hrun. injection Hrun as <- <- Hst.
  destruct H as (g & j & _ & _ & _ & Hfree & _). 
  split; [reflexivity|]. split; [reflexivity|].
  rewrite Hfree. reflexivity.
Defined.

